(** * act-utils: the datamodel grapher (act/utils/graph_datamodel.py)

    A shallow embedding of [DataModel] (its constructor, [load], the two
    generator properties [objects] and [facts], and [__eq__]) and of the
    [run] pipeline, followed by the properties stated about them.

    Conventions of the embedding.
    - A decoded JSON payload is a [pyval]; Python's [None] is [PNone].
      JSON numbers are taken to be integers.
    - A Python dict is an association list in insertion order (keys are
      unique in a dict; lookup takes the first binding).
    - A generator is a finite resumption [gen]: it yields, prints, stops
      or raises, and a consumer may stop pulling from it at any point.
    - The outside world (HTTP transport, clock, [urljoin]) is a Section
      variable; what the program does to it is recorded as a trace of
      [event]s, and the snapshot file [cache.dat] is part of the state.
    - [cache.dat], when it exists, holds a pickled [DataModel]. A
      [graphviz.Digraph] is the list of the calls made on it; [node] and
      [edge] raise on a name or label that is not a string, as the library
      does when it quotes them. The other sinks (source dump, rendering,
      Confluence) are taken to succeed; the transport answers every request
      with a status and a body.
    - Where a statement is about the identity of generator objects and the
      attributes of the instance, the bodies of the two properties are
      programs over a heap; run to their end they are the generators
      above. *)

From Stdlib Require Import Ascii String ZArith.
From stdpp Require Import base list strings countable gmap pretty.

Set Warnings "-register-all,-clear-no-such-hyp".
Local Open Scope Z_scope.
Local Open Scope string_scope.
Local Open Scope list_scope.

(** ** Python values *)

Inductive pyval : Type :=
| PNone
| PBool (b : bool)
| PInt (z : Z)
| PStr (s : string)
| PList (l : list pyval)
| PDict (kvs : list (string * pyval)).

Inductive exn : Type :=
| KeyError (key : string)
| TypeError
| AttributeError
| JSONDecodeError
| FileNotFoundError.

Inductive result (A : Type) : Type :=
| Ok (a : A)
| Raise (e : exn).
Arguments Ok {A} a.
Arguments Raise {A} e.

(** [bool(v)]: the truth value Python gives a decoded JSON value. *)
Definition truthy (v : pyval) : bool :=
  match v with
  | PNone => false
  | PBool b => b
  | PInt z => negb (Z.eqb z 0)
  | PStr s => negb (String.eqb s "")
  | PList l => match l with [] => false | _ => true end
  | PDict kvs => match kvs with [] => false | _ => true end
  end.

Fixpoint dict_get (key : string) (kvs : list (string * pyval)) : option pyval :=
  match kvs with
  | [] => None
  | (k, v) :: rest => if String.eqb k key then Some v else dict_get key rest
  end.

(** [v[key]] for a string key: only a dict can be subscripted by a string. *)
Definition subscript (v : pyval) (key : string) : result pyval :=
  match v with
  | PDict kvs =>
      match dict_get key kvs with
      | Some x => Ok x
      | None => Raise (KeyError key)
      end
  | _ => Raise TypeError
  end.

Fixpoint chars (s : string) : list pyval :=
  match s with
  | EmptyString => []
  | String c rest => PStr (String c EmptyString) :: chars rest
  end.

(** [iter(v)]: what a [for] loop over [v] visits. *)
Definition py_iter (v : pyval) : result (list pyval) :=
  match v with
  | PList l => Ok l
  | PDict kvs => Ok (map (fun kv => PStr (fst kv)) kvs)
  | PStr s => Ok (chars s)
  | _ => Raise TypeError
  end.

(** Hashable values and the key under which a set stores them: Python
    compares and hashes [True] as [1] and [False] as [0]; lists and dicts
    are unhashable. *)
Inductive hkey : Type :=
| KNone
| KInt (z : Z)
| KStr (s : string).

Definition py_hash (v : pyval) : result hkey :=
  match v with
  | PNone => Ok KNone
  | PBool b => Ok (KInt (if b then 1 else 0))
  | PInt z => Ok (KInt z)
  | PStr s => Ok (KStr s)
  | PList _ | PDict _ => Raise TypeError
  end.

(** [a == b] on values that are compared in [run] (a value against a
    string literal). *)
Definition py_eq_str (v : pyval) (s : string) : bool :=
  match v with
  | PStr t => String.eqb t s
  | _ => false
  end.

#[global] Instance exn_eq_dec : EqDecision exn.
Proof. solve_decision. Defined.

#[global] Instance hkey_eq_dec : EqDecision hkey.
Proof. solve_decision. Defined.

#[global] Instance hkey_countable : Countable hkey.
Proof.
  refine (inj_countable'
    (fun k => match k with
              | KNone => inl (inl ())
              | KInt z => inl (inr z)
              | KStr s => inr s
              end)
    (fun x => match x with
              | inl (inl _) => KNone
              | inl (inr z) => KInt z
              | inr s => KStr s
              end) _).
  by intros [].
Defined.

(** ** Results and generators *)

#[global] Instance result_ret : MRet result := fun _ a => Ok a.
#[global] Instance result_bind : MBind result :=
  fun _ _ f m => match m with Ok a => f a | Raise e => Raise e end.

(** A generator run, as its consumer sees it: [next()] either stops,
    raises, or (after possibly printing) hands over a value and the rest.
    Pulling is the consumer's choice, so output behind a point the consumer
    never reaches is never printed. *)
Inductive gen (A : Type) : Type :=
| GStop
| GRaise (e : exn)
| GPrint (args : list pyval) (k : gen A)
| GYield (a : A) (k : gen A).
Arguments GStop {A}.
Arguments GRaise {A} e.
Arguments GPrint {A} args k.
Arguments GYield {A} a k.

(** The values a generator hands over when it is run to its end. *)
Fixpoint yields {A} (g : gen A) : list A :=
  match g with
  | GStop | GRaise _ => []
  | GPrint _ k => yields k
  | GYield a k => a :: yields k
  end.

(** How a generator run to its end finishes: [None] for StopIteration. *)
Fixpoint raised {A} (g : gen A) : option exn :=
  match g with
  | GStop => None
  | GRaise e => Some e
  | GPrint _ k | GYield _ k => raised k
  end.

(** What a generator run to its end prints. *)
Fixpoint printed {A} (g : gen A) : list (list pyval) :=
  match g with
  | GStop | GRaise _ => []
  | GPrint args k => args :: printed k
  | GYield _ k => printed k
  end.

(** ** DataModel *)

(** The value handed to [requests] as [verify=]: [True], or whatever was
    passed as [cacert] (a path, or [None]). *)
Inductive verify_setting : Type :=
| VerifyTrue
| VerifyCacert (cacert : option string).

Record DataModel : Type := mkDataModel {
  objects_url : string;
  facts_url : string;
  username : option string;
  password : option string;
  user_id : Z;
  status : option Z;
  _objects : pyval;
  _facts : pyval;
  verify : verify_setting
}.

Definition DEBUG : bool := false.

Definition fact_tuple : Type := pyval * pyval * pyval * pyval.

(** The tuple built for one binding of one fact (lines 101-108), its four
    components evaluated left to right. *)
Definition binding_tuple (fact binding : pyval) : result fact_tuple :=
  name ← subscript fact "name";
  src ← subscript binding "sourceObjectType";
  s ← subscript src "name";
  dst ← subscript binding "destinationObjectType";
  d ← (if truthy dst
       then dst' ← subscript binding "destinationObjectType"; subscript dst' "name"
       else Ok PNone);
  di ← subscript binding "bidirectionalBinding";
  Ok (name, s, d, di).

Fixpoint bindings_loop (fact : pyval) (bindings : list pyval)
    (k : gen fact_tuple) : gen fact_tuple :=
  match bindings with
  | [] => k
  | binding :: rest =>
      match binding_tuple fact binding with
      | Ok t => GYield t (bindings_loop fact rest k)
      | Raise e => GRaise e
      end
  end.

Fixpoint facts_loop (data : list pyval) : gen fact_tuple :=
  match data with
  | [] => GStop
  | fact :: rest =>
      if negb (truthy fact) then GPrint [PStr "Nonetype"; fact] (facts_loop rest)
      else
        match subscript fact "relevantObjectBindings" with
        | Raise e => GRaise e
        | Ok bindings =>
            if negb (truthy bindings) then facts_loop rest
            else
              match py_iter bindings with
              | Raise e => GRaise e
              | Ok bs => bindings_loop fact bs (facts_loop rest)
              end
        end
  end.

(** [DataModel.facts] *)
Definition facts (self : DataModel) : gen fact_tuple :=
  if negb (truthy (_facts self)) then
    (if DEBUG then GPrint [PStr "Trying to iterate over None facts"] GStop
     else GStop)
  else
    match subscript (_facts self) "data" with
    | Raise e => GRaise e
    | Ok data =>
        match py_iter data with
        | Raise e => GRaise e
        | Ok l => facts_loop l
        end
    end.

Fixpoint objects_loop (data : list pyval) : gen pyval :=
  match data with
  | [] => GStop
  | obj :: rest =>
      if negb (truthy obj) then GPrint [PStr "Nonetype"; obj] (objects_loop rest)
      else
        match subscript obj "name" with
        | Raise e => GRaise e
        | Ok name => GYield name (objects_loop rest)
        end
  end.

(** [DataModel.objects] *)
Definition objects (self : DataModel) : gen pyval :=
  if negb (truthy (_objects self)) then
    (if DEBUG then GPrint [PStr "Trying to iterate over None objects"] GStop
     else GStop)
  else
    match subscript (_objects self) "data" with
    | Raise e => GRaise e
    | Ok data =>
        match py_iter data with
        | Raise e => GRaise e
        | Ok l => objects_loop l
        end
    end.

(** Hashing a tuple hashes its components in order. *)
Definition hash_tuple (t : fact_tuple) : result (hkey * hkey * hkey * hkey) :=
  let '(name, s, d, di) := t in
  a ← py_hash name; b ← py_hash s; c ← py_hash d; e ← py_hash di;
  Ok (a, b, c, e).

(** ** The graph sink and the outside world *)

(** One call on a [graphviz.Digraph]: [node(name, label, shape=...)] or
    [edge(tail, head, label=..., dir=...)]; an omitted keyword is [None]. *)
Inductive dot_call : Type :=
| DotNode (name label : pyval) (shape : option string)
| DotEdge (tail head : pyval) (label : option pyval) (dir : option string).

Record Digraph : Type := mkDigraph {
  comment : string;
  body : list dot_call
}.

Definition is_str (v : pyval) : bool :=
  match v with
  | PStr _ => true
  | _ => false
  end.

Definition is_str_or_None (v : pyval) : bool :=
  match v with
  | PStr _ | PNone => true
  | _ => false
  end.

(** [Digraph.node]: graphviz quotes the name, and the label unless it is
    [None], by matching them against a regular expression, which raises
    [TypeError] on anything but a string. The shapes passed are string
    literals. *)
Definition node (name label : pyval) (shape : option string) (dot : Digraph)
    : result Digraph :=
  if negb (is_str name) then Raise TypeError
  else if negb (is_str_or_None label) then Raise TypeError
  else Ok {| comment := comment dot; body := body dot ++ [DotNode name label shape] |}.

(** [Digraph.edge]: the two ends are split at their first colon
    ([identifier.partition(':')], an [AttributeError] on anything but a
    string) and quoted, then the label is quoted as for a node. *)
Definition edge (tail head : pyval) (label : option pyval) (dir : option string)
    (dot : Digraph) : result Digraph :=
  if negb (is_str tail) then Raise AttributeError
  else if negb (is_str head) then Raise AttributeError
  else if negb (match label with
                | Some l => is_str_or_None l
                | None => true
                end) then Raise TypeError
  else Ok {| comment := comment dot; body := body dot ++ [DotEdge tail head label dir] |}.

Record request : Type := mkRequest {
  req_url : string;
  req_auth : option (option string * option string);
  req_headers : list (string * string);
  req_verify : verify_setting
}.

(** A response: its status code and what [r.json()] decodes ([None] when
    the body is not JSON). *)
Record response : Type := mkResponse {
  status_code : Z;
  json : option pyval
}.

Inductive event : Type :=
| EvGet (r : request)
| EvPrint (args : list pyval)
| EvOpen (path mode : string)
| EvPickleLoad
| EvPickleDump (dm : DataModel)
| EvDigraph (comment : string)
| EvWriteSource (path : string) (dot : Digraph)
| EvRender (filename format renderer : string) (dot : Digraph)
| EvEnvironPop (name : string)
| EvConfluence (url username password : option string) (verify_ssl : bool)
| EvAttachFile (filename : string) (page_id : Z) (title : string).

(** The state a run acts on: everything done so far, oldest first, and the
    content of [cache.dat] ([None] when the file does not exist). *)
Record world : Type := mkWorld {
  trace : list event;
  cache_dat : option DataModel
}.

Definition M (A : Type) : Type := world → result A * world.

#[global] Instance M_ret : MRet M := fun _ a w => (Ok a, w).
#[global] Instance M_bind : MBind M :=
  fun _ _ f m w => match m w with
                   | (Ok a, w') => f a w'
                   | (Raise e, w') => (Raise e, w')
                   end.

(** The world after [es] more events. *)
Definition add_trace (es : list event) (w : world) : world :=
  {| trace := trace w ++ es; cache_dat := cache_dat w |}.

Definition emit (e : event) : M unit := fun w => (Ok (), add_trace [e] w).

Definition throw {A} (e : exn) : M A := fun w => (Raise e, w).

Definition lift {A} (r : result A) : M A := fun w => (r, w).

Definition print (args : list pyval) : M unit := emit (EvPrint args).

Definition stat_cache_dat : M (option DataModel) :=
  fun w => (Ok (cache_dat w), w).

(** The world once [cache.dat] holds the pickled [dm]. *)
Definition with_cache (dm : DataModel) (w : world) : world :=
  {| trace := trace w; cache_dat := Some dm |}.

Definition write_cache_dat (dm : DataModel) : M unit :=
  fun w => (Ok (), with_cache dm w).

(** [for x in g: body], where the body only updates a local [acc] or
    raises; an exception of the body ends the loop, and the generator is
    not resumed. *)
Fixpoint for_each {A S} (g : gen A) (body : A → S → result S) (acc : S) : M S :=
  match g with
  | GStop => mret acc
  | GRaise e => throw e
  | GPrint args k => _ ← print args; for_each k body acc
  | GYield a k => acc ← lift (body a acc); for_each k body acc
  end.

(** [set(g)]: pulls from the generator, hashing every value it is handed;
    the first unhashable value, or the generator's own exception, ends it. *)
Fixpoint py_set `{Countable K} {A} (hash : A → result K) (g : gen A)
    (acc : gset K) : M (gset K) :=
  match g with
  | GStop => mret acc
  | GRaise e => throw e
  | GPrint args k => _ ← print args; py_set hash k acc
  | GYield a k => h ← lift (hash a); py_set hash k ({[h]} ∪ acc)
  end.

(** [DataModel.__eq__], between two instances of [DataModel]. *)
Definition __eq__ (self other : DataModel) : M bool :=
  so ← py_set py_hash (objects self) ∅;
  oo ← py_set py_hash (objects other) ∅;
  if bool_decide (so = oo) then
    sf ← py_set hash_tuple (facts self) ∅;
    tf ← py_set hash_tuple (facts other) ∅;
    mret (bool_decide (sf = tf))
  else mret false.

(** ** Command line *)

Record Namespace : Type := mkNamespace {
  url : string;
  uid : Z;
  http_username : option string;
  http_password : option string;
  parent_id : option Z;
  confluence_url : option string;
  confluence_user : option string;
  confluence_password : option string;
  dump_source : option string;
  cacert : option string
}.

(** What [parse_args] returns when only the positional [url] is given:
    every option at its declared default. *)
Definition parse_args_defaults (url : string) : Namespace :=
  {| url := url; uid := 1; http_username := None; http_password := None;
     parent_id := None; confluence_url := None; confluence_user := None;
     confluence_password := None; dump_source := None; cacert := None |}.

Definition truthy_str (o : option string) : bool :=
  match o with
  | Some s => negb (String.eqb s "")
  | None => false
  end.

Definition truthy_int (o : option Z) : bool :=
  match o with
  | Some z => negb (Z.eqb z 0)
  | None => false
  end.

Fixpoint endswith_sep (s : string) : bool :=
  match s with
  | EmptyString => false
  | String c EmptyString => Ascii.eqb c "/"%char
  | String _ rest => endswith_sep rest
  end.

(** [os.path.join(a, b)] on POSIX. *)
Definition os_path_join (a b : string) : string :=
  match b with
  | String "/"%char _ => b
  | _ => if String.eqb a "" || endswith_sep a then a +:+ b else a +:+ "/" +:+ b
  end.

(** [str(x)] for an [Optional[int]]. *)
Definition str_status (o : option Z) : string :=
  match o with
  | Some z => pretty z
  | None => "None"
  end.

(** ** The pipeline *)

Section Pipeline.

(** [urllib.parse.urljoin], the HTTP transport behind [requests.get], and
    the text of [str(datetime.datetime.now())]. *)
Variable urljoin : string → string → string.
Variable requests_get : request → response.
Variable now : string.

(** [DataModel.__init__] *)
Definition __init__ (url : string) (username password : option string)
    (user_id : Z) (cacert : option string) : DataModel :=
  {| objects_url := urljoin url "/v1/objectType";
     facts_url := urljoin url "/v1/factType";
     username := username;
     password := password;
     user_id := user_id;
     status := None;
     _objects := PNone;
     _facts := PNone;
     verify := if bool_decide (cacert ≠ Some "") then VerifyCacert cacert
               else VerifyTrue |}.

Definition get (url : string) (auth : option (option string * option string))
    (headers : list (string * string)) (verify : verify_setting) : M response :=
  let req := {| req_url := url; req_auth := auth; req_headers := headers;
                req_verify := verify |} in
  _ ← emit (EvGet req); mret (requests_get req).

Definition r_json (r : response) : M pyval :=
  match json r with
  | Some v => mret v
  | None => throw JSONDecodeError
  end.

Definition poisoned (self : DataModel) (code : Z) : DataModel :=
  {| objects_url := objects_url self; facts_url := facts_url self;
     username := username self; password := password self;
     user_id := user_id self; status := Some code;
     _objects := PNone; _facts := PNone; verify := verify self |}.

Definition with_objects (self : DataModel) (v : pyval) : DataModel :=
  {| objects_url := objects_url self; facts_url := facts_url self;
     username := username self; password := password self;
     user_id := user_id self; status := status self;
     _objects := v; _facts := _facts self; verify := verify self |}.

Definition with_facts (self : DataModel) (v : pyval) : DataModel :=
  {| objects_url := objects_url self; facts_url := facts_url self;
     username := username self; password := password self;
     user_id := user_id self; status := status self;
     _objects := _objects self; _facts := v; verify := verify self |}.

Definition with_status (self : DataModel) (code : Z) : DataModel :=
  {| objects_url := objects_url self; facts_url := facts_url self;
     username := username self; password := password self;
     user_id := user_id self; status := Some code;
     _objects := _objects self; _facts := _facts self; verify := verify self |}.

(** [DataModel.load]: returns the instance as the call leaves it. *)
Definition load (self : DataModel) : M DataModel :=
  let headers := [("ACT-User-ID", pretty (user_id self));
                  ("Accept", "application/json")] in
  let auth := (username self, password self) in
  r ← (if truthy_str (username self)
       then get (objects_url self) (Some auth) headers (verify self)
       else get (objects_url self) None headers (verify self));
  if Z.eqb (status_code r) 200 then
    v ← r_json r;
    let self := with_objects self v in
    r ← (if truthy_str (username self)
         then get (facts_url self) (Some auth) headers (verify self)
         else get (facts_url self) None headers (verify self));
    if Z.eqb (status_code r) 200 then
      v ← r_json r;
      let self := with_facts self v in
      mret (with_status self (status_code r))
    else
      _ ← (if DEBUG
           then print [PStr ("Error loading objects: " +:+ pretty (status_code r))]
           else mret ());
      mret (poisoned self (status_code r))
  else
    _ ← (if DEBUG
         then print [PStr ("Error loading objects: " +:+ pretty (status_code r))]
         else mret ());
    mret (poisoned self (status_code r)).

(** [pickle.load(open("cache.dat", "rb"))] *)
Definition pickle_load : M DataModel :=
  _ ← emit (EvOpen "cache.dat" "rb");
  f ← stat_cache_dat;
  match f with
  | Some old => _ ← emit EvPickleLoad; mret old
  | None => throw FileNotFoundError
  end.

(** [pickle.dump(dm, open("cache.dat", "wb"))] *)
Definition pickle_dump (dm : DataModel) : M unit :=
  _ ← emit (EvOpen "cache.dat" "wb");
  _ ← write_cache_dat dm;
  emit (EvPickleDump dm).

(** [try: body / except FileNotFoundError: handler] *)
Definition try_except_FileNotFoundError {A} (body handler : M A) : M A :=
  fun w => match body w with
           | (Raise FileNotFoundError, w') => handler w'
           | r => r
           end.

Definition new_Digraph (comment : string) : M Digraph :=
  _ ← emit (EvDigraph comment); mret {| comment := comment; body := [] |}.

Definition write_source (path : string) (dot : Digraph) : M unit :=
  _ ← emit (EvOpen path "w"); emit (EvWriteSource path dot).

Definition render (filename format renderer : string) (dot : Digraph) : M unit :=
  emit (EvRender filename format renderer dot).

(** Body of the loop at lines 190-202. *)
Definition double_body (fact : fact_tuple) (dot : Digraph) : result Digraph :=
  let '(name, s, d, di) := fact in
  if py_eq_str name "mentions" then Ok dot
  else if negb (truthy d) then Ok dot
  else
    dot ← node s s None dot;
    dot ← node d d None dot;
    if truthy di then edge s d (Some name) (Some "both") dot
    else edge s d (Some name) None dot.

(** Body of the loop at lines 212-222. *)
Definition single_body (fact : fact_tuple) (dot : Digraph) : result Digraph :=
  let '(name, s, d, di) := fact in
  if truthy d then Ok dot
  else
    dot ← node name name (Some "diamond") dot;
    dot ← node s s None dot;
    edge s name None None dot.

(** Body of the loop at lines 232-233. *)
Definition object_body (obj : pyval) (dot : Digraph) : result Digraph :=
  node obj obj None dot.

(** Body of the loop at lines 235-245. *)
Definition complete_body (fact : fact_tuple) (dot : Digraph) : result Digraph :=
  let '(name, s, d, di) := fact in
  if negb (truthy d) then Ok dot
  else
    dot ← node s s None dot;
    dot ← node d d None dot;
    if truthy di then edge s d (Some name) (Some "both") dot
    else edge s d (Some name) None dot.

Definition dump (args : Namespace) (file : string) (dot : Digraph) : M unit :=
  match dump_source args with
  | Some dir =>
      if truthy_str (Some dir) then write_source (os_path_join dir file) dot
      else mret ()
  | None => mret ()
  end.

(** Lines 185-208 *)
Definition double_graph (args : Namespace) (dm : DataModel) : M unit :=
  dot ← new_Digraph "Double edge facts";
  dot ← for_each (facts dm) double_body dot;
  _ ← dump args "double.dot" dot;
  render "output/double" "png" "cairo" dot.

(** Lines 210-228 *)
Definition single_graph (args : Namespace) (dm : DataModel) : M unit :=
  dot ← new_Digraph "Single edge facts";
  dot ← for_each (facts dm) single_body dot;
  _ ← dump args "single.dot" dot;
  render "output/single" "png" "cairo" dot.

(** Lines 230-251 *)
Definition complete_graph (args : Namespace) (dm : DataModel) : M unit :=
  dot ← new_Digraph "All Double edge facts";
  dot ← for_each (objects dm) object_body dot;
  dot ← for_each (facts dm) complete_body dot;
  _ ← dump args "complete.dot" dot;
  render "output/complete" "png" "cairo" dot.

Definition attach_file (filename : string) (page_id : Z) (title : string) : M unit :=
  emit (EvAttachFile filename page_id title).

(** Lines 253-302 *)
Definition upload (args : Namespace) : M unit :=
  match parent_id args with
  | Some page_id =>
      if truthy_int (Some page_id) then
        _ ← emit (EvEnvironPop "https_proxy");
        _ ← emit (EvEnvironPop "http_proxy");
        let verify_ssl := if truthy_str (cacert args) then false else true in
        _ ← emit (EvConfluence (confluence_url args) (confluence_user args)
                    (confluence_password args) verify_ssl);
        _ ← attach_file "output/double.cairo.png" page_id "Double Edged Facts";
        _ ← attach_file "output/single.cairo.png" page_id "Single Edged Facts";
        _ ← attach_file "output/complete.cairo.png" page_id "Single Edged Facts";
        match dump_source args with
        | Some dir =>
            if truthy_str (Some dir) then
              _ ← attach_file (os_path_join dir "complete.dot") page_id "complete source";
              _ ← attach_file (os_path_join dir "double.dot") page_id "double source";
              attach_file (os_path_join dir "single.dot") page_id "single source"
            else mret ()
        | None => mret ()
        end
      else mret ()
  | None => mret ()
  end.

(** Lines 181-302: what [run] does once it has decided to graph. *)
Definition graph_changes (args : Namespace) (dm : DataModel) : M unit :=
  _ ← print [PStr (now +:+ " Graphing changes")];
  _ ← pickle_dump dm;
  _ ← double_graph args dm;
  _ ← single_graph args dm;
  _ ← complete_graph args dm;
  upload args.

(** [run], given what [parse_args] returned. *)
Definition run (args : Namespace) : M unit :=
  let dm := __init__ (url args) (http_username args) (http_password args)
              (uid args) (cacert args) in
  dm ← load dm;
  if negb (bool_decide (status dm = Some 200)) then
    print [PStr (now +:+ " Status code " +:+ str_status (status dm))]
  else
    unchanged ← try_except_FileNotFoundError
                  (old_dm ← pickle_load; __eq__ old_dm dm)
                  (_ ← print [PStr "First run"]; mret false);
    if (unchanged : bool) then (mret () : M unit)
    else graph_changes args dm.

End Pipeline.

(** ** The views as generator objects

    [objects] and [facts] are properties whose body is a generator
    function: reading the property calls the function, which makes a new
    generator object and runs nothing; the body runs when the generator is
    resumed, and what is left of it is the state of that object. Here the
    body is a program that may also read and assign the attributes of
    [self], and the instance and the generator objects made so far live in
    a heap. *)

Inductive attribute : Type := Attr_objects | Attr_facts.

Definition getattr (self : DataModel) (attr : attribute) : pyval :=
  match attr with
  | Attr_objects => _objects self
  | Attr_facts => _facts self
  end.

Definition setattr (self : DataModel) (attr : attribute) (v : pyval) : DataModel :=
  match attr with
  | Attr_objects => with_objects self v
  | Attr_facts => with_facts self v
  end.

Inductive prog (A : Type) : Type :=
| PReturn
| PRaise (e : exn)
| PPrint (args : list pyval) (k : prog A)
| PYield (a : A) (k : prog A)
| PGetAttr (attr : attribute) (k : pyval → prog A)
| PSetAttr (attr : attribute) (v : pyval) (k : prog A).
Arguments PReturn {A}.
Arguments PRaise {A} e.
Arguments PPrint {A} args k.
Arguments PYield {A} a k.
Arguments PGetAttr {A} attr k.
Arguments PSetAttr {A} attr v k.

(** A loop over a list it has already been handed touches no attribute. *)
Fixpoint of_gen {A} (g : gen A) : prog A :=
  match g with
  | GStop => PReturn
  | GRaise e => PRaise e
  | GPrint args k => PPrint args (of_gen k)
  | GYield a k => PYield a (of_gen k)
  end.

(** The body of [DataModel.objects] (lines 113-123): it reads
    [self._objects] for the test and again for the loop. *)
Definition objects_generator : prog pyval :=
  PGetAttr Attr_objects (fun o =>
    if negb (truthy o) then
      (if DEBUG then PPrint [PStr "Trying to iterate over None objects"] PReturn
       else PReturn)
    else
      PGetAttr Attr_objects (fun o =>
        match subscript o "data" with
        | Raise e => PRaise e
        | Ok data =>
            match py_iter data with
            | Raise e => PRaise e
            | Ok l => of_gen (objects_loop l)
            end
        end)).

(** The body of [DataModel.facts] (lines 88-108). *)
Definition facts_generator : prog fact_tuple :=
  PGetAttr Attr_facts (fun f =>
    if negb (truthy f) then
      (if DEBUG then PPrint [PStr "Trying to iterate over None facts"] PReturn
       else PReturn)
    else
      PGetAttr Attr_facts (fun f =>
        match subscript f "data" with
        | Raise e => PRaise e
        | Ok data =>
            match py_iter data with
            | Raise e => PRaise e
            | Ok l => of_gen (facts_loop l)
            end
        end)).

(** The instance, and the generator objects made so far, each with what is
    left of its body; a generator object is known by its position. *)
Record heap (A : Type) : Type := mkHeap {
  instance : DataModel;
  generators : list (prog A)
}.
Arguments mkHeap {A} instance generators.
Arguments instance {A} h.
Arguments generators {A} h.

(** Reading the property: a new generator object, nothing run. *)
Definition get_property {A} (body : prog A) (h : heap A) : nat * heap A :=
  (length (generators h),
   {| instance := instance h; generators := generators h ++ [body] |}).

(** Running what is left of a body to its end: what it hands over (or the
    exception that ends it), and the instance and the world as it leaves
    them. *)
Fixpoint drain {A} (p : prog A) (self : DataModel) (w : world)
    : result (list A) * DataModel * world :=
  match p with
  | PReturn => (Ok [], self, w)
  | PRaise e => (Raise e, self, w)
  | PPrint args k => drain k self (add_trace [EvPrint args] w)
  | PYield a k =>
      match drain k self w with
      | (Ok l, self', w') => (Ok (a :: l), self', w')
      | r => r
      end
  | PGetAttr attr k => drain (k (getattr self attr)) self w
  | PSetAttr attr v k => drain k (setattr self attr v) w
  end.

(** [list(g)] on the generator object [g]: it is resumed until it ends, and
    it is finished afterwards, also when it ended by raising. (Every
    position handed out by [get_property] is in the heap.) *)
Definition py_list {A} (g : nat) (h : heap A) (w : world)
    : result (list A) * heap A * world :=
  match generators h !! g with
  | Some p =>
      let '(r, self, w') := drain p (instance h) w in
      (r, {| instance := self; generators := <[g := PReturn]> (generators h) |}, w')
  | None => (Ok [], h, w)
  end.

(** [list(self.<property>)] *)
Definition read {A} (body : prog A) (h : heap A) (w : world)
    : result (list A) * heap A * world :=
  let '(g, h') := get_property body h in py_list g h' w.

(** The property read [n] times in a row, every time through [list(...)]. *)
Fixpoint reads {A} (n : nat) (body : prog A) (h : heap A) (w : world)
    : result (list (list A)) * heap A * world :=
  match n with
  | O => (Ok [], h, w)
  | S n' =>
      match read body h w with
      | (Ok xs, h', w') =>
          match reads n' body h' w' with
          | (Ok rest, h'', w'') => (Ok (xs :: rest), h'', w'')
          | r => r
          end
      | (Raise e, h', w') => (Raise e, h', w')
      end
  end.

(** ** The origin client (act/utils/origin.py)

    The platform client [act.api], the builtin [float] with its comparison
    against the unit interval, and the UUID pattern are Section variables.
    Standard input is a list of lines; what the program writes, logs and
    asks of the platform is a trace. *)

Module Origin.

Inductive action : Type := List_ | Add | Delete.

(** What [parseargs] returns: the four declared arguments, and no other
    attribute. *)
Record Namespace : Type := mkNamespace {
  user_id : string;
  act_baseurl : string;
  action_ : action;
  default_trust : string
}.

Inductive exn : Type :=
| AttributeError (name : string)
| EOFError
| SystemExit (code : Z)
| ResponseError (msg : string).

(** [isinstance(e, Exception)]: [SystemExit] is not an [Exception]. *)
Definition is_Exception (e : exn) : bool :=
  match e with
  | SystemExit _ => false
  | _ => true
  end.

Inductive outcome (A : Type) : Type :=
| Done (a : A)
| Raised (e : exn).
Arguments Done {A} a.
Arguments Raised {A} e.

Section Client.

(** The representation of a float, [float(s)] ([None] for [ValueError]),
    and the test [trust >= 0.0 and trust <= 1.0]. *)
Variable F : Type.
Variable float : string → option F.
Variable in_unit_interval : F → bool.

(** [re.search(act.api.re.UUID_MATCH, s)], as a truth value. *)
Variable uuid_match : string → bool.

(** The keyword arguments of [actapi.origin]. *)
Record params : Type := mkParams {
  p_name : string;
  p_description : string;
  p_trust : F;
  p_organization : option string
}.

Inductive event : Type :=
| Write (text : string)
| Print (text : string)
| PrintOrigin (origin : string)
| PrintAdded (p : params)
| Error (msg : string)
| Unhandled (e : exn)
| Act (baseurl user_id : string)
| GetOrigins
| OriginAdd (p : params)
| ApiDelete (path : string).

Definition is_OriginAdd (e : event) : bool :=
  match e with
  | OriginAdd _ => true
  | _ => false
  end.

Definition is_Write (e : event) : bool :=
  match e with
  | Write _ => true
  | _ => false
  end.

Definition is_Unhandled (e : event) : bool :=
  match e with
  | Unhandled _ => true
  | _ => false
  end.

(** What the platform answers: the origins it lists, and whether it
    accepts an origin; [inr msg] is a [ResponseError]. *)
Variable get_origins : list string + string.
Variable origin_add : params → option string.

Record console : Type := mkConsole {
  stdin : list string;
  trace : list event
}.

Definition IO (A : Type) : Type := console → outcome A * console.

Definition ret {A} (a : A) : IO A := fun c => (Done a, c).

Definition bind {A B} (m : IO A) (f : A → IO B) : IO B :=
  fun c => match m c with
           | (Done a, c') => f a c'
           | (Raised e, c') => (Raised e, c')
           end.

Definition raise {A} (e : exn) : IO A := fun c => (Raised e, c).

Definition emit (e : event) : IO unit :=
  fun c => (Done (), {| stdin := stdin c; trace := trace c ++ [e] |}).

(** [input()] *)
Definition input : IO string :=
  fun c => match stdin c with
           | line :: rest => (Done line, {| stdin := rest; trace := trace c |})
           | [] => (Raised EOFError, c)
           end.

(** [fatal(msg)] with the default exit code *)
Definition fatal {A} (msg : string) : IO A :=
  bind (emit (Error msg)) (fun _ => raise (SystemExit 1)).

Definition add_origin (default_trust : string) : IO unit :=
  bind (emit (Write "Origin name: ")) (fun _ =>
  bind input (fun name =>
  bind (emit (Write "Origin description: ")) (fun _ =>
  bind input (fun description =>
  bind (emit (Write "Origin trust (float 0.0-1.0. Default=0.8): ")) (fun _ =>
  bind input (fun trust =>
  bind (emit (Write "Origin organization (UUID): ")) (fun _ =>
  bind input (fun organization =>
  let trust := if String.eqb trust "" then default_trust else trust in
  bind (match float trust with
        | Some x => ret x
        | None => fatal ("Unable to convert " +:+ trust +:+ " to float")
        end) (fun trust =>
  bind (if negb (in_unit_interval trust)
        then fatal "Trust must be between 0.0 and 1.0"
        else ret ()) (fun _ =>
  bind (if negb (String.eqb organization "")
        then
          bind (if negb (uuid_match organization)
                then fatal "Organization must be a valid UUID"
                else ret ()) (fun _ => ret (Some organization))
        else ret None) (fun org =>
  let p := {| p_name := name; p_description := description;
              p_trust := trust; p_organization := org |} in
  bind (emit (OriginAdd p)) (fun _ =>
  bind (match origin_add p with
        | Some msg => raise (ResponseError msg)
        | None => ret ()
        end) (fun _ =>
  bind (emit (Print "Origin added:")) (fun _ =>
  emit (PrintAdded p))))))))))))))).

(** [args.origin_id]: the namespace has no such attribute. *)
Definition origin_id {A} (args : Namespace) : IO A :=
  raise (AttributeError "origin_id").

Fixpoint print_origins (origins : list string) : IO unit :=
  match origins with
  | [] => ret ()
  | o :: rest => bind (emit (PrintOrigin o)) (fun _ => print_origins rest)
  end.

(** [try: body / except act.api.base.ResponseError as err: handler(err)] *)
Definition try_except_ResponseError (body : IO unit) (handler : string → IO unit)
    : IO unit :=
  fun c => match body c with
           | (Raised (ResponseError msg), c') => handler msg c'
           | r => r
           end.

Definition origin_handler (args : Namespace) : IO unit :=
  try_except_ResponseError
    (bind (match action_ args with
           | List_ =>
               bind (emit GetOrigins) (fun _ =>
               match get_origins with
               | inl origins => print_origins origins
               | inr msg => raise (ResponseError msg)
               end)
           | _ => ret ()
           end) (fun _ =>
     bind (match action_ args with
           | Add => add_origin (default_trust args)
           | _ => ret ()
           end) (fun _ =>
     match action_ args with
     | Delete =>
         bind (origin_id args) (fun id : string =>
         bind (emit (ApiDelete ("v1/origin/uuid/" +:+ id))) (fun _ =>
         emit (Print ("Origin deleted: " +:+ id))))
     | _ => ret ()
     end)))
    (fun msg => emit (Error ("ResponseError while connecting to platform: " +:+ msg))).

(** [try: body / except Exception: error(...); raise] *)
Definition try_except_Exception (body : IO unit) : IO unit :=
  fun c => match body c with
           | (Raised e, c') =>
               if is_Exception e
               then bind (emit (Unhandled e)) (fun _ => raise e) c'
               else (Raised e, c')
           | r => r
           end.

(** [main], given what [parseargs] returned. *)
Definition main (args : Namespace) : IO unit :=
  try_except_Exception
    (bind (match action_ args with
           | Delete =>
               bind (origin_id args) (fun id : string =>
               if String.eqb id ""
               then fatal "Specify --origin-id to delete an origin"
               else ret ())
           | _ => ret ()
           end) (fun _ =>
     bind (emit (Act (act_baseurl args) (user_id args))) (fun _ =>
     origin_handler args))).

End Client.

End Origin.

(** ** Vocabulary of the statements *)

(** A generator run to its end, as a value: what it handed over, or the
    exception that ended it. *)
Definition run_to_end {A} (g : gen A) : result (list A) :=
  match raised g with
  | None => Ok (yields g)
  | Some e => Raise e
  end.

Fixpoint hash_all {A K} (hash : A → result K) (l : list A) : result (list K) :=
  match l with
  | [] => Ok []
  | a :: rest => h ← hash a; hs ← hash_all hash rest; Ok (h :: hs)
  end.

(** The de-duplicated set of what a view produces: defined when the view
    runs to its end and every value it hands over is hashable. *)
Definition produced_set `{Countable K} {A} (hash : A → result K) (g : gen A)
    : option (gset K) :=
  match raised g with
  | Some _ => None
  | None =>
      match hash_all hash (yields g) with
      | Ok ks => Some (list_to_set ks)
      | Raise _ => None
      end
  end.

(** The union of the sets [f] gives for the elements of [l], when it gives
    one for each. *)
Fixpoint union_all `{Countable K} {A} (f : A → option (gset K)) (l : list A)
    : option (gset K) :=
  match l with
  | [] => Some ∅
  | x :: rest =>
      match f x, union_all f rest with
      | Some X, Some Y => Some (X ∪ Y)
      | _, _ => None
      end
  end.

(** What one entry of the object-type payload contributes to
    [set(self.objects)]. *)
Definition object_entry_set (obj : pyval) : option (gset hkey) :=
  if negb (truthy obj) then Some ∅
  else
    match subscript obj "name" with
    | Raise _ => None
    | Ok name =>
        match py_hash name with
        | Ok h => Some {[h]}
        | Raise _ => None
        end
    end.

(** What one binding, and one entry of the fact-type payload, contribute to
    [set(self.facts)]. *)
Definition binding_set (fact binding : pyval)
    : option (gset (hkey * hkey * hkey * hkey)) :=
  match binding_tuple fact binding with
  | Raise _ => None
  | Ok t =>
      match hash_tuple t with
      | Ok h => Some {[h]}
      | Raise _ => None
      end
  end.

Definition fact_entry_set (fact : pyval)
    : option (gset (hkey * hkey * hkey * hkey)) :=
  if negb (truthy fact) then Some ∅
  else
    match subscript fact "relevantObjectBindings" with
    | Raise _ => None
    | Ok bindings =>
        if negb (truthy bindings) then Some ∅
        else
          match py_iter bindings with
          | Raise _ => None
          | Ok bs => union_all (binding_set fact) bs
          end
    end.

(** A model as it is after a fetch, with the given payloads. *)
Definition fetched_model (objects_payload facts_payload : pyval) : DataModel :=
  {| objects_url := "https://act.example/v1/objectType";
     facts_url := "https://act.example/v1/factType";
     username := None; password := None; user_id := 1;
     status := Some 200;
     _objects := objects_payload; _facts := facts_payload;
     verify := VerifyTrue |}.

(** Payloads of the documented shape, for the examples. *)
Definition catalog (entries : list pyval) : pyval := PDict [("data", PList entries)].

Definition object_type (name : string) : pyval := PDict [("name", PStr name)].

Definition binding (src : string) (dst : option string) (bidirectional : bool)
    : pyval :=
  PDict [("sourceObjectType", PDict [("name", PStr src)]);
         ("destinationObjectType",
          match dst with
          | Some d => PDict [("name", PStr d)]
          | None => PNone
          end);
         ("bidirectionalBinding", PBool bidirectional)].

Definition fact_type (name : string) (bindings : list pyval) : pyval :=
  PDict [("name", PStr name); ("relevantObjectBindings", PList bindings)].

(** A transport for the examples: it answers the object-type URL with the
    first response and every other URL with the second. *)
Definition example_urljoin (base path : string) : string := base +:+ path.

Definition example_get (objects_response facts_response : response)
    (q : request) : response :=
  if String.eqb (req_url q) "https://act.example/v1/objectType"
  then objects_response else facts_response.

Definition example_args : Namespace := parse_args_defaults "https://act.example".

Definition example_model : DataModel :=
  fetched_model
    (catalog [object_type "host"; object_type "ip"])
    (catalog [fact_type "resolvesTo" [binding "host" (Some "ip") false];
              fact_type "hasAttribute" [binding "host" None false]]).

(** The same catalogs, listed in another order and with repetitions. *)
Definition example_model_shuffled : DataModel :=
  fetched_model
    (catalog [object_type "ip"; object_type "host"; object_type "ip"])
    (catalog [fact_type "hasAttribute" [binding "host" None false];
              fact_type "resolvesTo" [binding "host" (Some "ip") false];
              fact_type "hasAttribute" [binding "host" None false]]).

(** A world before anything has happened, without [cache.dat]. *)
Definition fresh_world : world := {| trace := []; cache_dat := None |}.

(** What handing a finished graph to the sinks leaves in the trace: the
    source dump, when [--dump_source] names a directory, and the rendering. *)
Definition hand_over (args : Namespace) (file filename : string) (dot : Digraph)
    : list event :=
  match dump_source args with
  | Some dir =>
      if truthy_str (Some dir)
      then [EvOpen (os_path_join dir file) "w";
            EvWriteSource (os_path_join dir file) dot]
      else []
  | None => []
  end ++ [EvRender filename "png" "cairo" dot].

(** The request [load] sends for a catalog URL. *)
Definition request_for (self : DataModel) (url : string) : request :=
  {| req_url := url;
     req_auth := if truthy_str (username self)
                 then Some (username self, password self) else None;
     req_headers := [("ACT-User-ID", pretty (user_id self));
                     ("Accept", "application/json")];
     req_verify := verify self |}.

(** A fact-type catalog entry and an object-type catalog written down by
    their content: a fact is its name and its bindings, a binding is its
    source name, its destination name if it has one, and its flag. *)
Definition fact_entry_of (f : string * list (string * option string * bool))
    : pyval :=
  fact_type (fst f) (map (fun b => binding (fst (fst b)) (snd (fst b)) (snd b)) (snd f)).

Definition tuples_of (f : string * list (string * option string * bool))
    : list fact_tuple :=
  map (fun b => (PStr (fst f), PStr (fst (fst b)),
                 match snd (fst b) with Some d => PStr d | None => PNone end,
                 PBool (snd b)))
      (snd f).

(** Both views of a model materialise. *)
Definition materialises (self : DataModel) : Prop :=
  is_Some (produced_set py_hash (objects self)) ∧
  is_Some (produced_set hash_tuple (facts self)).

Definition is_edge (c : dot_call) : bool :=
  match c with
  | DotEdge _ _ _ _ => true
  | DotNode _ _ _ => false
  end.

(** A graph in which every edge joins two nodes declared before it, and in
    which every node is labelled with its own name. *)
Definition endpoints_declared (calls : list dot_call) : Prop :=
  ∀ pre tail head label dir post,
    calls = pre ++ DotEdge tail head label dir :: post →
    (∃ shape, DotNode tail tail shape ∈ pre) ∧
    (∃ shape, DotNode head head shape ∈ pre).

Definition labelled_by_name (calls : list dot_call) : Prop :=
  ∀ name label shape, DotNode name label shape ∈ calls → label = name.

(** The number of edges among the calls of a graph. *)
Definition edges (calls : list dot_call) : nat :=
  length (filter (fun c => is_edge c = true) calls).

(** What each loop adds to its graph for a tuple of [facts], and the tuples
    each loop takes without the sink raising: those it does not draw, and
    those it draws whose names are strings (the label of an edge may also
    be [None]). *)
Definition double_calls (t : fact_tuple) : list dot_call :=
  let '(name, s, d, di) := t in
  if py_eq_str name "mentions" || negb (truthy d) then []
  else [DotNode s s None; DotNode d d None;
        DotEdge s d (Some name) (if truthy di then Some "both" else None)].

Definition double_takes (t : fact_tuple) : bool :=
  let '(name, s, d, di) := t in
  py_eq_str name "mentions" || negb (truthy d) ||
  (is_str s && is_str d && is_str_or_None name).

Definition single_calls (t : fact_tuple) : list dot_call :=
  let '(name, s, d, di) := t in
  if truthy d then []
  else [DotNode name name (Some "diamond"); DotNode s s None;
        DotEdge s name None None].

Definition single_takes (t : fact_tuple) : bool :=
  let '(name, s, d, di) := t in
  truthy d || (is_str name && is_str s).

Definition complete_calls (t : fact_tuple) : list dot_call :=
  let '(name, s, d, di) := t in
  if negb (truthy d) then []
  else [DotNode s s None; DotNode d d None;
        DotEdge s d (Some name) (if truthy di then Some "both" else None)].

Definition complete_takes (t : fact_tuple) : bool :=
  let '(name, s, d, di) := t in
  negb (truthy d) || (is_str s && is_str d && is_str_or_None name).

(** What an event belongs to: the fetch, the console, the snapshot file,
    the graphs and their rendering, the source dumps, or the upload. *)
Inductive event_kind : Type :=
| KFetch | KPrint | KSnapshot | KGraph | KDump | KUpload.

Definition kind_of (e : event) : event_kind :=
  match e with
  | EvGet _ => KFetch
  | EvPrint _ => KPrint
  | EvOpen _ mode => if String.eqb mode "w" then KDump else KSnapshot
  | EvPickleLoad | EvPickleDump _ => KSnapshot
  | EvDigraph _ | EvRender _ _ _ _ => KGraph
  | EvWriteSource _ _ => KDump
  | EvEnvironPop _ | EvConfluence _ _ _ _ | EvAttachFile _ _ _ => KUpload
  end.

(** A computation that, from any world, adds only events satisfying [P]. *)
Definition only (P : event → Prop) {A} (c : M A) : Prop :=
  ∀ w, ∃ r es cd,
    c w = (r, {| trace := trace w ++ es; cache_dat := cd |}) ∧ Forall P es.

(** More data for the examples: a transport that serves the example
    catalogs, the model [run] builds before and after fetching them, and a
    fact catalog whose only entry lacks its bindings. *)
Definition example_served : request → response :=
  example_get (mkResponse 200 (Some (_objects example_model)))
    (mkResponse 200 (Some (_facts example_model))).

Definition example_unloaded : DataModel :=
  {| objects_url := "https://act.example/v1/objectType";
     facts_url := "https://act.example/v1/factType";
     username := None; password := None; user_id := 1;
     status := None; _objects := PNone; _facts := PNone;
     verify := VerifyCacert None |}.

Definition example_loaded : DataModel :=
  {| objects_url := "https://act.example/v1/objectType";
     facts_url := "https://act.example/v1/factType";
     username := None; password := None; user_id := 1;
     status := Some 200;
     _objects := _objects example_model; _facts := _facts example_model;
     verify := VerifyCacert None |}.

Definition example_broken_facts : pyval :=
  catalog [PDict [("name", PStr "resolvesTo")]].

(** A binding written down by the source name and the destination type as
    the payload gives them, for catalogs that are not of the documented
    shape. *)
Definition binding_of (src dst : pyval) (bidirectional : bool) : pyval :=
  PDict [("sourceObjectType", PDict [("name", src)]);
         ("destinationObjectType", dst);
         ("bidirectionalBinding", PBool bidirectional)].

(** Catalogs for the examples of the graphs: one with a binary fact, a
    "mentions" fact and a unary fact; one whose only binding has a
    destination type with an empty name; and two whose only binding has a
    null source name, with and without destination. *)
Definition example_drawing : DataModel :=
  fetched_model
    (catalog [object_type "host"; object_type "ip"; object_type "report"])
    (catalog [fact_type "resolvesTo" [binding "host" (Some "ip") false];
              fact_type "mentions" [binding "report" (Some "ip") true];
              fact_type "hasAttribute" [binding "host" None false]]).

Definition example_empty_destination_name : DataModel :=
  fetched_model
    (catalog [object_type "host"])
    (catalog [fact_type "alias" [binding "host" (Some "") false]]).

Definition example_null_source : DataModel :=
  fetched_model
    (catalog [object_type "host"])
    (catalog [fact_type "resolvesTo" [binding_of PNone (object_type "ip") false]]).

Definition example_null_source_unary : DataModel :=
  fetched_model
    (catalog [object_type "host"])
    (catalog [fact_type "hasAttribute" [binding_of PNone PNone false]]).

Definition example_null_object_name : DataModel :=
  fetched_model
    (catalog [object_type "host"; PDict [("name", PNone)]])
    (catalog [fact_type "resolvesTo" [binding "host" (Some "ip") false]]).

Definition example_served_null_source : request → response :=
  example_get (mkResponse 200 (Some (_objects example_null_source)))
    (mkResponse 200 (Some (_facts example_null_source))).

(** A fact catalog with an entry that can be drawn, a null entry, and an
    entry that lacks its bindings. *)
Definition example_half_broken_facts : pyval :=
  catalog [fact_type "resolvesTo" [binding "host" (Some "ip") false];
           PNone;
           PDict [("name", PStr "hasAttribute")]].

Definition example_served_half_broken : request → response :=
  example_get (mkResponse 200 (Some (_objects example_model)))
    (mkResponse 200 (Some example_half_broken_facts)).

Definition example_served_broken : request → response :=
  example_get (mkResponse 200 (Some (_objects example_model)))
    (mkResponse 200 (Some example_broken_facts)).

Definition empty_graph (comment : string) : Digraph :=
  {| comment := comment; body := [] |}.

(** Parameters for the examples of the origin client. Trust is counted in
    thousandths, and [float] is taken on the plain decimal numerals, signed
    or not, with at most three fraction digits (["1"], ["0.8"], ["2.0"],
    [".5"], ["1."], ["-1"]); a string with any other character is not a
    number, and the examples use no other form that [float] accepts. *)
Definition digit_of (c : ascii) : option Z :=
  let n := Z.of_nat (nat_of_ascii c) in
  if Z.leb 48 n && Z.leb n 57 then Some (n - 48) else None.

Fixpoint digits (s : string) (acc : Z) : option Z :=
  match s with
  | EmptyString => Some acc
  | String c rest =>
      match digit_of c with
      | Some d => digits rest (10 * acc + d)
      | None => None
      end
  end.

(** The text before the first point, and the text after it if there is
    one. *)
Fixpoint split_point (s : string) : string * option string :=
  match s with
  | EmptyString => (EmptyString, None)
  | String c rest =>
      if Ascii.eqb c "."%char then (EmptyString, Some rest)
      else let '(a, b) := split_point rest in (String c a, b)
  end.

Definition unsigned_float (s : string) : option Z :=
  let '(whole, fraction) := split_point s in
  let fraction := default EmptyString fraction in
  let n := String.length fraction in
  if Nat.eqb (String.length whole + n) 0 then None
  else if Nat.ltb 3 n then None
  else
    match digits whole 0, digits fraction 0 with
    | Some a, Some b => Some (1000 * a + b * 10 ^ Z.of_nat (3 - n))
    | _, _ => None
    end.

Definition example_float (s : string) : option Z :=
  match s with
  | String "-"%char rest => Z.opp <$> unsigned_float rest
  | String "+"%char rest => unsigned_float rest
  | _ => unsigned_float s
  end.

Definition example_in_unit_interval (x : Z) : bool :=
  Z.leb 0 x && Z.leb x 1000.

Definition example_uuid_match (s : string) : bool :=
  String.eqb s "123e4567-e89b-12d3-a456-426614174000".

Definition example_origin_add (p : Origin.params Z) : option string := None.

Definition example_origins : list string + string := inl ["origin one"; "origin two"].

Definition example_origin_rejected (p : Origin.params Z) : option string :=
  Some "403 Forbidden".

(** The tuples of a concrete catalog, one by one: a tuple is either not
    drawn or accepted. *)
Ltac drawn_tuples_are_accepted :=
  repeat (constructor;
          [let H := fresh in
           intros H; first [reflexivity | vm_compute in H; discriminate H] |]);
  constructor.

(** ** Basic facts about the state monad and the consumers *)

Lemma add_trace_nil w : add_trace [] w = w.
Proof. destruct w; unfold add_trace; simpl. by rewrite app_nil_r. Qed.

Lemma add_trace_app es1 es2 w :
  add_trace es2 (add_trace es1 w) = add_trace (es1 ++ es2) w.
Proof. unfold add_trace; simpl. by rewrite app_assoc. Qed.

Lemma bind_ok {A B} (m : M A) (f : A → M B) w a w' :
  m w = (Ok a, w') → (m ≫= f) w = f a w'.
Proof. intros Hm. unfold mbind, M_bind. by rewrite Hm. Qed.

Lemma bind_raise {A B} (m : M A) (f : A → M B) w e w' :
  m w = (Raise e, w') → (m ≫= f) w = (Raise e, w').
Proof. intros Hm. unfold mbind, M_bind. by rewrite Hm. Qed.

Lemma for_each_total {A S} (g : gen A) (f : A → S → result S) acc :
  ∃ r prints, ∀ w, for_each g f acc w = (r, add_trace (map EvPrint prints) w).
Proof.
  revert acc. induction g as [| e | args k IH | a k IH]; intros acc; simpl.
  - exists (Ok acc), []. intros w. by rewrite add_trace_nil.
  - exists (Raise e), []. intros w. by rewrite add_trace_nil.
  - destruct (IH acc) as (r & prints & Hk). exists r, (args :: prints).
    intros w. erewrite bind_ok by reflexivity. rewrite Hk, add_trace_app. done.
  - destruct (f a acc) as [acc' | e].
    + destruct (IH acc') as (r & prints & Hk). exists r, prints.
      intros w. erewrite bind_ok by reflexivity. apply Hk.
    + exists (Raise e), []. intros w.
      erewrite bind_raise by reflexivity. by rewrite add_trace_nil.
Qed.

(** A loop whose body, on every element handed over, only appends calls to
    the graph: over the whole sequence it appends the calls of every element
    in order, and it ends as the generator ends. *)
Lemma for_each_appends {A} (g : gen A) (f : A → Digraph → result Digraph)
    (calls : A → list dot_call) dot w :
  Forall (fun a => ∀ dot, f a dot =
            Ok {| comment := comment dot; body := body dot ++ calls a |})
    (yields g) →
  for_each g f dot w =
    (match raised g with
     | None => Ok {| comment := comment dot;
                     body := body dot ++ flat_map calls (yields g) |}
     | Some e => Raise e
     end,
     add_trace (map EvPrint (printed g)) w).
Proof.
  revert dot w. induction g as [| e | args k IH | a k IH]; intros dot w Hf; simpl.
  - rewrite add_trace_nil, app_nil_r. by destruct dot.
  - by rewrite add_trace_nil.
  - erewrite bind_ok by reflexivity. rewrite IH by done. by rewrite add_trace_app.
  - simpl in Hf. apply Forall_cons in Hf as [Ha Hk].
    erewrite bind_ok by (unfold lift; rewrite Ha; reflexivity).
    rewrite IH by done. simpl. by rewrite <- app_assoc.
Qed.

(** A loop whose body raises on an element the generator hands over ends
    by raising, whatever comes after that element. *)
Lemma for_each_rejects {A S} (g : gen A) (f : A → S → result S) a e :
  a ∈ yields g →
  (∀ acc, f a acc = Raise e) →
  (∀ a' acc e', f a' acc = Raise e' → e' = e) →
  ∀ acc, ∃ prints,
    ∀ w, for_each g f acc w = (Raise e, add_trace (map EvPrint prints) w).
Proof.
  intros Hin Ha He.
  induction g as [| e0 | args k IH | a0 k IH]; intros acc; simpl in *.
  - by apply elem_of_nil in Hin.
  - by apply elem_of_nil in Hin.
  - destruct (IH Hin acc) as (prints & Hk). exists (args :: prints).
    intros w. erewrite bind_ok by reflexivity. by rewrite Hk, add_trace_app.
  - destruct (f a0 acc) as [acc' | e'] eqn:Hf.
    + apply elem_of_cons in Hin as [-> | Hin]; [by rewrite Ha in Hf |].
      destruct (IH Hin acc') as (prints & Hk). exists prints.
      intros w. erewrite bind_ok by reflexivity.
      apply Hk.
    + apply He in Hf as Heq. subst e'. exists []. intros w.
      erewrite bind_raise by reflexivity.
      by rewrite add_trace_nil.
Qed.

Lemma for_each_invariant {A S} (g : gen A) (f : A → S → result S)
    (I : S → Prop) acc w acc' :
  (∀ a x x', I x → f a x = Ok x' → I x') →
  I acc → fst (for_each g f acc w) = Ok acc' → I acc'.
Proof.
  intros Hstep. revert acc w.
  induction g as [| e | args k IH | a k IH]; intros acc w HI; simpl.
  - by intros [= <-].
  - discriminate.
  - erewrite bind_ok by reflexivity. by apply IH.
  - destruct (f a acc) as [x' | e] eqn:Hf.
    + erewrite bind_ok by reflexivity.
      apply IH. by eapply Hstep.
    + erewrite bind_raise by reflexivity. discriminate.
Qed.

Lemma py_set_ok `{Countable K} {A} (hash : A → result K) (g : gen A) acc w ks :
  raised g = None →
  hash_all hash (yields g) = Ok ks →
  py_set hash g acc w =
    (Ok (list_to_set ks ∪ acc), add_trace (map EvPrint (printed g)) w).
Proof.
  revert acc w ks.
  induction g as [| e | args k IH | a k IH]; intros acc w ks Hr Hh; simpl in *.
  - injection Hh as <-. rewrite add_trace_nil.
    replace (list_to_set [] ∪ acc) with acc by set_solver. done.
  - discriminate.
  - erewrite bind_ok by reflexivity.
    rewrite (IH _ _ ks Hr Hh), add_trace_app. done.
  - destruct (hash a) as [h | e] eqn:Ha; [| discriminate]. simpl in Hh.
    destruct (hash_all hash (yields k)) as [hs | e] eqn:Hk; [| discriminate].
    injection Hh as <-.
    erewrite bind_ok by (unfold lift; reflexivity).
    rewrite (IH _ _ hs Hr eq_refl).
    replace (list_to_set hs ∪ ({[h]} ∪ acc)) with (list_to_set (h :: hs) ∪ acc)
      by set_solver.
    done.
Qed.

Lemma py_set_produced `{Countable K} {A} (hash : A → result K) (g : gen A) w X :
  produced_set hash g = Some X →
  py_set hash g ∅ w = (Ok X, add_trace (map EvPrint (printed g)) w).
Proof.
  unfold produced_set. intros Hp.
  destruct (raised g) eqn:Hr; [discriminate |].
  destruct (hash_all hash (yields g)) as [ks | e] eqn:Hh; [| discriminate].
  injection Hp as <-. rewrite (py_set_ok hash g ∅ w ks Hr Hh).
  replace (list_to_set ks ∪ ∅) with (list_to_set ks : gset K) by set_solver.
  done.
Qed.

(** The verdict of [__eq__] when all four views materialise, and what the
    comparison prints on the way. *)
Lemma eq_spec (a b : DataModel) oa ob fa fb w :
  produced_set py_hash (objects a) = Some oa →
  produced_set py_hash (objects b) = Some ob →
  produced_set hash_tuple (facts a) = Some fa →
  produced_set hash_tuple (facts b) = Some fb →
  __eq__ a b w =
    (Ok (bool_decide (oa = ob ∧ fa = fb)),
     add_trace (map EvPrint
       (printed (objects a) ++ printed (objects b) ++
        (if bool_decide (oa = ob)
         then printed (facts a) ++ printed (facts b) else []))) w).
Proof.
  intros Hoa Hob Hfa Hfb. unfold __eq__.
  erewrite bind_ok by (apply py_set_produced, Hoa).
  erewrite bind_ok by (apply py_set_produced, Hob).
  rewrite add_trace_app.
  destruct (bool_decide_reflect (oa = ob)) as [Heq | Hne].
  - erewrite bind_ok by (apply py_set_produced, Hfa).
    erewrite bind_ok by (apply py_set_produced, Hfb).
    rewrite !add_trace_app. unfold mret, M_ret.
    rewrite !map_app, !app_assoc. f_equal. f_equal.
    apply bool_decide_ext. tauto.
  - unfold mret, M_ret. rewrite app_nil_r, map_app. f_equal. f_equal.
    symmetry. apply bool_decide_eq_false. tauto.
Qed.

(** ** The three graphs *)

Lemma dump_spec args file filename dot w :
  (dump args file dot ≫= fun _ => render filename "png" "cairo" dot) w =
    (Ok (), add_trace (hand_over args file filename dot) w).
Proof.
  unfold dump, hand_over, render, write_source.
  destruct (dump_source args) as [dir |]; simpl.
  - destruct (negb (String.eqb dir "")); simpl.
    + unfold mbind, M_bind, emit. by rewrite !add_trace_app.
    + reflexivity.
  - reflexivity.
Qed.

Lemma node_spec name shape dot :
  node name name shape dot =
    if is_str name
    then Ok {| comment := comment dot;
               body := body dot ++ [DotNode name name shape] |}
    else Raise TypeError.
Proof. unfold node. by destruct name. Qed.

Lemma double_body_spec name s d di dot :
  double_body (name, s, d, di) dot =
    if py_eq_str name "mentions" || negb (truthy d) then Ok dot
    else if is_str s && is_str d && is_str_or_None name
    then Ok {| comment := comment dot;
               body := body dot ++
                 [DotNode s s None; DotNode d d None;
                  DotEdge s d (Some name)
                    (if truthy di then Some "both" else None)] |}
    else Raise TypeError.
Proof.
  unfold double_body.
  destruct (py_eq_str name "mentions"); [done |].
  destruct (negb (truthy d)); [done |]. simpl orb. cbv iota.
  rewrite node_spec. destruct (is_str s) eqn:Hs; [| done]. simpl.
  rewrite node_spec. destruct (is_str d) eqn:Hd; [| done]. simpl.
  unfold edge. rewrite Hs, Hd. simpl.
  destruct (is_str_or_None name), (truthy di); simpl; try done;
    by rewrite <- !app_assoc.
Qed.

Lemma single_body_spec name s d di dot :
  single_body (name, s, d, di) dot =
    if truthy d then Ok dot
    else if is_str name && is_str s
    then Ok {| comment := comment dot;
               body := body dot ++
                 [DotNode name name (Some "diamond"); DotNode s s None;
                  DotEdge s name None None] |}
    else Raise TypeError.
Proof.
  unfold single_body.
  destruct (truthy d); [done |].
  rewrite node_spec. destruct (is_str name) eqn:Hn; [| done]. simpl.
  rewrite node_spec. destruct (is_str s) eqn:Hs; [| done]. simpl.
  unfold edge. rewrite Hs, Hn. simpl. by rewrite <- !app_assoc.
Qed.

Lemma complete_body_spec name s d di dot :
  complete_body (name, s, d, di) dot =
    if negb (truthy d) then Ok dot
    else if is_str s && is_str d && is_str_or_None name
    then Ok {| comment := comment dot;
               body := body dot ++
                 [DotNode s s None; DotNode d d None;
                  DotEdge s d (Some name)
                    (if truthy di then Some "both" else None)] |}
    else Raise TypeError.
Proof.
  unfold complete_body.
  destruct (negb (truthy d)); [done |].
  rewrite node_spec. destruct (is_str s) eqn:Hs; [| done]. simpl.
  rewrite node_spec. destruct (is_str d) eqn:Hd; [| done]. simpl.
  unfold edge. rewrite Hs, Hd. simpl.
  destruct (is_str_or_None name), (truthy di); simpl; try done;
    by rewrite <- !app_assoc.
Qed.

(** The sink raises nothing but [TypeError] in the loops: the two ends of
    an edge have been declared as nodes before the edge is added. *)
Lemma double_body_raises t dot e : double_body t dot = Raise e → e = TypeError.
Proof.
  destruct t as [[[name s] d] di]. rewrite double_body_spec.
  destruct (_ || _); [discriminate |]. destruct (_ && _); congruence.
Qed.

Lemma single_body_raises t dot e : single_body t dot = Raise e → e = TypeError.
Proof.
  destruct t as [[[name s] d] di]. rewrite single_body_spec.
  destruct (truthy d); [discriminate |]. destruct (_ && _); congruence.
Qed.

Lemma complete_body_raises t dot e : complete_body t dot = Raise e → e = TypeError.
Proof.
  destruct t as [[[name s] d] di]. rewrite complete_body_spec.
  destruct (negb _); [discriminate |]. destruct (_ && _); congruence.
Qed.

Lemma object_body_raises obj dot e : object_body obj dot = Raise e → e = TypeError.
Proof.
  unfold object_body. rewrite node_spec. destruct (is_str obj); congruence.
Qed.

Lemma double_body_takes t dot :
  double_takes t = true →
  double_body t dot =
    Ok {| comment := comment dot; body := body dot ++ double_calls t |}.
Proof.
  destruct t as [[[name s] d] di]. unfold double_takes, double_calls.
  rewrite double_body_spec.
  destruct (py_eq_str name "mentions" || negb (truthy d)); simpl.
  - intros _. rewrite app_nil_r. by destruct dot.
  - by intros ->.
Qed.

Lemma single_body_takes t dot :
  single_takes t = true →
  single_body t dot =
    Ok {| comment := comment dot; body := body dot ++ single_calls t |}.
Proof.
  destruct t as [[[name s] d] di]. unfold single_takes, single_calls.
  rewrite single_body_spec.
  destruct (truthy d); simpl.
  - intros _. rewrite app_nil_r. by destruct dot.
  - by intros ->.
Qed.

Lemma complete_body_takes t dot :
  complete_takes t = true →
  complete_body t dot =
    Ok {| comment := comment dot; body := body dot ++ complete_calls t |}.
Proof.
  destruct t as [[[name s] d] di]. unfold complete_takes, complete_calls.
  rewrite complete_body_spec.
  destruct (negb (truthy d)); simpl.
  - intros _. rewrite app_nil_r. by destruct dot.
  - by intros ->.
Qed.

Lemma object_body_takes obj dot :
  is_str obj = true →
  object_body obj dot =
    Ok {| comment := comment dot; body := body dot ++ [DotNode obj obj None] |}.
Proof. intros Hs. unfold object_body. by rewrite node_spec, Hs. Qed.

Lemma complete_takes_double t : complete_takes t = true → double_takes t = true.
Proof.
  destruct t as [[[name s] d] di]. unfold complete_takes, double_takes.
  destruct (py_eq_str name "mentions"), (negb (truthy d)); simpl; done.
Qed.

(** What a loop returns when it returns: the graph it was given followed by
    the calls of every tuple. *)
Lemma for_each_appends_inv {A} (g : gen A) (f : A → Digraph → result Digraph)
    (calls : A → list dot_call) dot w dot' :
  (∀ a x x', f a x = Ok x' →
             x' = {| comment := comment x; body := body x ++ calls a |}) →
  fst (for_each g f dot w) = Ok dot' →
  dot' = {| comment := comment dot; body := body dot ++ flat_map calls (yields g) |}.
Proof.
  intros Hf. revert dot w.
  induction g as [| e | args k IH | a k IH]; intros dot w; simpl.
  - intros [= <-]. rewrite app_nil_r. by destruct dot.
  - discriminate.
  - erewrite bind_ok by reflexivity. apply IH.
  - destruct (f a dot) as [x' | e] eqn:Ha.
    + erewrite bind_ok by reflexivity. intros ->%IH.
      apply Hf in Ha as ->. simpl. by rewrite <- app_assoc.
    + erewrite bind_raise by reflexivity. discriminate.
Qed.

Lemma double_body_inv t x x' :
  double_body t x = Ok x' →
  x' = {| comment := comment x; body := body x ++ double_calls t |}.
Proof.
  destruct t as [[[name s] d] di]. rewrite double_body_spec. unfold double_calls.
  destruct (_ || _).
  - intros [= <-]. rewrite app_nil_r. by destruct x.
  - destruct (_ && _); [| discriminate]. by intros [= <-].
Qed.

Lemma single_body_inv t x x' :
  single_body t x = Ok x' →
  x' = {| comment := comment x; body := body x ++ single_calls t |}.
Proof.
  destruct t as [[[name s] d] di]. rewrite single_body_spec. unfold single_calls.
  destruct (truthy d).
  - intros [= <-]. rewrite app_nil_r. by destruct x.
  - destruct (_ && _); [| discriminate]. by intros [= <-].
Qed.

Lemma complete_body_inv t x x' :
  complete_body t x = Ok x' →
  x' = {| comment := comment x; body := body x ++ complete_calls t |}.
Proof.
  destruct t as [[[name s] d] di]. rewrite complete_body_spec.
  unfold complete_calls.
  destruct (negb _).
  - intros [= <-]. rewrite app_nil_r. by destruct x.
  - destruct (_ && _); [| discriminate]. by intros [= <-].
Qed.

Lemma object_body_inv obj x x' :
  object_body obj x = Ok x' →
  x' = {| comment := comment x; body := body x ++ [DotNode obj obj None] |}.
Proof.
  unfold object_body. rewrite node_spec.
  destruct (is_str obj); [| discriminate]. by intros [= <-].
Qed.

(** C5, as the code has it. The double-edge loop draws a tuple of [facts]
    when its fact name is not "mentions" and its third component, the
    destination name, is true: a binding without destination type is not
    drawn, and neither is one whose destination type has an empty name. A
    tuple that is drawn needs a string as source name and as destination
    name, and a string or [None] as fact name: then the loop declares a node
    for the source and one for the destination, each labelled with its own
    name, and adds one edge from source to destination labelled with the
    fact name, with [dir="both"] when the bidirectional flag is true and no
    [dir] (a forward edge) otherwise; on any other drawn tuple the sink
    raises [TypeError].
    So, when every drawn tuple has such names, the graph is handed to the
    sinks holding the calls of the drawn tuples in order, or, when [facts]
    raises, that exception leaves the function and nothing is handed over;
    and when some drawn tuple has not, [TypeError] leaves the function and
    nothing is handed over. *)
Theorem double_graph_spec (args : Namespace) (dm : DataModel) (w : world) :
  let drawn := fun t : fact_tuple =>
    let '(name, s, d, di) := t in
    negb (py_eq_str name "mentions") && truthy d in
  let accepted := fun t : fact_tuple =>
    let '(name, s, d, di) := t in
    is_str s && is_str d && is_str_or_None name in
  let calls := fun t : fact_tuple =>
    let '(name, s, d, di) := t in
    [DotNode s s None; DotNode d d None;
     DotEdge s d (Some name) (if truthy di then Some "both" else None)] in
  (∀ t dot,
     double_body t dot =
       if negb (drawn t) then Ok dot
       else if accepted t
       then Ok {| comment := comment dot; body := body dot ++ calls t |}
       else Raise TypeError) ∧
  (Forall (fun t => drawn t = true → accepted t = true) (yields (facts dm)) →
   double_graph args dm w =
     match raised (facts dm) with
     | None =>
         (Ok (),
          add_trace
            ([EvDigraph "Double edge facts"] ++
             map EvPrint (printed (facts dm)) ++
             hand_over args "double.dot" "output/double"
               {| comment := "Double edge facts";
                  body := flat_map (fun t => if drawn t then calls t else [])
                            (yields (facts dm)) |}) w)
     | Some e =>
         (Raise e,
          add_trace
            ([EvDigraph "Double edge facts"] ++
             map EvPrint (printed (facts dm))) w)
     end) ∧
  (∀ t, t ∈ yields (facts dm) → drawn t = true → accepted t = false →
   ∃ prints,
     double_graph args dm w =
       (Raise TypeError,
        add_trace ([EvDigraph "Double edge facts"] ++ map EvPrint prints) w)).
Proof.
  intros drawn accepted calls.
  assert (Hbody : ∀ t dot,
            double_body t dot =
              if negb (drawn t) then Ok dot
              else if accepted t
              then Ok {| comment := comment dot; body := body dot ++ calls t |}
              else Raise TypeError).
  { intros [[[name s] d] di] dot. rewrite double_body_spec. unfold drawn.
    by destruct (py_eq_str name "mentions"), (truthy d). }
  split; [exact Hbody |].
  unfold double_graph, new_Digraph.
  erewrite bind_ok by (erewrite bind_ok by reflexivity; reflexivity).
  split.
  - intros Hall.
    assert (Hloop : Forall (fun t => ∀ dot, double_body t dot =
                      Ok {| comment := comment dot;
                            body := body dot ++ (if drawn t then calls t else []) |})
                      (yields (facts dm))).
    { eapply Forall_impl; [exact Hall |]. intros t Ht dot. rewrite Hbody.
      destruct (drawn t) eqn:Hd; simpl.
      - by rewrite (Ht Hd).
      - rewrite app_nil_r. by destruct dot. }
    destruct (raised (facts dm)) as [e |] eqn:Hr.
    + erewrite bind_raise
        by (rewrite (for_each_appends _ _ _ _ _ Hloop), Hr; reflexivity).
      by rewrite add_trace_app.
    + erewrite bind_ok
        by (rewrite (for_each_appends _ _ _ _ _ Hloop), Hr; reflexivity).
      simpl body. simpl comment. rewrite dump_spec, !add_trace_app. done.
  - intros t Hin Hd Ha.
    destruct (for_each_rejects (facts dm) double_body t TypeError Hin)
      with (acc := {| comment := "Double edge facts"; body := [] |})
      as (prints & Hk).
    + intros dot. by rewrite Hbody, Hd, Ha.
    + intros t' dot e. apply double_body_raises.
    + exists prints. erewrite bind_raise by apply Hk. by rewrite add_trace_app.
Qed.

(** C5 as stated fails. A binding whose destination type is present but
    has an empty name is skipped: nothing is drawn for it. And a binding
    with a destination and a fact name other than "mentions" whose source
    name is null makes the sink raise [TypeError]: no node is declared, no
    edge is added and no graph is rendered. *)
Lemma double_graph_empty_name_or_null_source :
  (truthy (object_type "") = true ∧
   yields (facts example_empty_destination_name) =
     [(PStr "alias", PStr "host", PStr "", PBool false)] ∧
   double_graph example_args example_empty_destination_name fresh_world =
     (Ok (),
      add_trace
        [EvDigraph "Double edge facts";
         EvRender "output/double" "png" "cairo"
           {| comment := "Double edge facts"; body := [] |}]
        fresh_world)) ∧
  (yields (facts example_null_source) =
     [(PStr "resolvesTo", PNone, PStr "ip", PBool false)] ∧
   double_graph example_args example_null_source fresh_world =
     (Raise TypeError, add_trace [EvDigraph "Double edge facts"] fresh_world)).
Proof. by repeat split. Qed.


(** C6, as the code has it. The single-edge loop draws a tuple of [facts]
    when its third component, the destination name, is false: a binding
    without destination type is drawn, and so is one whose destination type
    has an empty name. A tuple that is drawn needs strings as fact name and
    as source name: then the loop declares a diamond-shaped node named
    after the fact and a node for the source type, each labelled with its
    own name, and adds one edge (no label, no [dir]: a forward edge) from
    the source-type node to the fact-name node; on any other drawn tuple the
    sink raises [TypeError].
    So, when every drawn tuple has such names, the graph is handed to the
    sinks holding the calls of the drawn tuples in order, or, when [facts]
    raises, that exception leaves the function and nothing is handed over;
    and when some drawn tuple has not, [TypeError] leaves the function and
    nothing is handed over. *)
Theorem single_graph_spec (args : Namespace) (dm : DataModel) (w : world) :
  let drawn := fun t : fact_tuple =>
    let '(name, s, d, di) := t in negb (truthy d) in
  let accepted := fun t : fact_tuple =>
    let '(name, s, d, di) := t in is_str name && is_str s in
  let calls := fun t : fact_tuple =>
    let '(name, s, d, di) := t in
    [DotNode name name (Some "diamond"); DotNode s s None;
     DotEdge s name None None] in
  (∀ t dot,
     single_body t dot =
       if negb (drawn t) then Ok dot
       else if accepted t
       then Ok {| comment := comment dot; body := body dot ++ calls t |}
       else Raise TypeError) ∧
  (Forall (fun t => drawn t = true → accepted t = true) (yields (facts dm)) →
   single_graph args dm w =
     match raised (facts dm) with
     | None =>
         (Ok (),
          add_trace
            ([EvDigraph "Single edge facts"] ++
             map EvPrint (printed (facts dm)) ++
             hand_over args "single.dot" "output/single"
               {| comment := "Single edge facts";
                  body := flat_map (fun t => if drawn t then calls t else [])
                            (yields (facts dm)) |}) w)
     | Some e =>
         (Raise e,
          add_trace
            ([EvDigraph "Single edge facts"] ++
             map EvPrint (printed (facts dm))) w)
     end) ∧
  (∀ t, t ∈ yields (facts dm) → drawn t = true → accepted t = false →
   ∃ prints,
     single_graph args dm w =
       (Raise TypeError,
        add_trace ([EvDigraph "Single edge facts"] ++ map EvPrint prints) w)).
Proof.
  intros drawn accepted calls.
  assert (Hbody : ∀ t dot,
            single_body t dot =
              if negb (drawn t) then Ok dot
              else if accepted t
              then Ok {| comment := comment dot; body := body dot ++ calls t |}
              else Raise TypeError).
  { intros [[[name s] d] di] dot. rewrite single_body_spec. unfold drawn.
    by destruct (truthy d). }
  split; [exact Hbody |].
  unfold single_graph, new_Digraph.
  erewrite bind_ok by (erewrite bind_ok by reflexivity; reflexivity).
  split.
  - intros Hall.
    assert (Hloop : Forall (fun t => ∀ dot, single_body t dot =
                      Ok {| comment := comment dot;
                            body := body dot ++ (if drawn t then calls t else []) |})
                      (yields (facts dm))).
    { eapply Forall_impl; [exact Hall |]. intros t Ht dot. rewrite Hbody.
      destruct (drawn t) eqn:Hd; simpl.
      - by rewrite (Ht Hd).
      - rewrite app_nil_r. by destruct dot. }
    destruct (raised (facts dm)) as [e |] eqn:Hr.
    + erewrite bind_raise
        by (rewrite (for_each_appends _ _ _ _ _ Hloop), Hr; reflexivity).
      by rewrite add_trace_app.
    + erewrite bind_ok
        by (rewrite (for_each_appends _ _ _ _ _ Hloop), Hr; reflexivity).
      simpl body. simpl comment. rewrite dump_spec, !add_trace_app. done.
  - intros t Hin Hd Ha.
    destruct (for_each_rejects (facts dm) single_body t TypeError Hin)
      with (acc := {| comment := "Single edge facts"; body := [] |})
      as (prints & Hk).
    + intros dot. by rewrite Hbody, Hd, Ha.
    + intros t' dot e. apply single_body_raises.
    + exists prints. erewrite bind_raise by apply Hk. by rewrite add_trace_app.
Qed.

(** C6 as stated fails. A binding whose destination type is present but
    has an empty name is not skipped: the diamond node, the source node and
    the edge are drawn for it. And a binding without destination type whose
    source name is null makes the sink raise [TypeError] after the diamond
    node has been declared: no graph is rendered. *)
Lemma single_graph_empty_name_or_null_source :
  (truthy (object_type "") = true ∧
   yields (facts example_empty_destination_name) =
     [(PStr "alias", PStr "host", PStr "", PBool false)] ∧
   single_graph example_args example_empty_destination_name fresh_world =
     (Ok (),
      add_trace
        [EvDigraph "Single edge facts";
         EvRender "output/single" "png" "cairo"
           {| comment := "Single edge facts";
              body := [DotNode (PStr "alias") (PStr "alias") (Some "diamond");
                       DotNode (PStr "host") (PStr "host") None;
                       DotEdge (PStr "host") (PStr "alias") None None] |}]
        fresh_world)) ∧
  (yields (facts example_null_source_unary) =
     [(PStr "hasAttribute", PNone, PNone, PBool false)] ∧
   single_graph example_args example_null_source_unary fresh_world =
     (Raise TypeError, add_trace [EvDigraph "Single edge facts"] fresh_world)).
Proof. by repeat split. Qed.


(** C7, as the code has it. The complete graph first declares one node per
    entry of [objects], in order, labelled with its own name; the sink
    raises [TypeError] on an entry that is not a string. Then the loop over
    [facts] draws a tuple when its third component, the destination name,
    is true, whatever the fact name ("mentions" included): a binding
    without destination type is not drawn, and neither is one whose
    destination type has an empty name. A tuple that is drawn needs a string
    as source name and as destination name, and a string or [None] as fact
    name: then the loop declares a node for the source and one for the
    destination and adds one edge from source to destination labelled with
    the fact name, with [dir="both"] when the bidirectional flag is true and
    no [dir] otherwise; on any other drawn tuple the sink raises
    [TypeError].
    So, when the entries of [objects] are strings and every drawn tuple has
    such names, the graph is handed to the sinks holding the nodes of the
    objects followed by the calls of the drawn tuples, or, when a view
    raises, that exception leaves the function and nothing is handed over;
    and when an entry or a drawn tuple is not as needed, [TypeError] leaves
    the function and nothing is handed over. *)
Theorem complete_graph_spec (args : Namespace) (dm : DataModel) (w : world) :
  let drawn := fun t : fact_tuple =>
    let '(name, s, d, di) := t in truthy d in
  let accepted := fun t : fact_tuple =>
    let '(name, s, d, di) := t in
    is_str s && is_str d && is_str_or_None name in
  let calls := fun t : fact_tuple =>
    let '(name, s, d, di) := t in
    [DotNode s s None; DotNode d d None;
     DotEdge s d (Some name) (if truthy di then Some "both" else None)] in
  (∀ obj dot,
     object_body obj dot =
       if is_str obj
       then Ok {| comment := comment dot;
                  body := body dot ++ [DotNode obj obj None] |}
       else Raise TypeError) ∧
  (∀ t dot,
     complete_body t dot =
       if negb (drawn t) then Ok dot
       else if accepted t
       then Ok {| comment := comment dot; body := body dot ++ calls t |}
       else Raise TypeError) ∧
  (Forall (fun obj => is_str obj = true) (yields (objects dm)) →
   Forall (fun t => drawn t = true → accepted t = true) (yields (facts dm)) →
   complete_graph args dm w =
     match raised (objects dm), raised (facts dm) with
     | None, None =>
         (Ok (),
          add_trace
            ([EvDigraph "All Double edge facts"] ++
             map EvPrint (printed (objects dm)) ++
             map EvPrint (printed (facts dm)) ++
             hand_over args "complete.dot" "output/complete"
               {| comment := "All Double edge facts";
                  body :=
                    flat_map (fun obj => [DotNode obj obj None])
                      (yields (objects dm)) ++
                    flat_map (fun t => if drawn t then calls t else [])
                      (yields (facts dm)) |}) w)
     | None, Some e =>
         (Raise e,
          add_trace
            ([EvDigraph "All Double edge facts"] ++
             map EvPrint (printed (objects dm)) ++
             map EvPrint (printed (facts dm))) w)
     | Some e, _ =>
         (Raise e,
          add_trace
            ([EvDigraph "All Double edge facts"] ++
             map EvPrint (printed (objects dm))) w)
     end) ∧
  (∀ obj, obj ∈ yields (objects dm) → is_str obj = false →
   ∃ prints,
     complete_graph args dm w =
       (Raise TypeError,
        add_trace ([EvDigraph "All Double edge facts"] ++ map EvPrint prints) w)) ∧
  (raised (objects dm) = None →
   Forall (fun obj => is_str obj = true) (yields (objects dm)) →
   ∀ t, t ∈ yields (facts dm) → drawn t = true → accepted t = false →
   ∃ prints,
     complete_graph args dm w =
       (Raise TypeError,
        add_trace ([EvDigraph "All Double edge facts"] ++ map EvPrint prints) w)).
Proof.
  intros drawn accepted calls.
  assert (Hobj : ∀ obj dot,
            object_body obj dot =
              if is_str obj
              then Ok {| comment := comment dot;
                         body := body dot ++ [DotNode obj obj None] |}
              else Raise TypeError).
  { intros obj dot. unfold object_body. apply node_spec. }
  assert (Hbody : ∀ t dot,
            complete_body t dot =
              if negb (drawn t) then Ok dot
              else if accepted t
              then Ok {| comment := comment dot; body := body dot ++ calls t |}
              else Raise TypeError).
  { intros [[[name s] d] di] dot. apply complete_body_spec. }
  split; [exact Hobj |]. split; [exact Hbody |].
  assert (Hobjects : Forall (fun obj => is_str obj = true) (yields (objects dm)) →
            Forall (fun obj => ∀ dot, object_body obj dot =
                      Ok {| comment := comment dot;
                            body := body dot ++ [DotNode obj obj None] |})
              (yields (objects dm))).
  { intros Hall. eapply Forall_impl; [exact Hall |]. intros obj Hs dot.
    cbv beta in Hs. by rewrite Hobj, Hs. }
  unfold complete_graph, new_Digraph.
  erewrite bind_ok by (erewrite bind_ok by reflexivity; reflexivity).
  split; [| split].
  - intros Hstr%Hobjects Hall.
    assert (Hloop : Forall (fun t => ∀ dot, complete_body t dot =
                      Ok {| comment := comment dot;
                            body := body dot ++ (if drawn t then calls t else []) |})
                      (yields (facts dm))).
    { eapply Forall_impl; [exact Hall |]. intros t Ht dot. rewrite Hbody.
      destruct (drawn t) eqn:Hd; simpl.
      - by rewrite (Ht Hd).
      - rewrite app_nil_r. by destruct dot. }
    destruct (raised (objects dm)) as [e |] eqn:Ho.
    { erewrite bind_raise
        by (rewrite (for_each_appends _ _ _ _ _ Hstr), Ho; reflexivity).
      by rewrite add_trace_app. }
    erewrite bind_ok
      by (rewrite (for_each_appends _ _ _ _ _ Hstr), Ho; reflexivity).
    destruct (raised (facts dm)) as [e |] eqn:Hr.
    + erewrite bind_raise
        by (rewrite (for_each_appends _ _ _ _ _ Hloop), Hr; reflexivity).
      by rewrite !add_trace_app.
    + erewrite bind_ok
        by (rewrite (for_each_appends _ _ _ _ _ Hloop), Hr; reflexivity).
      simpl body. simpl comment. rewrite dump_spec, !add_trace_app. done.
  - intros obj Hin Hs.
    destruct (for_each_rejects (objects dm) object_body obj TypeError Hin)
      with (acc := {| comment := "All Double edge facts"; body := [] |})
      as (prints & Hk).
    + intros dot. by rewrite Hobj, Hs.
    + intros o dot e. apply object_body_raises.
    + exists prints. erewrite bind_raise by apply Hk. by rewrite add_trace_app.
  - intros Ho Hstr%Hobjects t Hin Hd Ha.
    erewrite bind_ok
      by (rewrite (for_each_appends _ _ _ _ _ Hstr), Ho; reflexivity).
    match goal with |- context [for_each (facts dm) complete_body ?d] =>
      destruct (for_each_rejects (facts dm) complete_body t TypeError Hin)
        with (acc := d) as (prints & Hk)
    end.
    + intros dot. by rewrite Hbody, Hd, Ha.
    + intros t' dot e. apply complete_body_raises.
    + exists (printed (objects dm) ++ prints).
      erewrite bind_raise by apply Hk. by rewrite !add_trace_app, map_app.
Qed.

(** C7 as stated fails. A binding whose destination type is present but
    has an empty name adds no edge. An entry of [objects] that is not a
    string (a null name) makes the sink raise [TypeError] in the first
    loop, and so does, in the second loop, a binding with a destination
    whose source name is null: no graph is rendered. *)
Lemma complete_graph_empty_name_or_null_name :
  (truthy (object_type "") = true ∧
   yields (facts example_empty_destination_name) =
     [(PStr "alias", PStr "host", PStr "", PBool false)] ∧
   complete_graph example_args example_empty_destination_name fresh_world =
     (Ok (),
      add_trace
        [EvDigraph "All Double edge facts";
         EvRender "output/complete" "png" "cairo"
           {| comment := "All Double edge facts";
              body := [DotNode (PStr "host") (PStr "host") None] |}]
        fresh_world)) ∧
  (yields (objects example_null_object_name) = [PStr "host"; PNone] ∧
   complete_graph example_args example_null_object_name fresh_world =
     (Raise TypeError, add_trace [EvDigraph "All Double edge facts"] fresh_world)) ∧
  (yields (facts example_null_source) =
     [(PStr "resolvesTo", PNone, PStr "ip", PBool false)] ∧
   complete_graph example_args example_null_source fresh_world =
     (Raise TypeError, add_trace [EvDigraph "All Double edge facts"] fresh_world)).
Proof. by repeat split. Qed.


(** ** The fetch *)

Lemma load_get requests_get (self : DataModel) (u : string) w :
  (if truthy_str (username self)
   then get requests_get u (Some (username self, password self))
          [("ACT-User-ID", pretty (user_id self)); ("Accept", "application/json")]
          (verify self)
   else get requests_get u None
          [("ACT-User-ID", pretty (user_id self)); ("Accept", "application/json")]
          (verify self)) w =
    (Ok (requests_get (request_for self u)),
     add_trace [EvGet (request_for self u)] w).
Proof.
  unfold request_for, get. by destruct (truthy_str (username self)).
Qed.

(** Every way [load] can go, by the two responses. *)
Lemma load_spec requests_get (self : DataModel) (w : world) :
  let q1 := request_for self (objects_url self) in
  let q2 := request_for self (facts_url self) in
  let r1 := requests_get q1 in
  let r2 := requests_get q2 in
  load requests_get self w =
    if Z.eqb (status_code r1) 200 then
      match json r1 with
      | None => (Raise JSONDecodeError, add_trace [EvGet q1] w)
      | Some v1 =>
          if Z.eqb (status_code r2) 200 then
            match json r2 with
            | None => (Raise JSONDecodeError, add_trace [EvGet q1; EvGet q2] w)
            | Some v2 =>
                (Ok (with_status (with_facts (with_objects self v1) v2) 200),
                 add_trace [EvGet q1; EvGet q2] w)
            end
          else
            (Ok (poisoned (with_objects self v1) (status_code r2)),
             add_trace [EvGet q1; EvGet q2] w)
      end
    else (Ok (poisoned self (status_code r1)), add_trace [EvGet q1] w).
Proof.
  intros q1 q2 r1 r2. unfold load.
  erewrite bind_ok by apply load_get. fold q1 r1.
  destruct (Z.eqb (status_code r1) 200) eqn:H1; [| reflexivity].
  destruct (json r1) as [v1 |] eqn:Hj1.
  2: { erewrite bind_raise by (unfold r_json; rewrite Hj1; reflexivity). done. }
  erewrite bind_ok by (unfold r_json; rewrite Hj1; reflexivity).
  erewrite bind_ok by apply (load_get requests_get (with_objects self v1)).
  change (request_for (with_objects self v1) (facts_url (with_objects self v1)))
    with q2.
  fold r2. rewrite add_trace_app.
  destruct (Z.eqb (status_code r2) 200) eqn:H2; [| reflexivity].
  destruct (json r2) as [v2 |] eqn:Hj2.
  2: { erewrite bind_raise by (unfold r_json; rewrite Hj2; reflexivity). done. }
  erewrite bind_ok by (unfold r_json; rewrite Hj2; reflexivity).
  apply Z.eqb_eq in H2. rewrite H2. reflexivity.
Qed.

(** C2. Whenever a catalog retrieval answers with a status other than 200,
    [load] returns normally with both payloads [None] and [status] the
    status of the failing call, having sent nothing after the failing
    request; from then on [objects] and [facts] stop at once. This covers
    the object-type call failing (one request sent) and the fact-type call
    failing after the object-type call succeeded (two requests sent). *)
Theorem load_failure_poisons requests_get (self : DataModel) (w : world) :
  let q1 := request_for self (objects_url self) in
  let q2 := request_for self (facts_url self) in
  let r1 := requests_get q1 in
  let r2 := requests_get q2 in
  (status_code r1 ≠ 200 →
   ∃ dm, load requests_get self w = (Ok dm, add_trace [EvGet q1] w) ∧
         _objects dm = PNone ∧ _facts dm = PNone ∧
         status dm = Some (status_code r1) ∧
         objects dm = GStop ∧ facts dm = GStop) ∧
  (∀ v1, status_code r1 = 200 → json r1 = Some v1 → status_code r2 ≠ 200 →
   ∃ dm, load requests_get self w = (Ok dm, add_trace [EvGet q1; EvGet q2] w) ∧
         _objects dm = PNone ∧ _facts dm = PNone ∧
         status dm = Some (status_code r2) ∧
         objects dm = GStop ∧ facts dm = GStop).
Proof.
  intros q1 q2 r1 r2. pose proof (load_spec requests_get self w) as Hl.
  cbv zeta in Hl. fold q1 q2 r1 r2 in Hl. split.
  - intros H1. apply Z.eqb_neq in H1. rewrite H1 in Hl.
    eexists. split; [exact Hl |]. by repeat split.
  - intros v1 H1 Hj H2. apply Z.eqb_eq in H1. apply Z.eqb_neq in H2.
    rewrite H1, Hj, H2 in Hl.
    eexists. split; [exact Hl |]. by repeat split.
Qed.

(** ** The run *)

Lemma status_poisoned self code : status (poisoned self code) = Some code.
Proof. reflexivity. Qed.

(** C3. When the fetch ends with a status other than 200, [run] sends the
    request(s) of the fetch, prints one line made of the timestamp and
    "Status code <status>", and returns: the trace holds nothing else (no
    open of [cache.dat] for reading or writing, no pickle load or dump, no
    graph, no rendering, no upload) and [cache.dat] is what it was. *)
Theorem run_fetch_failed urljoin requests_get (now : string)
    (args : Namespace) (w : world) :
  let dm0 := __init__ urljoin (url args) (http_username args)
               (http_password args) (uid args) (cacert args) in
  let q1 := request_for dm0 (objects_url dm0) in
  let q2 := request_for dm0 (facts_url dm0) in
  let r1 := requests_get q1 in
  let r2 := requests_get q2 in
  (status_code r1 ≠ 200 →
   run urljoin requests_get now args w =
     (Ok (),
      add_trace
        [EvGet q1;
         EvPrint [PStr (now +:+ " Status code " +:+ pretty (status_code r1))]]
        w)) ∧
  (∀ v1, status_code r1 = 200 → json r1 = Some v1 → status_code r2 ≠ 200 →
   run urljoin requests_get now args w =
     (Ok (),
      add_trace
        [EvGet q1; EvGet q2;
         EvPrint [PStr (now +:+ " Status code " +:+ pretty (status_code r2))]]
        w)).
Proof.
  intros dm0 q1 q2 r1 r2.
  pose proof (load_spec requests_get dm0 w) as Hl.
  cbv zeta in Hl. fold q1 q2 r1 r2 in Hl. split.
  - intros H1. unfold run. fold dm0.
    apply Z.eqb_neq in H1 as H1'. rewrite H1' in Hl.
    erewrite bind_ok by exact Hl. rewrite !status_poisoned.
    rewrite bool_decide_eq_false_2 by congruence. simpl.
    unfold print, emit. by rewrite add_trace_app.
  - intros v1 H1 Hj H2. unfold run. fold dm0.
    apply Z.eqb_eq in H1 as H1'. apply Z.eqb_neq in H2 as H2'.
    rewrite H1', Hj, H2' in Hl.
    erewrite bind_ok by exact Hl. rewrite !status_poisoned.
    rewrite bool_decide_eq_false_2 by congruence. simpl.
    unfold print, emit. by rewrite add_trace_app.
Qed.

(** What a consumer returns and prints does not depend on the world it
    runs in, and all it does to the world is print. *)
Lemma py_set_total `{Countable K} {A} (hash : A → result K) (g : gen A) acc :
  ∃ r prints, ∀ w, py_set hash g acc w = (r, add_trace (map EvPrint prints) w).
Proof.
  revert acc. induction g as [| e | args k IH | a k IH]; intros acc; simpl.
  - exists (Ok acc), []. intros w. by rewrite add_trace_nil.
  - exists (Raise e), []. intros w. by rewrite add_trace_nil.
  - destruct (IH acc) as (r & prints & Hk). exists r, (args :: prints).
    intros w. erewrite bind_ok by reflexivity. rewrite Hk, add_trace_app. done.
  - destruct (hash a) as [h | e].
    + destruct (IH ({[h]} ∪ acc)) as (r & prints & Hk). exists r, prints.
      intros w. erewrite bind_ok by reflexivity. apply Hk.
    + exists (Raise e), []. intros w.
      erewrite bind_raise by reflexivity. by rewrite add_trace_nil.
Qed.

Lemma eq_total (a b : DataModel) :
  ∃ r prints, ∀ w, __eq__ a b w = (r, add_trace (map EvPrint prints) w).
Proof.
  unfold __eq__.
  destruct (py_set_total py_hash (objects a) ∅) as (r1 & p1 & H1).
  destruct (py_set_total py_hash (objects b) ∅) as (r2 & p2 & H2).
  destruct (py_set_total hash_tuple (facts a) ∅) as (r3 & p3 & H3).
  destruct (py_set_total hash_tuple (facts b) ∅) as (r4 & p4 & H4).
  destruct r1 as [so | e].
  2: { exists (Raise e), p1. intros w. by erewrite bind_raise by apply H1. }
  destruct r2 as [oo | e].
  2: { exists (Raise e), (p1 ++ p2). intros w.
       erewrite bind_ok by apply H1. erewrite bind_raise by apply H2.
       by rewrite add_trace_app, map_app. }
  destruct (bool_decide (so = oo)) eqn:Hd.
  2: { exists (Ok false), (p1 ++ p2). intros w.
       erewrite bind_ok by apply H1. erewrite bind_ok by apply H2.
       rewrite Hd. unfold mret, M_ret. by rewrite add_trace_app, map_app. }
  destruct r3 as [sf | e].
  2: { exists (Raise e), (p1 ++ p2 ++ p3). intros w.
       erewrite bind_ok by apply H1. erewrite bind_ok by apply H2.
       rewrite Hd. erewrite bind_raise by apply H3.
       by rewrite !add_trace_app, !map_app, app_assoc. }
  destruct r4 as [tf | e].
  2: { exists (Raise e), (p1 ++ p2 ++ p3 ++ p4). intros w.
       erewrite bind_ok by apply H1. erewrite bind_ok by apply H2.
       rewrite Hd. erewrite bind_ok by apply H3.
       erewrite bind_raise by apply H4.
       by rewrite !add_trace_app, !map_app, !app_assoc. }
  exists (Ok (bool_decide (sf = tf))), (p1 ++ p2 ++ p3 ++ p4). intros w.
  erewrite bind_ok by apply H1. erewrite bind_ok by apply H2.
  rewrite Hd. erewrite bind_ok by apply H3. erewrite bind_ok by apply H4.
  unfold mret, M_ret. by rewrite !add_trace_app, !map_app, !app_assoc.
Qed.

Lemma upload_appends args w : ∃ es, upload args w = (Ok (), add_trace es w).
Proof.
  unfold upload, attach_file.
  destruct (parent_id args) as [page_id |].
  2: { exists []. by rewrite add_trace_nil. }
  destruct (truthy_int (Some page_id)).
  2: { exists []. by rewrite add_trace_nil. }
  do 6 (erewrite bind_ok by reflexivity). rewrite !add_trace_app.
  destruct (dump_source args) as [dir |].
  2: { eexists. unfold mret, M_ret. reflexivity. }
  destruct (truthy_str (Some dir)).
  2: { eexists. unfold mret, M_ret. reflexivity. }
  do 2 (erewrite bind_ok by reflexivity). unfold emit.
  rewrite !add_trace_app. eexists. reflexivity.
Qed.

Lemma add_trace_with_cache es dm w :
  add_trace es (with_cache dm w) = with_cache dm (add_trace es w).
Proof. reflexivity. Qed.

Lemma loop_then_hand_over {A} (g : gen A) (f : A → Digraph → result Digraph) dot0
    args file filename w :
  ∃ r es,
    (for_each g f dot0 ≫= fun dot =>
       dump args file dot ≫= fun _ => render filename "png" "cairo" dot) w =
      (r, add_trace es w).
Proof.
  destruct (for_each_total g f dot0) as ([dot | e] & prints & Hloop).
  - erewrite bind_ok by apply Hloop. rewrite dump_spec, add_trace_app. eauto.
  - erewrite bind_raise by apply Hloop. eauto.
Qed.

Lemma double_graph_appends args dm w :
  ∃ r es,
    double_graph args dm w = (r, add_trace (EvDigraph "Double edge facts" :: es) w).
Proof.
  unfold double_graph, new_Digraph.
  erewrite bind_ok by (erewrite bind_ok by reflexivity; reflexivity).
  match goal with |- context [for_each ?g ?b ?d] =>
    destruct (loop_then_hand_over g b d args "double.dot" "output/double"
                (add_trace [EvDigraph "Double edge facts"] w)) as (r & es & ->)
  end.
  rewrite add_trace_app. eauto.
Qed.

Lemma single_graph_appends args dm w :
  ∃ r es, single_graph args dm w = (r, add_trace es w).
Proof.
  unfold single_graph, new_Digraph.
  erewrite bind_ok by (erewrite bind_ok by reflexivity; reflexivity).
  match goal with |- context [for_each ?g ?b ?d] =>
    destruct (loop_then_hand_over g b d args "single.dot" "output/single"
                (add_trace [EvDigraph "Single edge facts"] w)) as (r & es & ->)
  end.
  rewrite add_trace_app. eauto.
Qed.

Lemma complete_graph_appends args dm w :
  ∃ r es, complete_graph args dm w = (r, add_trace es w).
Proof.
  unfold complete_graph, new_Digraph.
  erewrite bind_ok by (erewrite bind_ok by reflexivity; reflexivity).
  match goal with |- context [for_each (objects dm) ?b ?d] =>
    destruct (for_each_total (objects dm) b d) as ([dot | e] & prints & Hloop)
  end.
  2: { erewrite bind_raise by apply Hloop. rewrite add_trace_app. eauto. }
  erewrite bind_ok by apply Hloop.
  cbv beta.
  match goal with |- context [(for_each (facts dm) ?b ?d ≫= _) ?w1] =>
    destruct (loop_then_hand_over (facts dm) b d args "complete.dot"
                "output/complete" w1) as (r & es & ->)
  end.
  rewrite !add_trace_app. eauto.
Qed.

(** Once [run] has decided to graph, it announces it, writes the snapshot,
    and only then creates the first graph; nothing afterwards touches
    [cache.dat]. *)
Lemma graph_changes_spec now args dm w :
  ∃ r rest,
    graph_changes now args dm w =
      (r, with_cache dm
            (add_trace
               ([EvPrint [PStr (now +:+ " Graphing changes")];
                 EvOpen "cache.dat" "wb"; EvPickleDump dm;
                 EvDigraph "Double edge facts"] ++ rest) w)).
Proof.
  unfold graph_changes, pickle_dump.
  erewrite bind_ok by reflexivity.
  erewrite bind_ok by
    (erewrite bind_ok by reflexivity; erewrite bind_ok by reflexivity;
     reflexivity).
  rewrite !add_trace_with_cache, !add_trace_app. simpl app.
  set (w1 := with_cache dm _).
  destruct (double_graph_appends args dm w1) as (r1 & es1 & Hd).
  destruct r1 as [[] | e].
  2: { erewrite bind_raise by exact Hd. subst w1.
       rewrite add_trace_with_cache, add_trace_app. simpl app. eauto. }
  erewrite bind_ok by exact Hd.
  cbv beta.
  match goal with |- context [(single_graph args dm ≫= _) ?w2] =>
    destruct (single_graph_appends args dm w2) as (r2 & es2 & Hs) end.
  destruct r2 as [[] | e].
  2: { erewrite bind_raise by exact Hs. subst w1.
       rewrite !add_trace_app, add_trace_with_cache, add_trace_app.
       simpl app. eauto. }
  erewrite bind_ok by exact Hs.
  cbv beta.
  match goal with |- context [(complete_graph args dm ≫= _) ?w3] =>
    destruct (complete_graph_appends args dm w3) as (r3 & es3 & Hc) end.
  destruct r3 as [[] | e].
  2: { erewrite bind_raise by exact Hc. subst w1.
       rewrite !add_trace_app, add_trace_with_cache, add_trace_app.
       simpl app. eauto. }
  erewrite bind_ok by exact Hc. cbv beta.
  match goal with |- context [upload args ?w4] =>
    destruct (upload_appends args w4) as [es ->] end.
  subst w1. rewrite !add_trace_app, add_trace_with_cache, add_trace_app.
  simpl app. eauto.
Qed.

Lemma status_loaded self v1 v2 :
  status (with_status (with_facts (with_objects self v1) v2) 200) = Some 200.
Proof. reflexivity. Qed.


(** ** Equality of models *)

Lemma union_all_Some `{Countable K} {A} (f : A → option (gset K)) l Z :
  union_all f l = Some Z ↔
    (∀ x, x ∈ l → is_Some (f x)) ∧
    (∀ k, k ∈ Z ↔ ∃ x X, x ∈ l ∧ f x = Some X ∧ k ∈ X).
Proof.
  revert Z. induction l as [| x l IH]; intros Z; simpl.
  - split.
    + intros [= <-]. split; [intros x Hx; by apply elem_of_nil in Hx |].
      intros k. split; [set_solver |].
      intros (x & X & Hx & _). by apply elem_of_nil in Hx.
    + intros [_ Hk]. f_equal. apply set_eq. intros k. rewrite Hk.
      split; [set_solver |]. intros (x & X & Hx & _). by apply elem_of_nil in Hx.
  - destruct (f x) as [X |] eqn:Hfx.
    + destruct (union_all f l) as [Y |] eqn:Hl.
      * destruct (proj1 (IH Y) eq_refl) as [Hall HY]. split.
        -- intros [= <-]. split.
           ++ intros y [-> | Hy]%elem_of_cons; [by rewrite Hfx | by apply Hall].
           ++ intros k. rewrite elem_of_union, HY. split.
              ** intros [Hk | (y & Y' & Hy & Hfy & Hk)].
                 --- exists x, X. by rewrite elem_of_cons; auto.
                 --- exists y, Y'. rewrite elem_of_cons; auto.
              ** intros (y & Y' & [-> | Hy]%elem_of_cons & Hfy & Hk).
                 --- left. congruence.
                 --- right. eauto.
        -- intros [_ Hk]. f_equal. apply set_eq. intros k.
           rewrite elem_of_union, HY, Hk. split.
           ++ intros [Hx | (y & Y' & Hy & Hfy & Hky)].
              ** exists x, X. rewrite elem_of_cons; auto.
              ** exists y, Y'. rewrite elem_of_cons; auto.
           ++ intros (y & Y' & [-> | Hy]%elem_of_cons & Hfy & Hky).
              ** left. congruence.
              ** right. eauto.
      * split; [discriminate |]. intros [Hall Hk]. exfalso.
        assert (Hex : ∃ Y, union_all f l = Some Y).
        { clear -Hall. induction l as [| y l IHl]; simpl; [eauto |].
          destruct (Hall y) as [Y Hy]; [set_solver |]. rewrite Hy.
          destruct IHl as [Y' ->]; [| eauto].
          intros z Hz. apply Hall. set_solver. }
        destruct Hex as [Y HY]. congruence.
    + split; [discriminate |]. intros [Hall _].
      destruct (Hall x) as [X HX]; [set_solver |]. congruence.
Qed.

(** The union depends on which elements the list has, not on their order
    or multiplicity. *)
Lemma union_all_elements `{Countable K} {A} (f : A → option (gset K)) la lb Z :
  (∀ x, x ∈ la ↔ x ∈ lb) →
  union_all f la = Some Z → union_all f lb = Some Z.
Proof.
  intros Hsame [Hall Hk]%union_all_Some. apply union_all_Some. split.
  - intros x Hx. apply Hall, Hsame, Hx.
  - intros k. rewrite Hk. split; intros (x & X & Hx & Hrest);
      exists x, X; split; auto; by apply Hsame.
Qed.

Lemma produced_set_yield `{Countable K} {A} (hash : A → result K) a k :
  produced_set hash (GYield a k) =
    match hash a, produced_set hash k with
    | Ok h, Some X => Some ({[h]} ∪ X)
    | _, _ => None
    end.
Proof.
  unfold produced_set. simpl.
  destruct (raised k); [by destruct (hash a) |].
  destruct (hash a); simpl; [| done].
  by destruct (hash_all hash (yields k)).
Qed.

Lemma produced_set_raise `{Countable K} {A} (hash : A → result K) e :
  produced_set hash (GRaise e) = None.
Proof. reflexivity. Qed.

Lemma produced_set_print `{Countable K} {A} (hash : A → result K) args k :
  produced_set hash (GPrint args k) = produced_set hash k.
Proof. reflexivity. Qed.

Lemma produced_set_objects_loop l :
  produced_set py_hash (objects_loop l) = union_all object_entry_set l.
Proof.
  induction l as [| obj l IH]; [reflexivity |]. simpl.
  set (U := union_all object_entry_set l) in *.
  unfold object_entry_set. destruct (negb (truthy obj)).
  - rewrite produced_set_print, IH.
    destruct U as [Y |]; [| done]. f_equal. set_solver.
  - destruct (subscript obj "name") as [name | e]; [| done].
    rewrite produced_set_yield, IH. by destruct (py_hash name).
Qed.

Lemma produced_set_bindings_loop fact bs k :
  produced_set hash_tuple (bindings_loop fact bs k) =
    match union_all (binding_set fact) bs, produced_set hash_tuple k with
    | Some X, Some Y => Some (X ∪ Y)
    | _, _ => None
    end.
Proof.
  induction bs as [| b bs IH]; simpl.
  - destruct (produced_set hash_tuple k) as [Y |]; [| done]. f_equal. set_solver.
  - set (U := union_all (binding_set fact) bs) in *.
    unfold binding_set.
    destruct (binding_tuple fact b) as [t | e]; [| done].
    rewrite produced_set_yield, IH.
    destruct (hash_tuple t) as [h | e]; [| done].
    destruct U as [X |]; [| done].
    destruct (produced_set hash_tuple k) as [Y |]; [| done].
    f_equal. set_solver.
Qed.

Lemma produced_set_facts_loop l :
  produced_set hash_tuple (facts_loop l) = union_all fact_entry_set l.
Proof.
  induction l as [| fact l IH]; [reflexivity |]. simpl.
  set (U := union_all fact_entry_set l) in *.
  unfold fact_entry_set. destruct (negb (truthy fact)).
  - rewrite produced_set_print, IH.
    destruct U as [Y |]; [| done]. f_equal. set_solver.
  - destruct (subscript fact "relevantObjectBindings") as [bindings | e];
      [| done].
    destruct (negb (truthy bindings)).
    + rewrite IH. destruct U as [Y |]; [| done]. f_equal. set_solver.
    + destruct (py_iter bindings) as [bs | e]; [| done].
      by rewrite produced_set_bindings_loop, IH.
Qed.

Lemma subscript_truthy v key x : subscript v key = Ok x → truthy v = true.
Proof.
  destruct v as [| | | | | kvs]; try discriminate.
  by destruct kvs.
Qed.

Lemma produced_set_objects (a : DataModel) l :
  subscript (_objects a) "data" = Ok (PList l) →
  produced_set py_hash (objects a) = union_all object_entry_set l.
Proof.
  intros Hd. unfold objects.
  rewrite (subscript_truthy _ _ _ Hd), Hd. simpl.
  apply produced_set_objects_loop.
Qed.

Lemma produced_set_facts (a : DataModel) l :
  subscript (_facts a) "data" = Ok (PList l) →
  produced_set hash_tuple (facts a) = union_all fact_entry_set l.
Proof.
  intros Hd. unfold facts.
  rewrite (subscript_truthy _ _ _ Hd), Hd. simpl.
  apply produced_set_facts_loop.
Qed.

(** C1. For models [a] whose two views materialise (they run to their end
    and hand over hashable values):
    - against every [b] whose views materialise, [a == b] returns, and it
      returns [True] exactly when the de-duplicated set of [a.objects]
      equals that of [b.objects] and the de-duplicated set of [a.facts]
      equals that of [b.facts];
    - [a == a] returns [True];
    - [a == b] returns [True] for every [b] whose raw payloads list the
      same entries as [a]'s, in any order and with any repetition. *)
Theorem eq_is_set_equality (a b : DataModel) (w : world)
    (oa : gset hkey) (fa : gset (hkey * hkey * hkey * hkey)) :
  produced_set py_hash (objects a) = Some oa →
  produced_set hash_tuple (facts a) = Some fa →
  (∀ ob fb,
     produced_set py_hash (objects b) = Some ob →
     produced_set hash_tuple (facts b) = Some fb →
     fst (__eq__ a b w) = Ok (bool_decide (oa = ob ∧ fa = fb))) ∧
  fst (__eq__ a a w) = Ok true ∧
  (∀ la lb ma mb,
     subscript (_objects a) "data" = Ok (PList la) →
     subscript (_objects b) "data" = Ok (PList lb) →
     subscript (_facts a) "data" = Ok (PList ma) →
     subscript (_facts b) "data" = Ok (PList mb) →
     (∀ x, x ∈ la ↔ x ∈ lb) →
     (∀ x, x ∈ ma ↔ x ∈ mb) →
     fst (__eq__ a b w) = Ok true).
Proof.
  intros Hoa Hfa. repeat split.
  - intros ob fb Hob Hfb. by rewrite (eq_spec a b oa ob fa fb w).
  - rewrite (eq_spec a a oa oa fa fa w) by done. simpl.
    by rewrite bool_decide_eq_true_2.
  - intros la lb ma mb Hla Hlb Hma Hmb Hl Hm.
    assert (Hob : produced_set py_hash (objects b) = Some oa).
    { rewrite (produced_set_objects b lb Hlb).
      apply (union_all_elements _ la lb oa Hl).
      by rewrite <- (produced_set_objects a la Hla). }
    assert (Hfb : produced_set hash_tuple (facts b) = Some fa).
    { rewrite (produced_set_facts b mb Hmb).
      apply (union_all_elements _ ma mb fa Hm).
      by rewrite <- (produced_set_facts a ma Hma). }
    rewrite (eq_spec a b oa oa fa fa w) by done. simpl.
    by rewrite bool_decide_eq_true_2.
Qed.

(** ** The views *)

Lemma objects_loop_spec l :
  (∀ obj, obj ∈ l → truthy obj = true → ∃ name, subscript obj "name" = Ok name) →
  raised (objects_loop l) = None ∧
  yields (objects_loop l) =
    omap (fun obj =>
            if truthy obj
            then match subscript obj "name" with
                 | Ok name => Some name
                 | Raise _ => None
                 end
            else None) l ∧
  printed (objects_loop l) =
    map (fun obj => [PStr "Nonetype"; obj]) (filter (fun obj => truthy obj = false) l).
Proof.
  induction l as [| obj l IH]; intros Hl; [done |].
  destruct IH as (IHr & IHy & IHp); [intros o Ho; apply Hl; set_solver |].
  simpl. destruct (truthy obj) eqn:Ht; simpl.
  - destruct (Hl obj) as [name Hn]; [set_solver | done |]. rewrite Hn. simpl.
    rewrite filter_cons_False by congruence. by rewrite IHy.
  - rewrite filter_cons_True by done. simpl. by rewrite IHp.
Qed.

(** C8, as the code has it. [objects] hands over nothing when the backing
    payload is unavailable ([None], or any other false value). On a payload
    whose data list holds only false entries (null, empty) and entries with
    a name field it runs to its end without raising: every false entry is
    skipped and printed as an anomaly, and every other entry hands over the
    value of its name field, whatever that value is. *)
Theorem objects_skips_false_entries (self : DataModel) :
  (truthy (_objects self) = false → objects self = GStop) ∧
  (∀ l, subscript (_objects self) "data" = Ok (PList l) →
        (∀ obj, obj ∈ l → truthy obj = true →
                ∃ name, subscript obj "name" = Ok name) →
        raised (objects self) = None ∧
        yields (objects self) =
          omap (fun obj =>
                  if truthy obj
                  then match subscript obj "name" with
                       | Ok name => Some name
                       | Raise _ => None
                       end
                  else None) l ∧
        printed (objects self) =
          map (fun obj => [PStr "Nonetype"; obj])
              (filter (fun obj => truthy obj = false) l)).
Proof.
  split.
  - intros Hf. unfold objects. by rewrite Hf.
  - intros l Hd Hl. unfold objects.
    rewrite (subscript_truthy _ _ _ Hd), Hd. simpl.
    by apply objects_loop_spec.
Qed.

(** C8 as stated fails: an entry whose name field is the empty string is
    handed over, not skipped, and nothing is printed for it; an entry
    without a name field makes [objects] raise [KeyError]. *)
Lemma objects_falsy_or_missing_name :
  let falsy_name := fetched_model (catalog [PDict [("name", PStr "")]]) PNone in
  let missing_name := fetched_model (catalog [PDict [("id", PInt 7)]]) PNone in
  (subscript (PDict [("name", PStr "")]) "name" = Ok (PStr "") ∧
   truthy (PStr "") = false ∧
   yields (objects falsy_name) = [PStr ""] ∧
   printed (objects falsy_name) = []) ∧
  (subscript (PDict [("id", PInt 7)]) "name" = Raise (KeyError "name") ∧
   raised (objects missing_name) = Some (KeyError "name")).
Proof. by repeat split. Qed.

Lemma drain_of_gen {A} (g : gen A) self w :
  drain (of_gen g) self w =
    (run_to_end g, self, add_trace (map EvPrint (printed g)) w).
Proof.
  unfold run_to_end. revert w.
  induction g as [| e | args k IH | a k IH]; intros w; simpl.
  - by rewrite add_trace_nil.
  - by rewrite add_trace_nil.
  - by rewrite IH, add_trace_app.
  - rewrite IH. by destruct (raised k).
Qed.

(** The body of each property, run to its end, does what the view does,
    and assigns nothing. *)
Lemma drain_objects_generator self w :
  drain objects_generator self w =
    (run_to_end (objects self), self,
     add_trace (map EvPrint (printed (objects self))) w).
Proof.
  unfold objects_generator, objects. simpl.
  destruct (negb (truthy (_objects self))); simpl.
  { by rewrite add_trace_nil. }
  destruct (subscript (_objects self) "data") as [data | e]; simpl.
  2: { by rewrite add_trace_nil. }
  destruct (py_iter data) as [l | e]; simpl.
  2: { by rewrite add_trace_nil. }
  apply drain_of_gen.
Qed.

Lemma drain_facts_generator self w :
  drain facts_generator self w =
    (run_to_end (facts self), self,
     add_trace (map EvPrint (printed (facts self))) w).
Proof.
  unfold facts_generator, facts. simpl.
  destruct (negb (truthy (_facts self))); simpl.
  { by rewrite add_trace_nil. }
  destruct (subscript (_facts self) "data") as [data | e]; simpl.
  2: { by rewrite add_trace_nil. }
  destruct (py_iter data) as [l | e]; simpl.
  2: { by rewrite add_trace_nil. }
  apply drain_of_gen.
Qed.

Lemma py_list_new {A} (p : prog A) (h : heap A) (w : world) :
  py_list (length (generators h))
    {| instance := instance h; generators := generators h ++ [p] |} w =
    (let '(r, self, w') := drain p (instance h) w in
     (r, {| instance := self; generators := generators h ++ [PReturn] |}, w')).
Proof.
  unfold py_list. simpl.
  rewrite list_lookup_middle by done.
  destruct (drain p (instance h) w) as [[r self] w'].
  rewrite insert_app_r_alt by done. by rewrite Nat.sub_diag.
Qed.

Lemma reads_spec {A} (p : prog A) (view : DataModel → gen A) n h w :
  (∀ self w, drain p self w =
     (run_to_end (view self), self,
      add_trace (map EvPrint (printed (view self))) w)) →
  match run_to_end (view (instance h)) with
  | Ok xs =>
      reads n p h w =
        (Ok (replicate n xs),
         {| instance := instance h;
            generators := generators h ++ replicate n PReturn |},
         add_trace
           (map EvPrint (mjoin (replicate n (printed (view (instance h)))))) w)
  | Raise e =>
      reads (S n) p h w =
        (Raise e,
         {| instance := instance h; generators := generators h ++ [PReturn] |},
         add_trace (map EvPrint (printed (view (instance h)))) w)
  end.
Proof.
  intros Hp.
  assert (Hread : ∀ h w, read p h w =
            (run_to_end (view (instance h)),
             {| instance := instance h; generators := generators h ++ [PReturn] |},
             add_trace (map EvPrint (printed (view (instance h)))) w)).
  { intros h0 w0. unfold read, get_property. by rewrite py_list_new, Hp. }
  destruct (run_to_end (view (instance h))) as [xs | e] eqn:Hv.
  - revert h w Hv. induction n as [| n IH]; intros h w Hv; simpl.
    + rewrite add_trace_nil, app_nil_r. by destruct h.
    + rewrite Hread, Hv. rewrite IH by done. simpl.
      by rewrite <- app_assoc, add_trace_app, map_app.
  - simpl. by rewrite Hread, Hv.
Qed.

(** C9, as the code has it. Reading [objects], or [facts], any number of
    times in a row on the same instance, every time through [list(...)],
    gives the same sequence every time: when the view runs to its end, [n]
    reads give [n] copies of one sequence, and otherwise every read raises
    the same exception. Every read makes a generator object of its own and
    leaves it finished; the generator objects that were there are left as
    they were, and so is the instance: the bodies read [self._objects] and
    [self._facts] and assign nothing. The reads are not free of effects:
    every one of them prints the anomaly lines of the payload again. *)
Theorem views_restartable (n : nat) (w : world) :
  (∀ h : heap pyval,
     match run_to_end (objects (instance h)) with
     | Ok xs =>
         reads n objects_generator h w =
           (Ok (replicate n xs),
            {| instance := instance h;
               generators := generators h ++ replicate n PReturn |},
            add_trace
              (map EvPrint (mjoin (replicate n (printed (objects (instance h))))))
              w)
     | Raise e =>
         reads (S n) objects_generator h w =
           (Raise e,
            {| instance := instance h; generators := generators h ++ [PReturn] |},
            add_trace (map EvPrint (printed (objects (instance h)))) w)
     end) ∧
  (∀ h : heap fact_tuple,
     match run_to_end (facts (instance h)) with
     | Ok ts =>
         reads n facts_generator h w =
           (Ok (replicate n ts),
            {| instance := instance h;
               generators := generators h ++ replicate n PReturn |},
            add_trace
              (map EvPrint (mjoin (replicate n (printed (facts (instance h))))))
              w)
     | Raise e =>
         reads (S n) facts_generator h w =
           (Raise e,
            {| instance := instance h; generators := generators h ++ [PReturn] |},
            add_trace (map EvPrint (printed (facts (instance h)))) w)
     end).
Proof.
  split; intros h.
  - apply (reads_spec objects_generator objects), drain_objects_generator.
  - apply (reads_spec facts_generator facts), drain_facts_generator.
Qed.

(** C9 as stated fails: a read is not free of side effects. On a payload
    with a null entry every read of [objects] prints an anomaly line, so
    two reads leave two lines on standard output. *)
Lemma views_print_on_every_read :
  let self := fetched_model (catalog [PNone; object_type "host"]) PNone in
  let h := {| instance := self; generators := [] |} in
  reads 2 objects_generator h fresh_world =
    (Ok [[PStr "host"]; [PStr "host"]],
     {| instance := self; generators := [PReturn; PReturn] |},
     add_trace [EvPrint [PStr "Nonetype"; PNone]; EvPrint [PStr "Nonetype"; PNone]]
       fresh_world) ∧
  trace (add_trace [EvPrint [PStr "Nonetype"; PNone]; EvPrint [PStr "Nonetype"; PNone]]
           fresh_world) ≠ trace fresh_world.
Proof. by split. Qed.

(** ** TLS verification *)

Lemma try_ok {A} (body handler : M A) w a w' :
  body w = (Ok a, w') → try_except_FileNotFoundError body handler w = (Ok a, w').
Proof. intros Hb. unfold try_except_FileNotFoundError. by rewrite Hb. Qed.

Lemma try_caught {A} (body handler : M A) w w' :
  body w = (Raise FileNotFoundError, w') →
  try_except_FileNotFoundError body handler w = handler w'.
Proof. intros Hb. unfold try_except_FileNotFoundError. by rewrite Hb. Qed.

Lemma try_uncaught {A} (body handler : M A) w e w' :
  body w = (Raise e, w') → e ≠ FileNotFoundError →
  try_except_FileNotFoundError body handler w = (Raise e, w').
Proof.
  intros Hb He. unfold try_except_FileNotFoundError. rewrite Hb.
  by destruct e.
Qed.

Lemma pickle_load_spec w :
  pickle_load w =
    match cache_dat w with
    | Some old_dm =>
        (Ok old_dm, add_trace [EvOpen "cache.dat" "rb"; EvPickleLoad] w)
    | None => (Raise FileNotFoundError, add_trace [EvOpen "cache.dat" "rb"] w)
    end.
Proof.
  unfold pickle_load. erewrite bind_ok by reflexivity.
  unfold stat_cache_dat, mbind, M_bind. simpl.
  destruct (cache_dat w); simpl; [by rewrite add_trace_app | done].
Qed.

Lemma first_run_spec w :
  (print [PStr "First run"] ≫= fun _ => mret false) w =
    (Ok false, add_trace [EvPrint [PStr "First run"]] w).
Proof. reflexivity. Qed.

(** Whatever happens after the fetch only adds to the trace. *)
Lemma gate_extends now args dm w :
  ∃ r es c,
    (try_except_FileNotFoundError
       (pickle_load ≫= fun old_dm => __eq__ old_dm dm)
       (print [PStr "First run"] ≫= fun _ => mret false)
     ≫= fun unchanged : bool =>
          if unchanged then (mret () : M unit)
          else graph_changes now args dm) w =
      (r, {| trace := trace w ++ es; cache_dat := c |}).
Proof.
  assert (Hgraph : ∀ es1,
            ∃ r es c,
              graph_changes now args dm (add_trace es1 w) =
                (r, {| trace := trace w ++ es; cache_dat := c |})).
  { intros es1.
    destruct (graph_changes_spec now args dm (add_trace es1 w))
      as (r & rest & ->).
    rewrite add_trace_app. eexists r, _, _. reflexivity. }
  pose proof (pickle_load_spec w) as Hp.
  destruct (cache_dat w) as [old_dm |] eqn:Hc.
  - destruct (eq_total old_dm dm) as (r & prints & Hr).
    assert (Hb : (pickle_load ≫= fun old_dm => __eq__ old_dm dm) w =
              (r, add_trace ([EvOpen "cache.dat" "rb"; EvPickleLoad] ++
                             map EvPrint prints) w)).
    { erewrite bind_ok by exact Hp. by rewrite Hr, add_trace_app. }
    destruct r as [[|] | e].
    + erewrite bind_ok by (apply try_ok; exact Hb).
      eexists (Ok ()), _, _. reflexivity.
    + erewrite bind_ok by (apply try_ok; exact Hb). apply Hgraph.
    + destruct (decide (e = FileNotFoundError)) as [-> | Hne].
      * erewrite bind_ok
          by (erewrite try_caught by exact Hb; apply first_run_spec).
        rewrite add_trace_app. apply Hgraph.
      * erewrite bind_raise by (apply try_uncaught; [exact Hb | exact Hne]).
        eexists (Raise e), _, _. reflexivity.
  - erewrite bind_ok
      by (erewrite try_caught
            by (erewrite bind_raise by exact Hp; reflexivity);
          apply first_run_spec).
    rewrite add_trace_app. apply Hgraph.
Qed.

(** The first thing a run does is send the object-type request. *)
Lemma run_first_request urljoin requests_get now args w :
  let dm0 := __init__ urljoin (url args) (http_username args)
               (http_password args) (uid args) (cacert args) in
  ∃ r rest c,
    run urljoin requests_get now args w =
      (r, {| trace := trace w ++ EvGet (request_for dm0 (objects_url dm0)) :: rest;
             cache_dat := c |}).
Proof.
  intros dm0. unfold run. fold dm0.
  set (q1 := request_for dm0 (objects_url dm0)).
  assert (Hload : ∃ r es, load requests_get dm0 w = (r, add_trace (EvGet q1 :: es) w)).
  { pose proof (load_spec requests_get dm0 w) as Hl. cbv zeta in Hl.
    fold q1 in Hl. rewrite Hl.
    destruct (Z.eqb (status_code (requests_get q1)) 200); [| eauto].
    destruct (json (requests_get q1)); [| eauto].
    destruct (Z.eqb (status_code _) 200); [| eauto].
    destruct (json _); eauto. }
  destruct Hload as (r & es & Hload). destruct r as [dm | e].
  2: { erewrite bind_raise by exact Hload. eexists (Raise e), es, _. reflexivity. }
  erewrite bind_ok by exact Hload.
  destruct (negb (bool_decide (status dm = Some 200))).
  - eexists (Ok ()), (es ++ [_]), _. unfold print, emit. rewrite add_trace_app.
    reflexivity.
  - destruct (gate_extends now args dm (add_trace (EvGet q1 :: es) w))
      as (r & es' & c & ->).
    eexists r, (es ++ es'), c. simpl. by rewrite <- app_assoc.
Qed.

(** C10. Constructing [DataModel] with [cacert=None] stores [None] in
    [self.verify], not [True]; [True] is stored for the empty string and for
    nothing else. [None] is the default of [--cacert], and [run] hands
    [args.cacert] to the constructor, so a run without [--cacert] sends its
    requests with [verify=None]. *)
Theorem cacert_None_verify urljoin requests_get (now : string) :
  (∀ base user pw id,
     verify (__init__ urljoin base user pw id None) = VerifyCacert None ∧
     verify (__init__ urljoin base user pw id None) ≠ VerifyTrue) ∧
  (∀ base user pw id c,
     verify (__init__ urljoin base user pw id c) = VerifyTrue ↔ c = Some "") ∧
  (∀ base, cacert (parse_args_defaults base) = None) ∧
  (∀ args w, cacert args = None →
     ∃ q r rest c,
       run urljoin requests_get now args w =
         (r, {| trace := trace w ++ EvGet q :: rest; cache_dat := c |}) ∧
       req_verify q = VerifyCacert None).
Proof.
  repeat split.
  - done.
  - unfold __init__. simpl. case_bool_decide as Hd; [done |].
    intros _. destruct (decide (c = Some "")) as [Heq | Hne]; [done |].
    by destruct Hd.
  - intros ->. reflexivity.
  - intros args w Hc.
    destruct (run_first_request urljoin requests_get now args w)
      as (r & rest & c & Hrun).
    eexists _, r, rest, c. split; [exact Hrun |].
    unfold request_for, __init__. simpl. by rewrite Hc.
Qed.

(** ** Scenarios *)

(** Objects host and ip, one fact resolvesTo from host to ip: the
    double-edge graph has the two nodes and one forward edge; the complete
    graph declares the same two nodes (twice) and the same edge. *)
Example scenario_resolvesTo :
  let dm := fetched_model
              (catalog [object_type "host"; object_type "ip"])
              (catalog [fact_type "resolvesTo" [binding "host" (Some "ip") false]]) in
  yields (facts dm) = [(PStr "resolvesTo", PStr "host", PStr "ip", PBool false)] ∧
  double_graph example_args dm fresh_world =
    (Ok (),
     add_trace
       [EvDigraph "Double edge facts";
        EvRender "output/double" "png" "cairo"
          {| comment := "Double edge facts";
             body := [DotNode (PStr "host") (PStr "host") None;
                      DotNode (PStr "ip") (PStr "ip") None;
                      DotEdge (PStr "host") (PStr "ip")
                        (Some (PStr "resolvesTo")) None] |}]
       fresh_world) ∧
  complete_graph example_args dm fresh_world =
    (Ok (),
     add_trace
       [EvDigraph "All Double edge facts";
        EvRender "output/complete" "png" "cairo"
          {| comment := "All Double edge facts";
             body := [DotNode (PStr "host") (PStr "host") None;
                      DotNode (PStr "ip") (PStr "ip") None;
                      DotNode (PStr "host") (PStr "host") None;
                      DotNode (PStr "ip") (PStr "ip") None;
                      DotEdge (PStr "host") (PStr "ip")
                        (Some (PStr "resolvesTo")) None] |}]
       fresh_world).
Proof. by repeat split. Qed.

(** One unary fact hasAttribute on host: the single-edge graph has the
    diamond node, the host node and the edge between them; the double-edge
    graph is empty. *)
Example scenario_hasAttribute :
  let dm := fetched_model
              (catalog [object_type "host"])
              (catalog [fact_type "hasAttribute" [binding "host" None false]]) in
  yields (facts dm) = [(PStr "hasAttribute", PStr "host", PNone, PBool false)] ∧
  single_graph example_args dm fresh_world =
    (Ok (),
     add_trace
       [EvDigraph "Single edge facts";
        EvRender "output/single" "png" "cairo"
          {| comment := "Single edge facts";
             body := [DotNode (PStr "hasAttribute") (PStr "hasAttribute")
                        (Some "diamond");
                      DotNode (PStr "host") (PStr "host") None;
                      DotEdge (PStr "host") (PStr "hasAttribute") None None] |}]
       fresh_world) ∧
  double_graph example_args dm fresh_world =
    (Ok (),
     add_trace
       [EvDigraph "Double edge facts";
        EvRender "output/double" "png" "cairo"
          {| comment := "Double edge facts"; body := [] |}]
       fresh_world).
Proof. by repeat split. Qed.

(** A bidirectional fact named mentions: no call in the double-edge graph,
    a both-ended edge in the complete graph. *)
Example scenario_mentions :
  let dm := fetched_model
              (catalog [])
              (catalog [fact_type "mentions" [binding "report" (Some "ip") true]]) in
  double_graph example_args dm fresh_world =
    (Ok (),
     add_trace
       [EvDigraph "Double edge facts";
        EvRender "output/double" "png" "cairo"
          {| comment := "Double edge facts"; body := [] |}]
       fresh_world) ∧
  complete_graph example_args dm fresh_world =
    (Ok (),
     add_trace
       [EvDigraph "All Double edge facts";
        EvRender "output/complete" "png" "cairo"
          {| comment := "All Double edge facts";
             body := [DotNode (PStr "report") (PStr "report") None;
                      DotNode (PStr "ip") (PStr "ip") None;
                      DotEdge (PStr "report") (PStr "ip")
                        (Some (PStr "mentions")) (Some "both")] |}]
       fresh_world).
Proof. by repeat split. Qed.

(** A generator object is one-shot, the property is not: listing the
    generator object that one read of [objects] made gives the names the
    first time and nothing the second time, while a new read of the
    property gives the names again. *)
Example scenario_generator_object :
  let h := {| instance := example_model; generators := [] |} in
  let made := get_property objects_generator h in
  let first := py_list (fst made) (snd made) fresh_world in
  let second := py_list (fst made) (snd (fst first)) (snd first) in
  let again := read objects_generator (snd (fst second)) (snd second) in
  fst (fst first) = Ok [PStr "host"; PStr "ip"] ∧
  fst (fst second) = Ok [] ∧
  fst (fst again) = Ok [PStr "host"; PStr "ip"] ∧
  instance (snd (fst again)) = example_model.
Proof. by repeat split. Qed.

(** A second run on an unchanged catalog stops after the comparison and
    leaves [cache.dat] as the first run wrote it. *)
Example scenario_second_run :
  let now := "2026-01-01 00:00:00" in
  let ok := example_get (mkResponse 200 (Some (_objects example_model)))
              (mkResponse 200 (Some (_facts example_model))) in
  let first := snd (run example_urljoin ok now example_args fresh_world) in
  let second := snd (run example_urljoin ok now example_args first) in
  is_Some (cache_dat first) ∧
  cache_dat second = cache_dat first ∧
  trace second =
    trace first ++
    [EvGet (request_for (__init__ example_urljoin "https://act.example" None None 1 None)
              "https://act.example/v1/objectType");
     EvGet (request_for (__init__ example_urljoin "https://act.example" None None 1 None)
              "https://act.example/v1/factType");
     EvOpen "cache.dat" "rb"; EvPickleLoad].
Proof. vm_compute. split; [eauto |]. by split. Qed.

(** ** The statements at concrete inputs *)

Lemma eq_is_set_equality_example :
  let oa : gset hkey := list_to_set [KStr "host"; KStr "ip"] in
  let fa : gset (hkey * hkey * hkey * hkey) :=
    list_to_set [(KStr "resolvesTo", KStr "host", KStr "ip", KInt 0);
                 (KStr "hasAttribute", KStr "host", KNone, KInt 0)] in
  let smaller := fetched_model (catalog [object_type "host"]) PNone in
  produced_set py_hash (objects example_model) = Some oa ∧
  produced_set hash_tuple (facts example_model) = Some fa ∧
  fst (__eq__ example_model smaller fresh_world) =
    Ok (bool_decide (oa = list_to_set [KStr "host"] ∧ fa = ∅)) ∧
  fst (__eq__ example_model example_model fresh_world) = Ok true ∧
  fst (__eq__ example_model example_model_shuffled fresh_world) = Ok true.
Proof.
  intros oa fa smaller.
  assert (Hoa : produced_set py_hash (objects example_model) = Some oa)
    by reflexivity.
  assert (Hfa : produced_set hash_tuple (facts example_model) = Some fa)
    by reflexivity.
  destruct (eq_is_set_equality example_model example_model_shuffled
              fresh_world oa fa Hoa Hfa) as (_ & Hrefl & Hperm).
  destruct (eq_is_set_equality example_model smaller
              fresh_world oa fa Hoa Hfa) as (Hiff & _ & _).
  split; [exact Hoa |]. split; [exact Hfa |].
  split; [apply Hiff; reflexivity |]. split; [exact Hrefl |].
  eapply Hperm; try reflexivity.
  - intros x. rewrite !elem_of_cons. tauto.
  - intros x. rewrite !elem_of_cons. tauto.
Defined.

Lemma load_failure_poisons_example :
  let self := __init__ example_urljoin "https://act.example" None None 1 None in
  let q1 := request_for self (objects_url self) in
  let q2 := request_for self (facts_url self) in
  let down := example_get (mkResponse 503 None) (mkResponse 200 (Some (catalog []))) in
  let half := example_get (mkResponse 200 (Some (catalog [object_type "host"])))
                (mkResponse 404 None) in
  (status_code (down q1) ≠ 200 ∧
   ∃ dm, load down self fresh_world = (Ok dm, add_trace [EvGet q1] fresh_world) ∧
         _objects dm = PNone ∧ _facts dm = PNone ∧ status dm = Some 503 ∧
         objects dm = GStop ∧ facts dm = GStop) ∧
  (status_code (half q1) = 200 ∧
   json (half q1) = Some (catalog [object_type "host"]) ∧
   status_code (half q2) ≠ 200 ∧
   ∃ dm, load half self fresh_world =
           (Ok dm, add_trace [EvGet q1; EvGet q2] fresh_world) ∧
         _objects dm = PNone ∧ _facts dm = PNone ∧ status dm = Some 404 ∧
         objects dm = GStop ∧ facts dm = GStop).
Proof.
  intros self q1 q2 down half. split.
  - split; [done |].
    apply (proj1 (load_failure_poisons down self fresh_world)). done.
  - split; [reflexivity |]. split; [reflexivity |]. split; [done |].
    apply (proj2 (load_failure_poisons half self fresh_world)
             (catalog [object_type "host"])); done.
Defined.

Lemma run_fetch_failed_example :
  let self := __init__ example_urljoin "https://act.example" None None 1 None in
  let q1 := request_for self (objects_url self) in
  let q2 := request_for self (facts_url self) in
  let down := example_get (mkResponse 503 None) (mkResponse 200 (Some (catalog []))) in
  let half := example_get (mkResponse 200 (Some (catalog [object_type "host"])))
                (mkResponse 404 None) in
  (status_code (down q1) ≠ 200 ∧
   run example_urljoin down "2026-01-01 00:00:00" example_args fresh_world =
     (Ok (),
      add_trace
        [EvGet q1; EvPrint [PStr "2026-01-01 00:00:00 Status code 503"]]
        fresh_world)) ∧
  (status_code (half q1) = 200 ∧
   json (half q1) = Some (catalog [object_type "host"]) ∧
   status_code (half q2) ≠ 200 ∧
   run example_urljoin half "2026-01-01 00:00:00" example_args fresh_world =
     (Ok (),
      add_trace
        [EvGet q1; EvGet q2;
         EvPrint [PStr "2026-01-01 00:00:00 Status code 404"]]
        fresh_world)).
Proof.
  intros self q1 q2 down half. split.
  - split; [done |].
    apply (proj1 (run_fetch_failed example_urljoin down "2026-01-01 00:00:00"
                    example_args fresh_world)). done.
  - split; [reflexivity |]. split; [reflexivity |]. split; [done |].
    apply (proj2 (run_fetch_failed example_urljoin half "2026-01-01 00:00:00"
                    example_args fresh_world) (catalog [object_type "host"]));
      done.
Defined.


Lemma double_graph_spec_example :
  double_graph example_args example_drawing fresh_world =
    (Ok (),
     add_trace
       [EvDigraph "Double edge facts";
        EvRender "output/double" "png" "cairo"
          {| comment := "Double edge facts";
             body := [DotNode (PStr "host") (PStr "host") None;
                      DotNode (PStr "ip") (PStr "ip") None;
                      DotEdge (PStr "host") (PStr "ip")
                        (Some (PStr "resolvesTo")) None] |}]
       fresh_world) ∧
  ∃ prints,
    double_graph example_args example_null_source fresh_world =
      (Raise TypeError,
       add_trace ([EvDigraph "Double edge facts"] ++ map EvPrint prints)
         fresh_world).
Proof.
  destruct (double_graph_spec example_args example_drawing fresh_world)
    as (_ & Hdrawn & _).
  destruct (double_graph_spec example_args example_null_source fresh_world)
    as (_ & _ & Hrejected).
  split.
  - rewrite Hdrawn; [reflexivity |].
    drawn_tuples_are_accepted.
  - apply (Hrejected (PStr "resolvesTo", PNone, PStr "ip", PBool false));
      [by apply list_elem_of_singleton | reflexivity | reflexivity].
Defined.

Lemma single_graph_spec_example :
  single_graph example_args example_drawing fresh_world =
    (Ok (),
     add_trace
       [EvDigraph "Single edge facts";
        EvRender "output/single" "png" "cairo"
          {| comment := "Single edge facts";
             body := [DotNode (PStr "hasAttribute") (PStr "hasAttribute")
                        (Some "diamond");
                      DotNode (PStr "host") (PStr "host") None;
                      DotEdge (PStr "host") (PStr "hasAttribute") None None] |}]
       fresh_world) ∧
  ∃ prints,
    single_graph example_args example_null_source_unary fresh_world =
      (Raise TypeError,
       add_trace ([EvDigraph "Single edge facts"] ++ map EvPrint prints)
         fresh_world).
Proof.
  destruct (single_graph_spec example_args example_drawing fresh_world)
    as (_ & Hdrawn & _).
  destruct (single_graph_spec example_args example_null_source_unary fresh_world)
    as (_ & _ & Hrejected).
  split.
  - rewrite Hdrawn; [reflexivity |].
    drawn_tuples_are_accepted.
  - apply (Hrejected (PStr "hasAttribute", PNone, PNone, PBool false));
      [by apply list_elem_of_singleton | reflexivity | reflexivity].
Defined.

Lemma complete_graph_spec_example :
  complete_graph example_args example_drawing fresh_world =
    (Ok (),
     add_trace
       [EvDigraph "All Double edge facts";
        EvRender "output/complete" "png" "cairo"
          {| comment := "All Double edge facts";
             body := [DotNode (PStr "host") (PStr "host") None;
                      DotNode (PStr "ip") (PStr "ip") None;
                      DotNode (PStr "report") (PStr "report") None;
                      DotNode (PStr "host") (PStr "host") None;
                      DotNode (PStr "ip") (PStr "ip") None;
                      DotEdge (PStr "host") (PStr "ip")
                        (Some (PStr "resolvesTo")) None;
                      DotNode (PStr "report") (PStr "report") None;
                      DotNode (PStr "ip") (PStr "ip") None;
                      DotEdge (PStr "report") (PStr "ip")
                        (Some (PStr "mentions")) (Some "both")] |}]
       fresh_world) ∧
  (∃ prints,
     complete_graph example_args example_null_object_name fresh_world =
       (Raise TypeError,
        add_trace ([EvDigraph "All Double edge facts"] ++ map EvPrint prints)
          fresh_world)) ∧
  (∃ prints,
     complete_graph example_args example_null_source fresh_world =
       (Raise TypeError,
        add_trace ([EvDigraph "All Double edge facts"] ++ map EvPrint prints)
          fresh_world)).
Proof.
  destruct (complete_graph_spec example_args example_drawing fresh_world)
    as (_ & _ & Hdrawn & _).
  destruct (complete_graph_spec example_args example_null_object_name fresh_world)
    as (_ & _ & _ & Hobject & _).
  destruct (complete_graph_spec example_args example_null_source fresh_world)
    as (_ & _ & _ & _ & Hrejected).
  split; [| split].
  - rewrite Hdrawn; [reflexivity | by repeat constructor |].
    drawn_tuples_are_accepted.
  - apply (Hobject PNone); [| reflexivity].
    apply elem_of_cons. right. by apply list_elem_of_singleton.
  - refine (Hrejected eq_refl _ (PStr "resolvesTo", PNone, PStr "ip", PBool false)
              _ eq_refl eq_refl).
    + by repeat constructor.
    + by apply list_elem_of_singleton.
Defined.

Lemma views_restartable_example :
  let self := fetched_model (catalog [object_type "host"; PNone; object_type "ip"])
                (catalog [fact_type "resolvesTo" [binding "host" (Some "ip") false]]) in
  let earlier := PYield (PStr "pending") PReturn in
  reads 3 objects_generator {| instance := self; generators := [earlier] |}
    fresh_world =
    (Ok [[PStr "host"; PStr "ip"]; [PStr "host"; PStr "ip"]; [PStr "host"; PStr "ip"]],
     {| instance := self; generators := [earlier; PReturn; PReturn; PReturn] |},
     add_trace
       [EvPrint [PStr "Nonetype"; PNone]; EvPrint [PStr "Nonetype"; PNone];
        EvPrint [PStr "Nonetype"; PNone]] fresh_world) ∧
  reads 2 facts_generator {| instance := self; generators := [] |} fresh_world =
    (Ok [[(PStr "resolvesTo", PStr "host", PStr "ip", PBool false)];
         [(PStr "resolvesTo", PStr "host", PStr "ip", PBool false)]],
     {| instance := self; generators := [PReturn; PReturn] |},
     fresh_world).
Proof.
  intros self earlier. split.
  - exact (proj1 (views_restartable 3 fresh_world)
             {| instance := self; generators := [earlier] |}).
  - exact (proj2 (views_restartable 2 fresh_world)
             {| instance := self; generators := [] |}).
Defined.

Lemma objects_skips_false_entries_example :
  let entries := [object_type "host"; PNone; PDict []; PDict [("name", PStr "")]] in
  let self := fetched_model (catalog entries) PNone in
  let failed := fetched_model PNone PNone in
  (truthy (_objects failed) = false ∧ objects failed = GStop) ∧
  (subscript (_objects self) "data" = Ok (PList entries) ∧
   (∀ obj, obj ∈ entries → truthy obj = true →
           ∃ name, subscript obj "name" = Ok name) ∧
   raised (objects self) = None ∧
   yields (objects self) = [PStr "host"; PStr ""] ∧
   printed (objects self) = [[PStr "Nonetype"; PNone]; [PStr "Nonetype"; PDict []]]).
Proof.
  intros entries self failed.
  assert (Hnames : ∀ obj, obj ∈ entries → truthy obj = true →
                          ∃ name, subscript obj "name" = Ok name).
  { intros obj Hobj Ht. unfold entries in Hobj.
    rewrite !elem_of_cons in Hobj.
    destruct Hobj as [-> | [-> | [-> | [-> | Hobj]]]];
      [eexists; reflexivity | discriminate | discriminate
      | eexists; reflexivity | by apply elem_of_nil in Hobj]. }
  split.
  - split; [reflexivity |].
    apply (proj1 (objects_skips_false_entries failed)). reflexivity.
  - split; [reflexivity |]. split; [exact Hnames |].
    apply (proj2 (objects_skips_false_entries self) entries eq_refl Hnames).
Defined.

Lemma cacert_None_verify_example :
  let get := example_get (mkResponse 503 None) (mkResponse 503 None) in
  cacert example_args = None ∧
  ∃ q r rest c,
    run example_urljoin get "2026-01-01 00:00:00" example_args fresh_world =
      (r, {| trace := trace fresh_world ++ EvGet q :: rest; cache_dat := c |}) ∧
    req_verify q = VerifyCacert None.
Proof.
  intros get. split; [reflexivity |].
  apply (proj2 (proj2 (proj2
           (cacert_None_verify example_urljoin get "2026-01-01 00:00:00")))).
  reflexivity.
Defined.

(** ** Further properties of the fetch *)

(** X1. Whenever [load] returns, the model is either fully loaded or fully
    poisoned: [status] is set; it is 200 exactly when both calls answered
    200, and then the two payloads are the two decoded bodies; with any
    other status both payloads are [None]. The URLs, the credentials, the
    user id and the verification setting are what they were. *)
Theorem load_all_or_nothing requests_get (self dm : DataModel) (w w' : world) :
  let r1 := requests_get (request_for self (objects_url self)) in
  let r2 := requests_get (request_for self (facts_url self)) in
  load requests_get self w = (Ok dm, w') →
  status dm ≠ None ∧
  (status dm = Some 200 ↔ status_code r1 = 200 ∧ status_code r2 = 200) ∧
  (status dm = Some 200 →
   json r1 = Some (_objects dm) ∧ json r2 = Some (_facts dm)) ∧
  (status dm ≠ Some 200 → _objects dm = PNone ∧ _facts dm = PNone) ∧
  (objects_url dm = objects_url self ∧ facts_url dm = facts_url self ∧
   username dm = username self ∧ password dm = password self ∧
   user_id dm = user_id self ∧ verify dm = verify self).
Proof.
  intros r1 r2 Hload.
  pose proof (load_spec requests_get self w) as Hl. cbv zeta in Hl.
  fold r1 r2 in Hl. rewrite Hload in Hl. clear Hload.
  destruct (Z.eqb (status_code r1) 200) eqn:H1.
  - apply Z.eqb_eq in H1.
    destruct (json r1) as [v1 |] eqn:Hj1; [| discriminate].
    destruct (Z.eqb (status_code r2) 200) eqn:H2.
    + apply Z.eqb_eq in H2.
      destruct (json r2) as [v2 |] eqn:Hj2; [| discriminate].
      injection Hl as -> _. simpl. repeat split; try done.
    + apply Z.eqb_neq in H2. injection Hl as -> _. simpl.
      repeat split; try done; try congruence.
      intros [_ ?]. congruence.
  - apply Z.eqb_neq in H1. injection Hl as -> _. simpl.
    repeat split; try done; try congruence.
    intros [? _]. congruence.
Qed.

(** X2. [load] sends one or two GET requests and does nothing else: the
    object-type request first, and the fact-type request only when the
    first answered 200 with a JSON body. Each request carries the two fixed
    headers and the stored verification setting, and carries the
    credentials exactly when the username is a non-empty string (a password
    alone, or an empty username, sends none). *)
Theorem load_requests requests_get (self : DataModel) (w : world) :
  let r1 := requests_get (request_for self (objects_url self)) in
  ∃ r qs,
    load requests_get self w = (r, add_trace (map EvGet qs) w) ∧
    map req_url qs =
      (if Z.eqb (status_code r1) 200 && bool_decide (is_Some (json r1))
       then [objects_url self; facts_url self] else [objects_url self]) ∧
    ∀ q, q ∈ qs →
      req_auth q =
        match username self with
        | Some u => if String.eqb u "" then None
                    else Some (Some u, password self)
        | None => None
        end ∧
      req_headers q = [("ACT-User-ID", pretty (user_id self));
                       ("Accept", "application/json")] ∧
      req_verify q = verify self.
Proof.
  intros r1.
  pose proof (load_spec requests_get self w) as Hl. cbv zeta in Hl.
  fold r1 in Hl.
  set (q1 := request_for self (objects_url self)) in *.
  set (q2 := request_for self (facts_url self)) in *.
  assert (Hq : ∀ u q, q = request_for self u →
            req_auth q =
              match username self with
              | Some u => if String.eqb u "" then None
                          else Some (Some u, password self)
              | None => None
              end ∧
            req_headers q = [("ACT-User-ID", pretty (user_id self));
                             ("Accept", "application/json")] ∧
            req_verify q = verify self).
  { intros u q ->. unfold request_for. simpl.
    destruct (username self) as [u' |]; [| done]. simpl.
    by destruct (String.eqb u' ""). }
  assert (H1 : ∀ q, q ∈ [q1] → ∃ u, q = request_for self u).
  { intros q ->%list_elem_of_singleton. by eexists. }
  assert (H2 : ∀ q, q ∈ [q1; q2] → ∃ u, q = request_for self u).
  { intros q [-> | ->%list_elem_of_singleton]%elem_of_cons; by eexists. }
  destruct (Z.eqb (status_code r1) 200).
  2: { exists (Ok (poisoned self (status_code r1))), [q1].
       split; [exact Hl |]. split; [done |].
       intros q [u Hu]%H1. by apply (Hq u). }
  destruct (json r1) as [v1 |].
  2: { exists (Raise JSONDecodeError), [q1].
       split; [exact Hl |]. split; [done |].
       intros q [u Hu]%H1. by apply (Hq u). }
  rewrite bool_decide_eq_true_2 by eauto. simpl andb. cbv iota.
  assert (Hr : ∃ r, load requests_get self w =
                      (r, add_trace (map EvGet [q1; q2]) w)).
  { rewrite Hl.
    destruct (Z.eqb (status_code (requests_get q2)) 200); [| eauto].
    destruct (json (requests_get q2)); eauto. }
  destruct Hr as [r Hr]. exists r, [q1; q2]. split; [exact Hr |].
  split; [done |]. intros q [u Hu]%H2. by apply (Hq u).
Qed.

(** ** Further properties of the views *)

Lemma objects_loop_raised_None l :
  raised (objects_loop l) = None ↔
  ∀ obj, obj ∈ l → truthy obj = true → ∃ name, subscript obj "name" = Ok name.
Proof.
  induction l as [| obj l IH]; simpl.
  - split; [| done]. intros _ obj Hobj. by apply elem_of_nil in Hobj.
  - destruct (truthy obj) eqn:Ht; simpl.
    + destruct (subscript obj "name") as [name | e] eqn:Hn; simpl.
      * rewrite IH. split.
        -- intros Hl o [-> | Ho]%elem_of_cons Hto; [eauto | by apply Hl].
        -- intros Hl o Ho. apply Hl. by apply elem_of_cons; right.
      * split; [discriminate |]. intros Hl.
        destruct (Hl obj) as [name Hname]; [by apply elem_of_cons; left | done |].
        congruence.
    + rewrite IH. split.
      * intros Hl o [-> | Ho]%elem_of_cons Hto; [congruence | by apply Hl].
      * intros Hl o Ho. apply Hl. by apply elem_of_cons; right.
Qed.

Lemma objects_loop_first_failure pre obj post e :
  raised (objects_loop pre) = None →
  truthy obj = true → subscript obj "name" = Raise e →
  raised (objects_loop (pre ++ obj :: post)) = Some e ∧
  yields (objects_loop (pre ++ obj :: post)) = yields (objects_loop pre) ∧
  printed (objects_loop (pre ++ obj :: post)) = printed (objects_loop pre).
Proof.
  intros Hpre Ht Hn. induction pre as [| o pre IH]; simpl in *.
  - by rewrite Ht, Hn.
  - destruct (negb (truthy o)); simpl in *.
    + destruct (IH Hpre) as (-> & -> & ->). done.
    + destruct (subscript o "name") as [name | e']; [| discriminate].
      simpl in *. destruct (IH Hpre) as (-> & -> & ->). done.
Qed.

(** X3. On a model whose object-type payload has a data list: [objects]
    runs to its end exactly when every non-empty entry has a name field;
    otherwise it stops at the first non-empty entry without one, having
    handed over the names (and printed the anomalies) of the entries before
    it, and raises that entry's exception; what follows the entry is never
    looked at. *)
Theorem objects_completes_iff (self : DataModel) (l : list pyval) :
  subscript (_objects self) "data" = Ok (PList l) →
  (raised (objects self) = None ↔
   ∀ obj, obj ∈ l → truthy obj = true → ∃ name, subscript obj "name" = Ok name) ∧
  (∀ pre obj post e,
     l = pre ++ obj :: post →
     (∀ o, o ∈ pre → truthy o = true → ∃ name, subscript o "name" = Ok name) →
     truthy obj = true → subscript obj "name" = Raise e →
     raised (objects self) = Some e ∧
     yields (objects self) = yields (objects_loop pre) ∧
     printed (objects self) = printed (objects_loop pre)).
Proof.
  intros Hd.
  assert (Ho : objects self = objects_loop l).
  { unfold objects. by rewrite (subscript_truthy _ _ _ Hd), Hd. }
  rewrite Ho. split.
  - apply objects_loop_raised_None.
  - intros pre obj post e -> Hpre Ht Hn.
    apply objects_loop_first_failure; [| done | done].
    by apply objects_loop_raised_None.
Qed.

Lemma bindings_loop_documented fact_name all_bindings bs k :
  let fact := fact_type fact_name all_bindings in
  let g := bindings_loop fact
             (map (fun b => binding (fst (fst b)) (snd (fst b)) (snd b)) bs) k in
  yields g = tuples_of (fact_name, bs) ++ yields k ∧
  raised g = raised k ∧
  printed g = printed k.
Proof.
  induction bs as [| [[s d] bi] bs IH]; [done |].
  destruct IH as (IHy & IHr & IHp). cbn zeta in *.
  destruct d as [d |]; simpl; unfold tuples_of in *; simpl in *;
    by rewrite IHy, IHr, IHp.
Qed.

Lemma facts_loop_documented cat :
  yields (facts_loop (map fact_entry_of cat)) = flat_map tuples_of cat ∧
  raised (facts_loop (map fact_entry_of cat)) = None ∧
  printed (facts_loop (map fact_entry_of cat)) = [].
Proof.
  induction cat as [| [n bs] cat IH]; [done |].
  destruct IH as (IHy & IHr & IHp).
  change (facts_loop (map fact_entry_of ((n, bs) :: cat)))
    with (facts_loop (fact_entry_of (n, bs) :: map fact_entry_of cat)).
  destruct bs as [| b bs].
  - simpl. by rewrite IHy, IHr, IHp.
  - pose proof (bindings_loop_documented n
                  (map (fun b => binding (fst (fst b)) (snd (fst b)) (snd b))
                     (b :: bs))
                  (b :: bs) (facts_loop (map fact_entry_of cat)))
      as (Hy & Hr & Hp).
    cbn zeta in *.
    change (facts_loop (fact_entry_of (n, b :: bs) :: map fact_entry_of cat))
      with (bindings_loop
              (fact_type n
                 (map (fun b => binding (fst (fst b)) (snd (fst b)) (snd b))
                    (b :: bs)))
              (map (fun b => binding (fst (fst b)) (snd (fst b)) (snd b))
                 (b :: bs))
              (facts_loop (map fact_entry_of cat))).
    rewrite Hy, Hr, Hp, IHy, IHr, IHp. done.
Qed.

(** X4. On catalogs of the documented shape both views run to their end
    without printing: [objects] hands over the names in catalog order, and
    [facts] hands over exactly one tuple per binding, fact by fact and
    binding by binding in catalog order; a fact without bindings gives
    none, and a binding without destination gives [None] as its third
    component. *)
Theorem views_of_documented_catalogs (self : DataModel) (names : list string)
    (cat : list (string * list (string * option string * bool))) :
  _objects self = catalog (map object_type names) →
  _facts self = catalog (map fact_entry_of cat) →
  (raised (objects self) = None ∧ printed (objects self) = [] ∧
   yields (objects self) = map PStr names) ∧
  (raised (facts self) = None ∧ printed (facts self) = [] ∧
   yields (facts self) = flat_map tuples_of cat).
Proof.
  intros Ho Hf. split.
  - unfold objects. rewrite Ho. simpl. clear.
    induction names as [| n names (IHr & IHp & IHy)]; [done |].
    simpl. by rewrite IHr, IHp, IHy.
  - unfold facts. rewrite Hf. simpl.
    destruct (facts_loop_documented cat) as (Hy & Hr & Hp). done.
Qed.

(** ** Further properties of the comparison *)

Lemma py_set_raises `{Countable K} {A} (hash : A → result K) (g : gen A) acc :
  produced_set hash g = None →
  ∃ e prints, ∀ w, py_set hash g acc w = (Raise e, add_trace (map EvPrint prints) w).
Proof.
  revert acc. induction g as [| e | args k IH | a k IH]; intros acc Hp.
  - discriminate.
  - exists e, []. intros w. simpl. by rewrite add_trace_nil.
  - rewrite produced_set_print in Hp.
    destruct (IH acc Hp) as (e & prints & Hk). exists e, (args :: prints).
    intros w. simpl. erewrite bind_ok by reflexivity.
    by rewrite Hk, add_trace_app.
  - rewrite produced_set_yield in Hp. simpl.
    destruct (hash a) as [h | e] eqn:Ha.
    + destruct (produced_set hash k) eqn:Hk; [discriminate |].
      destruct (IH ({[h]} ∪ acc) eq_refl) as (e & prints & Hk').
      exists e, prints. intros w. erewrite bind_ok by reflexivity. apply Hk'.
    + exists e, []. intros w. erewrite bind_raise by reflexivity.
      by rewrite add_trace_nil.
Qed.

(** X5. The object sets are compared first, and the fact views are only
    read when they agree: when the two object sets differ, [==] returns
    [False] having printed only what the two object views print, whatever
    the fact views would do (print, or raise). *)
Theorem eq_short_circuits (a b : DataModel) (w : world) (oa ob : gset hkey) :
  produced_set py_hash (objects a) = Some oa →
  produced_set py_hash (objects b) = Some ob →
  oa ≠ ob →
  __eq__ a b w =
    (Ok false,
     add_trace (map EvPrint (printed (objects a) ++ printed (objects b))) w).
Proof.
  intros Hoa Hob Hne. unfold __eq__.
  erewrite bind_ok by (apply py_set_produced, Hoa).
  erewrite bind_ok by (apply py_set_produced, Hob).
  rewrite bool_decide_eq_false_2 by done.
  unfold mret, M_ret. by rewrite add_trace_app, map_app.
Qed.

(** X6. When [==] returns at all: it returns a verdict exactly when both
    object views materialise and either their sets differ or both fact
    views materialise too; in every other case it raises. *)
Theorem eq_returns_iff (a b : DataModel) (w : world) :
  (∃ verdict, fst (__eq__ a b w) = Ok verdict) ↔
  ∃ oa ob,
    produced_set py_hash (objects a) = Some oa ∧
    produced_set py_hash (objects b) = Some ob ∧
    (oa ≠ ob ∨
     (is_Some (produced_set hash_tuple (facts a)) ∧
      is_Some (produced_set hash_tuple (facts b)))).
Proof.
  destruct (produced_set py_hash (objects a)) as [oa |] eqn:Hoa.
  2: { destruct (py_set_raises py_hash (objects a) ∅ Hoa) as (e & p & He).
       split; [| by intros (? & ? & ? & _)].
       intros [v Hv]. unfold __eq__ in Hv.
       erewrite bind_raise in Hv by apply He. discriminate. }
  destruct (produced_set py_hash (objects b)) as [ob |] eqn:Hob.
  2: { destruct (py_set_raises py_hash (objects b) ∅ Hob) as (e & p & He).
       split; [| by intros (? & ? & _ & ? & _)].
       intros [v Hv]. unfold __eq__ in Hv.
       erewrite bind_ok in Hv by (apply py_set_produced, Hoa).
       erewrite bind_raise in Hv by apply He. discriminate. }
  destruct (decide (oa = ob)) as [Heq | Hne].
  2: { split.
       - intros _. exists oa, ob. auto.
       - intros _. exists false. unfold __eq__.
         erewrite bind_ok by (apply py_set_produced, Hoa).
         erewrite bind_ok by (apply py_set_produced, Hob).
         by rewrite bool_decide_eq_false_2. }
  destruct (produced_set hash_tuple (facts a)) as [fa |] eqn:Hfa.
  2: { destruct (py_set_raises hash_tuple (facts a) ∅ Hfa) as (e & p & He).
       split.
       - intros [v Hv]. unfold __eq__ in Hv.
         erewrite bind_ok in Hv by (apply py_set_produced, Hoa).
         erewrite bind_ok in Hv by (apply py_set_produced, Hob).
         rewrite bool_decide_eq_true_2 in Hv by done.
         erewrite bind_raise in Hv by apply He. discriminate.
       - intros (? & ? & [= <-] & [= <-] & [? | [[? ?] _]]); done. }
  destruct (produced_set hash_tuple (facts b)) as [fb |] eqn:Hfb.
  2: { destruct (py_set_raises hash_tuple (facts b) ∅ Hfb) as (e & p & He).
       split.
       - intros [v Hv]. unfold __eq__ in Hv.
         erewrite bind_ok in Hv by (apply py_set_produced, Hoa).
         erewrite bind_ok in Hv by (apply py_set_produced, Hob).
         rewrite bool_decide_eq_true_2 in Hv by done.
         erewrite bind_ok in Hv by (apply py_set_produced, Hfa).
         erewrite bind_raise in Hv by apply He. discriminate.
       - intros (? & ? & [= <-] & [= <-] & [? | [_ [? ?]]]); done. }
  split.
  - intros _. exists oa, ob. eauto 10.
  - intros _. eexists. by rewrite (eq_spec a b oa ob fa fb w).
Qed.

(** X7. On models whose views materialise, [==] is an equivalence: the
    verdict is the same in both directions, and two verdicts [True] that
    share a model chain. *)
Theorem eq_symmetric_transitive (a b c : DataModel) (w : world) :
  materialises a → materialises b → materialises c →
  fst (__eq__ a b w) = fst (__eq__ b a w) ∧
  (fst (__eq__ a b w) = Ok true → fst (__eq__ b c w) = Ok true →
   fst (__eq__ a c w) = Ok true).
Proof.
  intros [[oa Hoa] [fa Hfa]] [[ob Hob] [fb Hfb]] [[oc Hoc] [fc Hfc]].
  rewrite (eq_spec a b oa ob fa fb w), (eq_spec b a ob oa fb fa w),
    (eq_spec b c ob oc fb fc w), (eq_spec a c oa oc fa fc w) by done.
  simpl. split.
  - f_equal. apply bool_decide_ext. naive_solver.
  - intros [= [-> ->]%bool_decide_eq_true] [= [-> ->]%bool_decide_eq_true].
    by rewrite bool_decide_eq_true_2.
Qed.

(** ** Further properties of the run *)

Lemma subscript_raises v key e :
  subscript v key = Raise e → e = TypeError ∨ e = KeyError key.
Proof.
  destruct v as [| | | | | kvs]; simpl; try (intros [= <-]; by left).
  destruct (dict_get key kvs); [discriminate |]. intros [= <-]. by right.
Qed.

Lemma py_iter_raises v e : py_iter v = Raise e → e = TypeError.
Proof. destruct v; simpl; congruence. Qed.

Lemma binding_tuple_raises fact b e :
  binding_tuple fact b = Raise e → e = TypeError ∨ ∃ key, e = KeyError key.
Proof.
  unfold binding_tuple.
  assert (Hs : ∀ v key e', subscript v key = Raise e' →
                 e' = TypeError ∨ ∃ key, e' = KeyError key).
  { intros v key e' [-> | ->]%subscript_raises; eauto. }
  destruct (subscript fact "name") as [? | ?] eqn:H1; simpl;
    [| intros [= <-]; eauto].
  destruct (subscript b "sourceObjectType") as [src | ?] eqn:H2; simpl;
    [| intros [= <-]; eauto].
  destruct (subscript src "name") as [? | ?] eqn:H3; simpl;
    [| intros [= <-]; eauto].
  destruct (subscript b "destinationObjectType") as [dst | ?] eqn:H4; simpl;
    [| intros [= <-]; eauto].
  destruct (truthy dst); simpl.
  - destruct (subscript dst "name") as [? | ?] eqn:H5; simpl;
      [| intros [= <-]; eauto].
    destruct (subscript b "bidirectionalBinding") as [? | ?] eqn:H6; simpl;
      [discriminate | intros [= <-]; eauto].
  - destruct (subscript b "bidirectionalBinding") as [? | ?] eqn:H6; simpl;
      [discriminate | intros [= <-]; eauto].
Qed.

Lemma bindings_loop_raises fact bs k e :
  raised (bindings_loop fact bs k) = Some e →
  (e = TypeError ∨ ∃ key, e = KeyError key) ∨ raised k = Some e.
Proof.
  induction bs as [| b bs IH]; simpl; [auto |].
  destruct (binding_tuple fact b) as [t | e'] eqn:Hb; simpl; [exact IH |].
  intros [= <-]. left. by eapply binding_tuple_raises.
Qed.

Lemma facts_loop_raises l e :
  raised (facts_loop l) = Some e → e = TypeError ∨ ∃ key, e = KeyError key.
Proof.
  induction l as [| fact l IH]; simpl; [discriminate |].
  destruct (negb (truthy fact)); simpl; [exact IH |].
  destruct (subscript fact "relevantObjectBindings") as [bindings | e'] eqn:Hs;
    simpl.
  2: { intros [= <-]. apply subscript_raises in Hs as [-> | ->]; eauto. }
  destruct (negb (truthy bindings)); [exact IH |].
  destruct (py_iter bindings) as [bs | e'] eqn:Hi; simpl.
  2: { intros [= <-]. left. by eapply py_iter_raises. }
  intros [He | Hk]%bindings_loop_raises; auto.
Qed.

Lemma objects_loop_raises l e :
  raised (objects_loop l) = Some e → e = TypeError ∨ ∃ key, e = KeyError key.
Proof.
  induction l as [| obj l IH]; simpl; [discriminate |].
  destruct (negb (truthy obj)); simpl; [exact IH |].
  destruct (subscript obj "name") as [name | e'] eqn:Hs; simpl; [exact IH |].
  intros [= <-]. apply subscript_raises in Hs as [-> | ->]; eauto.
Qed.

Lemma views_raise_kinds_aux (self : DataModel) (e : exn) :
  raised (objects self) = Some e ∨ raised (facts self) = Some e →
  e = TypeError ∨ ∃ key, e = KeyError key.
Proof.
  assert (Hview : ∀ {A} (payload : pyval) (loop : list pyval → gen A),
            (∀ l e, raised (loop l) = Some e →
                    e = TypeError ∨ ∃ key, e = KeyError key) →
            raised (match subscript payload "data" with
                    | Raise e => GRaise e
                    | Ok data => match py_iter data with
                                 | Raise e => GRaise e
                                 | Ok l => loop l
                                 end
                    end) = Some e →
            e = TypeError ∨ ∃ key, e = KeyError key).
  { intros A payload loop Hloop.
    destruct (subscript payload "data") as [data | e'] eqn:Hs; simpl.
    2: { intros [= <-]. apply subscript_raises in Hs as [-> | ->]; eauto. }
    destruct (py_iter data) as [l | e'] eqn:Hi; simpl; [apply Hloop |].
    intros [= <-]. left. by eapply py_iter_raises. }
  intros [Ho | Hf].
  - unfold objects in Ho.
    destruct (negb (truthy (_objects self))); [discriminate |].
    by apply (Hview _ _ _ objects_loop_raises) in Ho.
  - unfold facts in Hf.
    destruct (negb (truthy (_facts self))); [discriminate |].
    by apply (Hview _ _ _ facts_loop_raises) in Hf.
Qed.

(** X8. The two views raise nothing but [KeyError] and [TypeError]. *)
Theorem views_raise_KeyError_or_TypeError (self : DataModel) (e : exn) :
  raised (objects self) = Some e ∨ raised (facts self) = Some e →
  e = TypeError ∨ ∃ key, e = KeyError key.
Proof.
  intros [Ho | Hf].
  - unfold objects in Ho. destruct (negb (truthy (_objects self))); [discriminate |].
    destruct (subscript (_objects self) "data") as [data | e'] eqn:Hs; simpl in Ho.
    2: { injection Ho as <-. apply subscript_raises in Hs as [-> | ->]; eauto. }
    destruct (py_iter data) as [l | e'] eqn:Hi; simpl in Ho.
    + by eapply objects_loop_raises.
    + injection Ho as <-. left. by eapply py_iter_raises.
  - unfold facts in Hf. destruct (negb (truthy (_facts self))); [discriminate |].
    destruct (subscript (_facts self) "data") as [data | e'] eqn:Hs; simpl in Hf.
    2: { injection Hf as <-. apply subscript_raises in Hs as [-> | ->]; eauto. }
    destruct (py_iter data) as [l | e'] eqn:Hi; simpl in Hf.
    + by eapply facts_loop_raises.
    + injection Hf as <-. left. by eapply py_iter_raises.
Qed.

(** After a successful fetch, [run] is the snapshot gate applied to the
    loaded model. *)
Lemma run_fetched urljoin requests_get now args w v1 v2 :
  let dm0 := __init__ urljoin (url args) (http_username args)
               (http_password args) (uid args) (cacert args) in
  let q1 := request_for dm0 (objects_url dm0) in
  let q2 := request_for dm0 (facts_url dm0) in
  let dm := with_status (with_facts (with_objects dm0 v1) v2) 200 in
  status_code (requests_get q1) = 200 → json (requests_get q1) = Some v1 →
  status_code (requests_get q2) = 200 → json (requests_get q2) = Some v2 →
  run urljoin requests_get now args w =
    (try_except_FileNotFoundError
       (pickle_load ≫= fun old_dm => __eq__ old_dm dm)
       (print [PStr "First run"] ≫= fun _ => mret false)
     ≫= fun unchanged : bool =>
          if unchanged then (mret () : M unit)
          else graph_changes now args dm)
      (add_trace [EvGet q1; EvGet q2] w).
Proof.
  intros dm0 q1 q2 dm H1 Hj1 H2 Hj2.
  pose proof (load_spec requests_get dm0 w) as Hl.
  cbv zeta in Hl. fold q1 q2 in Hl.
  rewrite H1, Hj1, H2, Hj2 in Hl. simpl in Hl. fold dm in Hl.
  unfold run. fold dm0. erewrite bind_ok by exact Hl.
  unfold dm at 1 2. rewrite !status_loaded.
  rewrite bool_decide_eq_true_2 by reflexivity. reflexivity.
Qed.

(** The gate on a snapshot that compares equal: the run ends there. *)
Lemma gate_unchanged now args dm old_dm w :
  cache_dat w = Some old_dm →
  fst (__eq__ old_dm dm w) = Ok true →
  ∃ prints,
    (try_except_FileNotFoundError
       (pickle_load ≫= fun old_dm => __eq__ old_dm dm)
       (print [PStr "First run"] ≫= fun _ => mret false)
     ≫= fun unchanged : bool =>
          if unchanged then (mret () : M unit)
          else graph_changes now args dm) w =
      (Ok (),
       add_trace ([EvOpen "cache.dat" "rb"; EvPickleLoad] ++ map EvPrint prints) w).
Proof.
  intros Hc Heq.
  destruct (eq_total old_dm dm) as (r & prints & Hr).
  rewrite Hr in Heq. simpl in Heq. subst r. exists prints.
  pose proof (pickle_load_spec w) as Hp. rewrite Hc in Hp.
  erewrite bind_ok.
  2: { apply try_ok. erewrite bind_ok by exact Hp. by rewrite Hr, add_trace_app. }
  reflexivity.
Qed.

(** The gate leaves in [cache.dat] a snapshot that compares equal to the
    fetched model, whenever the comparison can be made. *)
Lemma gate_snapshot now args dm w :
  materialises dm →
  (∀ old_dm, cache_dat w = Some old_dm → materialises old_dm) →
  let w1 := snd ((try_except_FileNotFoundError
                    (pickle_load ≫= fun old_dm => __eq__ old_dm dm)
                    (print [PStr "First run"] ≫= fun _ => mret false)
                  ≫= fun unchanged : bool =>
                       if unchanged then (mret () : M unit)
                       else graph_changes now args dm) w) in
  ∃ snapshot, cache_dat w1 = Some snapshot ∧
              ∀ w', fst (__eq__ snapshot dm w') = Ok true.
Proof.
  intros [[oa Hoa] [fa Hfa]] Hold.
  assert (Hrefl : ∀ w', fst (__eq__ dm dm w') = Ok true).
  { intros w'. rewrite (eq_spec dm dm oa oa fa fa w') by done. simpl.
    by rewrite bool_decide_eq_true_2. }
  assert (Hgraph : ∀ w2,
            cache_dat (snd (graph_changes now args dm w2)) = Some dm).
  { intros w2. by destruct (graph_changes_spec now args dm w2) as (r & rest & ->). }
  pose proof (pickle_load_spec w) as Hp.
  destruct (cache_dat w) as [old_dm |] eqn:Hc.
  - destruct (Hold old_dm eq_refl) as [[oo Hoo] [fo Hfo]].
    pose proof (eq_spec old_dm dm oo oa fo fa) as Hspec.
    cbv zeta. erewrite bind_ok.
    2: { apply try_ok. erewrite bind_ok by exact Hp. by apply Hspec. }
    destruct (bool_decide (oo = oa ∧ fo = fa)) eqn:Hd.
    + exists old_dm. split; [exact Hc |]. intros w'.
      rewrite (Hspec w' Hoo Hoa Hfo Hfa). simpl. by rewrite ?Hd.
    + exists dm. split; [apply Hgraph | exact Hrefl].
  - cbv zeta. erewrite bind_ok.
    2: { erewrite try_caught by (erewrite bind_raise by exact Hp; reflexivity).
         apply first_run_spec. }
    exists dm. split; [apply Hgraph | exact Hrefl].
Qed.

(** X9. Steady state. After a run with a successful fetch of a catalog
    whose views materialise, a second run that fetches the same catalog
    sends the two requests, loads the snapshot, compares, and returns: it
    prints nothing but what the views print, creates no graph, and leaves
    [cache.dat] as the first run left it. This holds whether the first run
    found no snapshot, an equal one or a different one. *)
Theorem run_again_stops_at_the_gate urljoin requests_get (now : string)
    (args : Namespace) (w : world) (v1 v2 : pyval) :
  let dm0 := __init__ urljoin (url args) (http_username args)
               (http_password args) (uid args) (cacert args) in
  let q1 := request_for dm0 (objects_url dm0) in
  let q2 := request_for dm0 (facts_url dm0) in
  let dm := with_status (with_facts (with_objects dm0 v1) v2) 200 in
  status_code (requests_get q1) = 200 → json (requests_get q1) = Some v1 →
  status_code (requests_get q2) = 200 → json (requests_get q2) = Some v2 →
  materialises dm →
  (∀ old_dm, cache_dat w = Some old_dm → materialises old_dm) →
  let w1 := snd (run urljoin requests_get now args w) in
  is_Some (cache_dat w1) ∧
  ∃ prints,
    run urljoin requests_get now args w1 =
      (Ok (),
       add_trace
         ([EvGet q1; EvGet q2; EvOpen "cache.dat" "rb"; EvPickleLoad] ++
          map EvPrint prints) w1).
Proof.
  intros dm0 q1 q2 dm H1 Hj1 H2 Hj2 Hdm Hold w1.
  pose proof (run_fetched urljoin requests_get now args w v1 v2
                H1 Hj1 H2 Hj2) as Hrun1.
  pose proof (run_fetched urljoin requests_get now args w1 v1 v2
                H1 Hj1 H2 Hj2) as Hrun2.
  fold dm0 q1 q2 dm in Hrun1, Hrun2.
  destruct (gate_snapshot now args dm (add_trace [EvGet q1; EvGet q2] w) Hdm Hold)
    as (snapshot & Hsnap & Heq).
  rewrite <- Hrun1 in Hsnap. fold w1 in Hsnap.
  split; [by rewrite Hsnap |].
  destruct (gate_unchanged now args dm snapshot
              (add_trace [EvGet q1; EvGet q2] w1) Hsnap (Heq _))
    as (prints & Hgate).
  exists prints. rewrite Hrun2, Hgate, add_trace_app. done.
Qed.

Lemma py_hash_raises v e : py_hash v = Raise e → e = TypeError.
Proof. destruct v; simpl; congruence. Qed.

Lemma hash_tuple_raises t e : hash_tuple t = Raise e → e = TypeError.
Proof.
  destruct t as [[[name s] d] di]. unfold hash_tuple.
  destruct (py_hash name) eqn:H1; simpl; [| intros [= <-]; by eapply py_hash_raises].
  destruct (py_hash s) eqn:H2; simpl; [| intros [= <-]; by eapply py_hash_raises].
  destruct (py_hash d) eqn:H3; simpl; [| intros [= <-]; by eapply py_hash_raises].
  destruct (py_hash di) eqn:H4; simpl; [discriminate |].
  intros [= <-]. by eapply py_hash_raises.
Qed.

(** A [set(...)] that fails raises what the generator raised or what the
    hashing raised. *)
Lemma py_set_raises_kind `{Countable K} {A} (hash : A → result K) (g : gen A)
    (P : exn → Prop) acc :
  (∀ a e, hash a = Raise e → P e) →
  (∀ e, raised g = Some e → P e) →
  produced_set hash g = None →
  ∃ e prints,
    P e ∧ ∀ w, py_set hash g acc w = (Raise e, add_trace (map EvPrint prints) w).
Proof.
  intros Hhash. revert acc.
  induction g as [| e | args k IH | a k IH]; intros acc Hr Hp.
  - discriminate.
  - exists e, []. split; [by apply Hr |].
    intros w. simpl. by rewrite add_trace_nil.
  - rewrite produced_set_print in Hp.
    destruct (IH acc Hr Hp) as (e & prints & HP & Hk).
    exists e, (args :: prints). split; [done |].
    intros w. simpl. erewrite bind_ok by reflexivity.
    by rewrite Hk, add_trace_app.
  - rewrite produced_set_yield in Hp. simpl.
    destruct (hash a) as [h | e] eqn:Ha.
    + destruct (produced_set hash k) eqn:Hk; [discriminate |].
      destruct (IH ({[h]} ∪ acc) Hr eq_refl) as (e & prints & HP & Hk').
      exists e, prints. split; [done |].
      intros w. erewrite bind_ok by reflexivity. apply Hk'.
    + exists e, []. split; [by eapply Hhash |].
      intros w. erewrite bind_raise by reflexivity. by rewrite add_trace_nil.
Qed.

Lemma produced_set_raised `{Countable K} {A} (hash : A → result K) (g : gen A) e :
  raised g = Some e → produced_set hash g = None.
Proof. intros Hr. unfold produced_set. by rewrite Hr. Qed.

(** X10. Write, then render. On a first run (no [cache.dat]) whose fetched
    fact catalog makes [facts] raise, after tuples that the double-edge loop
    takes, the snapshot is written before the failure: the run ends with
    that exception in the first graph loop, nothing has been rendered or
    uploaded, and [cache.dat] holds the fetched model. A later run that
    fetches the same catalog then fails in the comparison, before any graph
    is created, and leaves [cache.dat] as it is. *)
Theorem run_failure_after_snapshot urljoin requests_get (now : string)
    (args : Namespace) (w : world) (v1 v2 : pyval) (e : exn) (oa : gset hkey) :
  let dm0 := __init__ urljoin (url args) (http_username args)
               (http_password args) (uid args) (cacert args) in
  let q1 := request_for dm0 (objects_url dm0) in
  let q2 := request_for dm0 (facts_url dm0) in
  let dm := with_status (with_facts (with_objects dm0 v1) v2) 200 in
  status_code (requests_get q1) = 200 → json (requests_get q1) = Some v1 →
  status_code (requests_get q2) = 200 → json (requests_get q2) = Some v2 →
  cache_dat w = None →
  produced_set py_hash (objects dm) = Some oa →
  raised (facts dm) = Some e →
  Forall (fun t => double_takes t = true) (yields (facts dm)) →
  let w1 :=
    with_cache dm
      (add_trace
         ([EvGet q1; EvGet q2; EvOpen "cache.dat" "rb"; EvPrint [PStr "First run"];
           EvPrint [PStr (now +:+ " Graphing changes")];
           EvOpen "cache.dat" "wb"; EvPickleDump dm;
           EvDigraph "Double edge facts"] ++
          map EvPrint (printed (facts dm))) w) in
  run urljoin requests_get now args w = (Raise e, w1) ∧
  ∃ e' prints,
    run urljoin requests_get now args w1 =
      (Raise e',
       add_trace
         ([EvGet q1; EvGet q2; EvOpen "cache.dat" "rb"; EvPickleLoad] ++
          map EvPrint prints) w1).
Proof.
  intros dm0 q1 q2 dm H1 Hj1 H2 Hj2 Hc Hoa Hf Htakes w1.
  pose proof (run_fetched urljoin requests_get now args w v1 v2
                H1 Hj1 H2 Hj2) as Hrun1.
  pose proof (run_fetched urljoin requests_get now args w1 v1 v2
                H1 Hj1 H2 Hj2) as Hrun2.
  fold dm0 q1 q2 dm in Hrun1, Hrun2. split.
  - rewrite Hrun1.
    pose proof (pickle_load_spec (add_trace [EvGet q1; EvGet q2] w)) as Hp.
    simpl cache_dat in Hp. rewrite Hc in Hp.
    erewrite bind_ok.
    2: { erewrite try_caught by (erewrite bind_raise by exact Hp; reflexivity).
         apply first_run_spec. }
    cbv beta iota. unfold graph_changes, pickle_dump.
    erewrite bind_ok by reflexivity.
    erewrite bind_ok by
      (erewrite bind_ok by reflexivity; erewrite bind_ok by reflexivity;
       reflexivity).
    erewrite bind_raise.
    2: { unfold double_graph, new_Digraph.
         erewrite bind_ok by (erewrite bind_ok by reflexivity; reflexivity).
         erewrite bind_raise; [reflexivity |].
         rewrite (for_each_appends _ _ double_calls), Hf; [reflexivity |].
         eapply Forall_impl; [exact Htakes |].
         intros t Ht dot. by apply double_body_takes. }
    rewrite !add_trace_with_cache, !add_trace_app. reflexivity.
  - rewrite Hrun2.
    pose proof (pickle_load_spec (add_trace [EvGet q1; EvGet q2] w1)) as Hp.
    simpl cache_dat in Hp.
    destruct (py_set_raises_kind hash_tuple (facts dm)
                (fun e => e ≠ FileNotFoundError) ∅) as (e' & prints & He' & Hset).
    { intros t e0 ->%hash_tuple_raises. done. }
    { intros e0 He0.
      destruct (views_raise_kinds_aux dm e0) as [-> | [key ->]]; [by right | done | done]. }
    { by eapply produced_set_raised. }
    exists e', (printed (objects dm) ++ printed (objects dm) ++ prints).
    erewrite bind_raise.
    2: { apply try_uncaught; [| exact He'].
         erewrite bind_ok by exact Hp. unfold __eq__.
         erewrite bind_ok by (apply py_set_produced, Hoa).
         erewrite bind_ok by (apply py_set_produced, Hoa).
         rewrite bool_decide_eq_true_2 by done.
         erewrite bind_raise by apply Hset. reflexivity. }
    rewrite !add_trace_app, !map_app. reflexivity.
Qed.

(** ** Further properties of the graphs *)

Lemma endpoints_declared_node calls name label shape :
  endpoints_declared calls → endpoints_declared (calls ++ [DotNode name label shape]).
Proof.
  intros Hd pre t h l dir post Heq.
  destruct post as [| c post _] using rev_ind.
  - apply app_inj_tail in Heq as [_ [=]].
  - rewrite app_comm_cons, app_assoc in Heq.
    apply app_inj_tail in Heq as [Heq _]. by eapply Hd.
Qed.

Lemma endpoints_declared_edge calls tail head label dir s1 s2 :
  endpoints_declared calls →
  DotNode tail tail s1 ∈ calls → DotNode head head s2 ∈ calls →
  endpoints_declared (calls ++ [DotEdge tail head label dir]).
Proof.
  intros Hd Ht Hh pre t h l d post Heq.
  destruct post as [| c post _] using rev_ind.
  - apply app_inj_tail in Heq as [-> [= -> -> _ _]]. eauto.
  - rewrite app_comm_cons, app_assoc in Heq.
    apply app_inj_tail in Heq as [Heq _]. by eapply Hd.
Qed.

Lemma labelled_by_name_snoc calls c :
  labelled_by_name calls →
  (∀ name label shape, c = DotNode name label shape → label = name) →
  labelled_by_name (calls ++ [c]).
Proof.
  intros Hl Hc name label shape [Hin | Heq%list_elem_of_singleton]%elem_of_app.
  - by eapply Hl.
  - symmetry in Heq. by eapply Hc.
Qed.

(** X11. In each of the three graphs every edge joins two nodes that were
    declared earlier in the same graph, and every node is labelled with its
    own name: no loop ever adds an edge to an undeclared node. *)
Theorem graphs_declare_before_use (dm : DataModel) (w : world)
    (dot dot' : Digraph) :
  endpoints_declared (body dot) → labelled_by_name (body dot) →
  fst (for_each (facts dm) double_body dot w) = Ok dot' ∨
  fst (for_each (facts dm) single_body dot w) = Ok dot' ∨
  fst (for_each (facts dm) complete_body dot w) = Ok dot' ∨
  fst (for_each (objects dm) object_body dot w) = Ok dot' →
  endpoints_declared (body dot') ∧ labelled_by_name (body dot').
Proof.
  intros Hd Hl.
  set (I := fun calls : list dot_call =>
              endpoints_declared calls ∧ labelled_by_name calls).
  assert (Hnode : ∀ n sh calls, I calls → I (calls ++ [DotNode n n sh])).
  { intros n sh calls [? ?]. split.
    - by apply endpoints_declared_node.
    - apply labelled_by_name_snoc; [done |]. by intros ? ? ? [= -> -> _]. }
  assert (Hedge : ∀ t h l dir sh1 sh2 calls,
            I calls → DotNode t t sh1 ∈ calls → DotNode h h sh2 ∈ calls →
            I (calls ++ [DotEdge t h l dir])).
  { intros t h l dir sh1 sh2 calls [? ?] Ht Hh. split.
    - by eapply endpoints_declared_edge.
    - apply labelled_by_name_snoc; [done |]. by intros ? ? ?. }
  assert (Hpair : ∀ s d0 name dir calls, I calls →
            I (calls ++ [DotNode s s None; DotNode d0 d0 None;
                         DotEdge s d0 (Some name) dir])).
  { intros s d0 name dir calls HI.
    change (I (calls ++ [DotNode s s None] ++ [DotNode d0 d0 None] ++
                 [DotEdge s d0 (Some name) dir])).
    rewrite !app_assoc.
    eapply (Hedge _ _ _ _ None None); [by apply Hnode, Hnode | |]; set_solver. }
  assert (Hnil : ∀ calls, I calls → I (calls ++ [])).
  { intros calls. by rewrite app_nil_r. }
  intros [H | [H | [H | H]]];
    eapply (for_each_invariant _ _ (fun d => I (body d))) in H; try done.
  - intros [[[name s] d0] di] x x' HI ->%double_body_inv. simpl.
    destruct (_ || _); [by apply Hnil | by apply Hpair].
  - intros [[[name s] d0] di] x x' HI ->%single_body_inv. simpl.
    destruct (truthy d0); [by apply Hnil |].
    change (I (body x ++ [DotNode name name (Some "diamond")] ++
                 [DotNode s s None] ++ [DotEdge s name None None])).
    rewrite !app_assoc.
    eapply (Hedge _ _ _ _ None (Some "diamond"));
      [by apply Hnode, Hnode | |]; set_solver.
  - intros [[[name s] d0] di] x x' HI ->%complete_body_inv. simpl.
    destruct (negb _); [by apply Hnil | by apply Hpair].
  - intros obj x x' HI ->%object_body_inv. simpl. by apply Hnode.
Qed.

(** X12. The double-edge graph is contained in the complete graph: read
    from the same facts, every call the double-edge loop makes is also made
    by the complete loop, in the same order. *)
Theorem double_within_complete (dm : DataModel) (w : world)
    (d1 d2 g1 g2 : Digraph) :
  sublist (body d1) (body d2) →
  fst (for_each (facts dm) double_body d1 w) = Ok g1 →
  fst (for_each (facts dm) complete_body d2 w) = Ok g2 →
  sublist (body g1) (body g2).
Proof.
  intros Hsub H1 H2.
  apply (for_each_appends_inv _ _ double_calls) in H1;
    [| intros; by apply double_body_inv].
  apply (for_each_appends_inv _ _ complete_calls) in H2;
    [| intros; by apply complete_body_inv].
  subst g1 g2. simpl. apply sublist_app; [done |].
  induction (yields (facts dm)) as [| t l IH]; simpl; [done |].
  apply sublist_app; [| exact IH].
  destruct t as [[[name s] d] di]. unfold double_calls, complete_calls.
  destruct (py_eq_str name "mentions"), (negb (truthy d)); simpl;
    try done; apply sublist_nil_l.
Qed.

Lemma edges_app calls1 calls2 :
  edges (calls1 ++ calls2) = (edges calls1 + edges calls2)%nat.
Proof. unfold edges. by rewrite filter_app, length_app. Qed.

(** X13. No binding is lost and none is drawn twice: every tuple of
    [facts] adds exactly one edge, either to the single-edge graph (no
    destination) or to the complete graph (a destination), never to both.
    So the edges the two loops add together number the tuples of [facts]. *)
Theorem every_binding_is_one_edge (dm : DataModel) (w : world)
    (d1 d2 g1 g2 : Digraph) :
  fst (for_each (facts dm) single_body d1 w) = Ok g1 →
  fst (for_each (facts dm) complete_body d2 w) = Ok g2 →
  (edges (body g1) + edges (body g2) =
   edges (body d1) + edges (body d2) + length (yields (facts dm)))%nat.
Proof.
  intros H1 H2.
  apply (for_each_appends_inv _ _ single_calls) in H1;
    [| intros; by apply single_body_inv].
  apply (for_each_appends_inv _ _ complete_calls) in H2;
    [| intros; by apply complete_body_inv].
  subst g1 g2. simpl. rewrite !edges_app.
  assert (Hl : (edges (flat_map single_calls (yields (facts dm))) +
                edges (flat_map complete_calls (yields (facts dm))) =
                length (yields (facts dm)))%nat).
  { induction (yields (facts dm)) as [| t l IH]; simpl; [done |].
    rewrite !edges_app.
    set (n1 := edges (flat_map single_calls l)) in *.
    set (n2 := edges (flat_map complete_calls l)) in *. clearbody n1 n2.
    destruct t as [[[name s] d] di]. unfold single_calls, complete_calls.
    destruct (truthy d); simpl; unfold edges; simpl; lia. }
  lia.
Qed.

(** ** What a run never does *)

Section Only.
Context (P : event → Prop).

Lemma only_ret {A} (a : A) : only P (mret a).
Proof.
  intros w. exists (Ok a), [], (cache_dat w). split; [| done].
  unfold mret, M_ret. rewrite app_nil_r. by destruct w.
Qed.

Lemma only_throw {A} (e : exn) : only P (throw e : M A).
Proof.
  intros w. exists (Raise e), [], (cache_dat w). split; [| done].
  unfold throw. rewrite app_nil_r. by destruct w.
Qed.

Lemma only_lift {A} (r : result A) : only P (lift r).
Proof.
  intros w. exists r, [], (cache_dat w). split; [| done].
  unfold lift. rewrite app_nil_r. by destruct w.
Qed.

Lemma only_emit (e : event) : P e → only P (emit e).
Proof.
  intros He w. exists (Ok ()), [e], (cache_dat w). split; [done |].
  by apply Forall_singleton.
Qed.

Lemma only_bind {A B} (m : M A) (f : A → M B) :
  only P m → (∀ a, only P (f a)) → only P (m ≫= f).
Proof.
  intros Hm Hf w. destruct (Hm w) as (r & es & cd & Hr & Hes).
  destruct r as [a | e].
  - destruct (Hf a {| trace := trace w ++ es; cache_dat := cd |})
      as (r' & es' & cd' & Hr' & Hes').
    exists r', (es ++ es'), cd'. split; [| by apply Forall_app].
    erewrite bind_ok by exact Hr. rewrite Hr'. simpl. by rewrite app_assoc.
  - exists (Raise e), es, cd. split; [| done]. by erewrite bind_raise by exact Hr.
Qed.

Lemma only_try {A} (body handler : M A) :
  only P body → only P handler → only P (try_except_FileNotFoundError body handler).
Proof.
  intros Hb Hh w. destruct (Hb w) as (r & es & cd & Hr & Hes).
  unfold try_except_FileNotFoundError. rewrite Hr.
  destruct r as [a | e]; [by eauto 6 |].
  destruct e; try by eauto 6.
  destruct (Hh {| trace := trace w ++ es; cache_dat := cd |})
    as (r' & es' & cd' & Hr' & Hes').
  exists r', (es ++ es'), cd'. split; [| by apply Forall_app].
  rewrite Hr'. simpl. by rewrite app_assoc.
Qed.

Lemma only_stat_cache_dat : only P stat_cache_dat.
Proof.
  intros w. exists (Ok (cache_dat w)), [], (cache_dat w). split; [| done].
  unfold stat_cache_dat. rewrite app_nil_r. by destruct w.
Qed.

Lemma only_write_cache_dat dm : only P (write_cache_dat dm).
Proof.
  intros w. exists (Ok ()), [], (Some dm). split; [| done].
  unfold write_cache_dat, with_cache. by rewrite app_nil_r.
Qed.

Hypothesis print_ok : ∀ args, P (EvPrint args).

Lemma only_print args : only P (print args).
Proof. apply only_emit, print_ok. Qed.

Lemma only_for_each {A S} (g : gen A) (f : A → S → result S) acc :
  only P (for_each g f acc).
Proof.
  revert acc. induction g as [| e | args k IH | a k IH]; intros acc; simpl.
  - apply only_ret.
  - apply only_throw.
  - apply only_bind; [apply only_print | intros _; apply IH].
  - apply only_bind; [apply only_lift | intros acc'; apply IH].
Qed.

Lemma only_py_set `{Countable K} {A} (hash : A → result K) (g : gen A) acc :
  only P (py_set hash g acc).
Proof.
  revert acc. induction g as [| e | args k IH | a k IH]; intros acc; simpl.
  - apply only_ret.
  - apply only_throw.
  - apply only_bind; [apply only_print | intros _; apply IH].
  - apply only_bind; [apply only_lift | intros h; apply IH].
Qed.

Lemma only_eq a b : only P (__eq__ a b).
Proof.
  unfold __eq__.
  apply only_bind; [apply only_py_set | intros so].
  apply only_bind; [apply only_py_set | intros oo].
  destruct (bool_decide (so = oo)); [| apply only_ret].
  apply only_bind; [apply only_py_set | intros sf].
  apply only_bind; [apply only_py_set | intros tf]. apply only_ret.
Qed.

End Only.

(** A run adds only events satisfying [P] as soon as the fetch, the source
    dumps and the upload do, and [P] holds of what is printed, of the
    snapshot file accesses and of the graph events. *)
Lemma only_run (P : event → Prop) urljoin requests_get now args :
  (∀ e, kind_of e = KPrint ∨ kind_of e = KSnapshot ∨ kind_of e = KGraph → P e) →
  only P (load requests_get
            (__init__ urljoin (url args) (http_username args)
               (http_password args) (uid args) (cacert args))) →
  (∀ file dot, only P (dump args file dot)) →
  only P (upload args) →
  only P (run urljoin requests_get now args).
Proof.
  intros Hbase Hload Hdump Hupload.
  assert (Hprint : ∀ a, P (EvPrint a)) by (intros; apply Hbase; auto).
  assert (Hrender : ∀ f dot, only P (render f "png" "cairo" dot)).
  { intros. apply only_emit, Hbase. auto. }
  assert (Hnew : ∀ c, only P (new_Digraph c)).
  { intros c. unfold new_Digraph.
    apply only_bind; [apply only_emit, Hbase; auto | intros _; apply only_ret]. }
  assert (Hgraph : ∀ dm, only P (graph_changes now args dm)).
  { intros dm. unfold graph_changes.
    apply only_bind; [by apply only_print | intros _].
    apply only_bind; [| intros _].
    { unfold pickle_dump.
      apply only_bind; [apply only_emit, Hbase; auto | intros _].
      apply only_bind; [apply only_write_cache_dat | intros _].
      apply only_emit, Hbase. auto. }
    apply only_bind; [| intros _].
    { unfold double_graph.
      apply only_bind; [apply Hnew | intros dot].
      apply only_bind; [by apply only_for_each | intros dot'].
      apply only_bind; [apply Hdump | intros _; apply Hrender]. }
    apply only_bind; [| intros _].
    { unfold single_graph.
      apply only_bind; [apply Hnew | intros dot].
      apply only_bind; [by apply only_for_each | intros dot'].
      apply only_bind; [apply Hdump | intros _; apply Hrender]. }
    apply only_bind; [| intros _; apply Hupload].
    unfold complete_graph.
    apply only_bind; [apply Hnew | intros dot].
    apply only_bind; [by apply only_for_each | intros dot'].
    apply only_bind; [by apply only_for_each | intros dot''].
    apply only_bind; [apply Hdump | intros _; apply Hrender]. }
  unfold run.
  apply only_bind; [exact Hload | intros dm].
  destruct (negb (bool_decide (status dm = Some 200))); [by apply only_print |].
  apply only_bind.
  - apply only_try.
    + apply only_bind; [| intros old_dm; by apply only_eq].
      unfold pickle_load.
      apply only_bind; [apply only_emit, Hbase; auto | intros _].
      apply only_bind; [apply only_stat_cache_dat | intros [old_dm |]].
      * apply only_bind; [apply only_emit, Hbase; auto | intros _; apply only_ret].
      * apply only_throw.
    + apply only_bind; [by apply only_print | intros _; apply only_ret].
  - intros [|]; [apply only_ret | apply Hgraph].
Qed.

(** The events of [load] are the requests it sends. *)
Lemma only_load_requests (P : event → Prop) requests_get self :
  (∀ u, P (EvGet (request_for self u))) → only P (load requests_get self).
Proof.
  intros Hq w. pose proof (load_spec requests_get self w) as Hl.
  cbv zeta in Hl. rewrite Hl.
  assert (H1 : Forall P [EvGet (request_for self (objects_url self))])
    by (apply Forall_singleton, Hq).
  assert (H2 : Forall P [EvGet (request_for self (objects_url self));
                         EvGet (request_for self (facts_url self))])
    by (repeat constructor; apply Hq).
  destruct (Z.eqb (status_code _) 200); [| eauto 6].
  destruct (json _); [| eauto 6].
  destruct (Z.eqb (status_code _) 200); [| eauto 6].
  destruct (json _); eauto 6.
Qed.

(** X14. A run touches Confluence and the proxy variables only when
    [--parent_id] is a non-zero id, and writes graph sources only when
    [--dump_source] is a non-empty directory: every event of a run that
    belongs to the upload, or to the source dumps, implies the option. With
    [--parent_id 0], or [--dump_source ""], the option counts as absent. *)
Theorem run_side_effects_on_request urljoin requests_get (now : string)
    (args : Namespace) (w : world) :
  ∃ r es cd,
    run urljoin requests_get now args w =
      (r, {| trace := trace w ++ es; cache_dat := cd |}) ∧
    Forall (fun e =>
              (kind_of e = KUpload → ∃ page_id, parent_id args = Some page_id ∧
                                                page_id ≠ 0) ∧
              (kind_of e = KDump → ∃ dir, dump_source args = Some dir ∧
                                          dir ≠ "")) es.
Proof.
  set (P := fun e =>
              (kind_of e = KUpload → ∃ page_id, parent_id args = Some page_id ∧
                                                page_id ≠ 0) ∧
              (kind_of e = KDump → ∃ dir, dump_source args = Some dir ∧
                                          dir ≠ "")).
  apply (only_run P).
  - intros e [He | [He | He]]; split; intros ?; congruence.
  - apply only_load_requests. intros u. by split.
  - intros file dot. unfold dump.
    destruct (dump_source args) as [dir |] eqn:Hd; [| apply only_ret].
    simpl. destruct (String.eqb dir "") eqn:He; simpl; [apply only_ret |].
    apply String.eqb_neq in He. unfold write_source.
    apply only_bind; [| intros _]; apply only_emit; split; try done;
      intros _; eauto.
  - unfold upload, attach_file.
    destruct (parent_id args) as [page_id |] eqn:Hp; [| apply only_ret].
    simpl. destruct (Z.eqb page_id 0) eqn:Hz; simpl; [apply only_ret |].
    apply Z.eqb_neq in Hz.
    assert (Hup : ∀ e, kind_of e = KUpload → only P (emit e)).
    { intros e He. apply only_emit. split; [eauto | congruence]. }
    repeat (apply only_bind; [by apply Hup | intros _]).
    destruct (dump_source args) as [dir |]; [| apply only_ret].
    simpl. destruct (String.eqb dir ""); simpl; [apply only_ret |].
    repeat (apply only_bind; [by apply Hup | intros _]). by apply Hup.
Qed.

(** X15. The two TLS settings of a run. Every request of the fetch is sent
    with [verify] set to the [--cacert] value itself ([True] only for the
    empty string), while the Confluence client is created with
    [verify_ssl] false exactly when a non-empty [--cacert] is given: a CA
    certificate makes the fetch verify against it and switches verification
    off for the upload. *)
Theorem run_tls_settings urljoin requests_get (now : string)
    (args : Namespace) (w : world) :
  ∃ r es cd,
    run urljoin requests_get now args w =
      (r, {| trace := trace w ++ es; cache_dat := cd |}) ∧
    Forall (fun e =>
              match e with
              | EvGet q =>
                  req_verify q =
                    match cacert args with
                    | Some c => if String.eqb c "" then VerifyTrue
                                else VerifyCacert (Some c)
                    | None => VerifyCacert None
                    end
              | EvConfluence _ _ _ verify_ssl =>
                  verify_ssl =
                    match cacert args with
                    | Some c => String.eqb c ""
                    | None => true
                    end
              | _ => True
              end) es.
Proof.
  match goal with |- context [Forall ?Q] => set (P := Q) end.
  apply (only_run P).
  - intros e [He | [He | He]]; by destruct e.
  - apply only_load_requests. intros u. unfold P, request_for, __init__. simpl.
    destruct (cacert args) as [c |]; [| done].
    destruct (String.eqb c "") eqn:Hc.
    + apply String.eqb_eq in Hc as ->. done.
    + apply String.eqb_neq in Hc. rewrite bool_decide_eq_true_2; [done | congruence].
  - intros file dot. unfold dump, write_source.
    destruct (dump_source args) as [dir |]; [| apply only_ret].
    destruct (truthy_str (Some dir)); [| apply only_ret].
    apply only_bind; [| intros _]; by apply only_emit.
  - unfold upload, attach_file.
    destruct (parent_id args) as [page_id |]; [| apply only_ret].
    destruct (truthy_int (Some page_id)); [| apply only_ret].
    apply only_bind; [by apply only_emit | intros _].
    apply only_bind; [by apply only_emit | intros _].
    apply only_bind; [| intros _].
    { apply only_emit. unfold P. destruct (cacert args) as [c |]; [| done].
      simpl. by destruct (String.eqb c ""). }
    repeat (apply only_bind; [by apply only_emit | intros _]).
    destruct (dump_source args) as [dir |]; [| apply only_ret].
    destruct (truthy_str (Some dir)); [| apply only_ret].
    repeat (apply only_bind; [by apply only_emit | intros _]). by apply only_emit.
Qed.

(** ** Reloading, and what the comparison cannot see *)

(** X16. [load] keeps nothing of an earlier load: a model that [load] has
    returned, loaded again over the same transport, comes out the same,
    after the same requests. *)
Theorem load_again_is_the_same requests_get (self dm : DataModel) (w w1 w2 : world) :
  load requests_get self w = (Ok dm, w1) →
  ∃ qs, w1 = add_trace (map EvGet qs) w ∧
        load requests_get dm w2 = (Ok dm, add_trace (map EvGet qs) w2).
Proof.
  intros Hload.
  pose proof (load_spec requests_get self w) as Hl.
  pose proof (load_spec requests_get dm w2) as Hl2.
  cbv zeta in Hl, Hl2. rewrite Hload in Hl. clear Hload.
  set (q1 := request_for self (objects_url self)) in *.
  set (q2 := request_for self (facts_url self)) in *.
  assert (Hq : ∀ d, objects_url d = objects_url self → facts_url d = facts_url self →
                    username d = username self → password d = password self →
                    user_id d = user_id self → verify d = verify self →
                    request_for d (objects_url d) = q1 ∧
                    request_for d (facts_url d) = q2).
  { intros d Ho Hf Hu Hp Hi Hv. unfold q1, q2, request_for.
    by rewrite Ho, Hf, Hu, Hp, Hi, Hv. }
  destruct (Z.eqb (status_code (requests_get q1)) 200) eqn:H1.
  - destruct (json (requests_get q1)) as [v1 |] eqn:Hj1; [| discriminate].
    destruct (Z.eqb (status_code (requests_get q2)) 200) eqn:H2.
    + destruct (json (requests_get q2)) as [v2 |] eqn:Hj2; [| discriminate].
      injection Hl as -> ->. exists [q1; q2]. split; [done |].
      destruct (Hq (with_status (with_facts (with_objects self v1) v2) 200))
        as [Hq1 Hq2]; try done.
      rewrite Hq1, Hq2, H1, Hj1, H2, Hj2 in Hl2. exact Hl2.
    + injection Hl as -> ->. exists [q1; q2]. split; [done |].
      destruct (Hq (poisoned (with_objects self v1) (status_code (requests_get q2))))
        as [Hq1 Hq2]; try done.
      rewrite Hq1, Hq2, H1, Hj1, H2 in Hl2. exact Hl2.
  - injection Hl as -> ->. exists [q1]. split; [done |].
    destruct (Hq (poisoned self (status_code (requests_get q1))))
      as [Hq1 Hq2]; try done.
    rewrite Hq1, H1 in Hl2. exact Hl2.
Qed.

(** X17. The comparison looks at nothing but what the two views hand over:
    a model that was never loaded, or whose fetch failed, compares equal to
    every model whose two views run to their end empty, such as a model
    loaded from two empty catalogs, whatever their URLs, credentials and
    status. *)
Theorem eq_cannot_tell_failed_from_empty (a b : DataModel) (w : world) :
  truthy (_objects a) = false → truthy (_facts a) = false →
  run_to_end (objects b) = Ok [] → run_to_end (facts b) = Ok [] →
  __eq__ a b w =
    (Ok true,
     add_trace (map EvPrint (printed (objects b) ++ printed (facts b))) w).
Proof.
  intros Hoa Hfa Hob Hfb.
  assert (Ha : objects a = GStop) by (unfold objects; by rewrite Hoa).
  assert (Ha' : facts a = GStop) by (unfold facts; by rewrite Hfa).
  assert (Hb : produced_set py_hash (objects b) = Some ∅).
  { unfold run_to_end in Hob. unfold produced_set.
    destruct (raised (objects b)); [discriminate |]. by injection Hob as ->. }
  assert (Hb' : produced_set hash_tuple (facts b) = Some ∅).
  { unfold run_to_end in Hfb. unfold produced_set.
    destruct (raised (facts b)); [discriminate |]. by injection Hfb as ->. }
  rewrite (eq_spec a b ∅ ∅ ∅ ∅ w); [| by rewrite Ha | done | by rewrite Ha' | done].
  rewrite Ha, Ha'. simpl. rewrite !bool_decide_eq_true_2 by done. done.
Qed.

(** ** A whole run *)

Lemma upload_events args w :
  ∃ es, upload args w = (Ok (), add_trace es w) ∧
        Forall (fun e => kind_of e = KUpload) es.
Proof.
  unfold upload, attach_file.
  destruct (parent_id args) as [page_id |].
  2: { exists []. by rewrite add_trace_nil. }
  destruct (truthy_int (Some page_id)).
  2: { exists []. by rewrite add_trace_nil. }
  do 6 (erewrite bind_ok by reflexivity). rewrite !add_trace_app.
  destruct (dump_source args) as [dir |].
  2: { eexists. unfold mret, M_ret. split; [reflexivity |]. by repeat constructor. }
  destruct (truthy_str (Some dir)).
  2: { eexists. unfold mret, M_ret. split; [reflexivity |]. by repeat constructor. }
  do 2 (erewrite bind_ok by reflexivity). unfold emit.
  rewrite !add_trace_app. eexists. split; [reflexivity |]. by repeat constructor.
Qed.

Lemma graph_loop_spec {A} (g : gen A) (f : A → Digraph → result Digraph)
    (calls : A → list dot_call) dot0 args file filename w :
  raised g = None →
  Forall (fun a => ∀ dot, f a dot =
            Ok {| comment := comment dot; body := body dot ++ calls a |})
    (yields g) →
  (for_each g f dot0 ≫= fun dot =>
     dump args file dot ≫= fun _ => render filename "png" "cairo" dot) w =
    (Ok (),
     add_trace
       (map EvPrint (printed g) ++
        hand_over args file filename
          {| comment := comment dot0;
             body := body dot0 ++ flat_map calls (yields g) |}) w).
Proof.
  intros Hr Hf.
  erewrite bind_ok by (rewrite (for_each_appends _ _ _ _ _ Hf), Hr; reflexivity).
  by rewrite dump_spec, add_trace_app.
Qed.

(** X18. A first run on a catalog whose views run to their end and whose
    names the sink accepts (the object names are strings, and every tuple
    of [facts] is taken by the single-edge and by the complete loop), from
    the fetch to the upload: it announces itself, writes the snapshot, then
    builds the three graphs one after the other (double, single, complete),
    each one created, filled from the views, dumped if asked and rendered
    before the next is created; the upload events, if any, come last, and
    the run returns normally with the fetched model in [cache.dat]. *)
Theorem run_graphs_in_order urljoin requests_get (now : string)
    (args : Namespace) (w : world) (v1 v2 : pyval) :
  let dm0 := __init__ urljoin (url args) (http_username args)
               (http_password args) (uid args) (cacert args) in
  let q1 := request_for dm0 (objects_url dm0) in
  let q2 := request_for dm0 (facts_url dm0) in
  let dm := with_status (with_facts (with_objects dm0 v1) v2) 200 in
  let double :=
    {| comment := "Double edge facts";
       body := flat_map double_calls (yields (facts dm)) |} in
  let single :=
    {| comment := "Single edge facts";
       body := flat_map single_calls (yields (facts dm)) |} in
  let complete :=
    {| comment := "All Double edge facts";
       body := flat_map (fun obj => [DotNode obj obj None]) (yields (objects dm)) ++
               flat_map complete_calls (yields (facts dm)) |} in
  status_code (requests_get q1) = 200 → json (requests_get q1) = Some v1 →
  status_code (requests_get q2) = 200 → json (requests_get q2) = Some v2 →
  cache_dat w = None →
  raised (objects dm) = None → raised (facts dm) = None →
  Forall (fun obj => is_str obj = true) (yields (objects dm)) →
  Forall (fun t => single_takes t = true ∧ complete_takes t = true)
    (yields (facts dm)) →
  ∃ uploads,
    Forall (fun e => kind_of e = KUpload) uploads ∧
    run urljoin requests_get now args w =
      (Ok (),
       with_cache dm
         (add_trace
            ([EvGet q1; EvGet q2; EvOpen "cache.dat" "rb";
              EvPrint [PStr "First run"];
              EvPrint [PStr (now +:+ " Graphing changes")];
              EvOpen "cache.dat" "wb"; EvPickleDump dm] ++
             [EvDigraph "Double edge facts"] ++
             map EvPrint (printed (facts dm)) ++
             hand_over args "double.dot" "output/double" double ++
             [EvDigraph "Single edge facts"] ++
             map EvPrint (printed (facts dm)) ++
             hand_over args "single.dot" "output/single" single ++
             [EvDigraph "All Double edge facts"] ++
             map EvPrint (printed (objects dm)) ++
             map EvPrint (printed (facts dm)) ++
             hand_over args "complete.dot" "output/complete" complete ++
             uploads) w)).
Proof.
  intros dm0 q1 q2 dm double single complete H1 Hj1 H2 Hj2 Hc Ho Hf Hstr Htakes.
  assert (Hdouble : Forall (fun t => ∀ dot, double_body t dot =
                      Ok {| comment := comment dot;
                            body := body dot ++ double_calls t |})
                      (yields (facts dm))).
  { eapply Forall_impl; [exact Htakes |]. intros t [_ Ht] dot.
    by apply double_body_takes, complete_takes_double. }
  assert (Hsingle : Forall (fun t => ∀ dot, single_body t dot =
                      Ok {| comment := comment dot;
                            body := body dot ++ single_calls t |})
                      (yields (facts dm))).
  { eapply Forall_impl; [exact Htakes |]. intros t [Ht _] dot.
    by apply single_body_takes. }
  assert (Hcomplete : Forall (fun t => ∀ dot, complete_body t dot =
                        Ok {| comment := comment dot;
                              body := body dot ++ complete_calls t |})
                        (yields (facts dm))).
  { eapply Forall_impl; [exact Htakes |]. intros t [_ Ht] dot.
    by apply complete_body_takes. }
  assert (Hobjects : Forall (fun obj => ∀ dot, object_body obj dot =
                       Ok {| comment := comment dot;
                             body := body dot ++ [DotNode obj obj None] |})
                       (yields (objects dm))).
  { eapply Forall_impl; [exact Hstr |]. intros obj Hs dot.
    by apply object_body_takes. }
  pose proof (run_fetched urljoin requests_get now args w v1 v2
                H1 Hj1 H2 Hj2) as Hrun.
  fold dm0 q1 q2 dm in Hrun. rewrite Hrun. clear Hrun.
  pose proof (pickle_load_spec (add_trace [EvGet q1; EvGet q2] w)) as Hp.
  simpl cache_dat in Hp. rewrite Hc in Hp.
  erewrite bind_ok.
  2: { erewrite try_caught by (erewrite bind_raise by exact Hp; reflexivity).
       apply first_run_spec. }
  cbv beta iota. unfold graph_changes, pickle_dump.
  erewrite bind_ok by reflexivity.
  erewrite bind_ok by
    (erewrite bind_ok by reflexivity; erewrite bind_ok by reflexivity;
     reflexivity).
  erewrite bind_ok.
  2: { unfold double_graph, new_Digraph.
       erewrite bind_ok by (erewrite bind_ok by reflexivity; reflexivity).
       by apply (graph_loop_spec _ _ double_calls). }
  erewrite bind_ok.
  2: { unfold single_graph, new_Digraph.
       erewrite bind_ok by (erewrite bind_ok by reflexivity; reflexivity).
       by apply (graph_loop_spec _ _ single_calls). }
  erewrite bind_ok.
  2: { unfold complete_graph, new_Digraph.
       erewrite bind_ok by (erewrite bind_ok by reflexivity; reflexivity).
       erewrite bind_ok
         by (rewrite (for_each_appends _ _ _ _ _ Hobjects), Ho; reflexivity).
       by apply (graph_loop_spec _ _ complete_calls). }
  cbv beta.
  match goal with |- context [upload args ?w4] =>
    destruct (upload_events args w4) as (uploads & -> & Hup) end.
  exists uploads. split; [exact Hup |].
  simpl comment. simpl body. fold double single complete.
  rewrite !add_trace_with_cache, !add_trace_app, <- !app_assoc. reflexivity.
Qed.

(** X25. A catalog the sink rejects is never graphed. On a first run (no
    [cache.dat]) whose views materialise but whose facts hold a tuple that
    the double-edge loop draws with a name that is not a string, the
    snapshot is written before the sink raises: the run ends with
    [TypeError] in the first graph loop, nothing has been rendered or
    uploaded, and [cache.dat] holds the fetched model. A later run that
    fetches the same catalog finds the snapshot equal and returns after the
    comparison, so the graphs of this catalog are not rendered then
    either. *)
Theorem run_rejected_catalog_is_never_graphed urljoin requests_get (now : string)
    (args : Namespace) (w : world) (v1 v2 : pyval) (t : fact_tuple) :
  let dm0 := __init__ urljoin (url args) (http_username args)
               (http_password args) (uid args) (cacert args) in
  let q1 := request_for dm0 (objects_url dm0) in
  let q2 := request_for dm0 (facts_url dm0) in
  let dm := with_status (with_facts (with_objects dm0 v1) v2) 200 in
  status_code (requests_get q1) = 200 → json (requests_get q1) = Some v1 →
  status_code (requests_get q2) = 200 → json (requests_get q2) = Some v2 →
  cache_dat w = None →
  materialises dm →
  t ∈ yields (facts dm) → double_takes t = false →
  ∃ prints,
    let w1 :=
      with_cache dm
        (add_trace
           ([EvGet q1; EvGet q2; EvOpen "cache.dat" "rb"; EvPrint [PStr "First run"];
             EvPrint [PStr (now +:+ " Graphing changes")];
             EvOpen "cache.dat" "wb"; EvPickleDump dm;
             EvDigraph "Double edge facts"] ++
            map EvPrint prints) w) in
    run urljoin requests_get now args w = (Raise TypeError, w1) ∧
    ∃ prints',
      run urljoin requests_get now args w1 =
        (Ok (),
         add_trace
           ([EvGet q1; EvGet q2; EvOpen "cache.dat" "rb"; EvPickleLoad] ++
            map EvPrint prints') w1).
Proof.
  intros dm0 q1 q2 dm H1 Hj1 H2 Hj2 Hc Hdm Hin Ht.
  destruct (for_each_rejects (facts dm) double_body t TypeError Hin)
    with (acc := {| comment := "Double edge facts"; body := [] |})
    as (prints & Hloop).
  { intros dot. destruct t as [[[name s] d] di]. rewrite double_body_spec.
    unfold double_takes in Ht.
    destruct (py_eq_str name "mentions" || negb (truthy d)); [discriminate |].
    simpl in Ht. by rewrite Ht. }
  { intros t' dot e. apply double_body_raises. }
  exists prints. cbv zeta.
  set (w1 := with_cache dm _).
  pose proof (run_fetched urljoin requests_get now args w v1 v2
                H1 Hj1 H2 Hj2) as Hrun1.
  pose proof (run_fetched urljoin requests_get now args w1 v1 v2
                H1 Hj1 H2 Hj2) as Hrun2.
  fold dm0 q1 q2 dm in Hrun1, Hrun2. split.
  - rewrite Hrun1.
    pose proof (pickle_load_spec (add_trace [EvGet q1; EvGet q2] w)) as Hp.
    simpl cache_dat in Hp. rewrite Hc in Hp.
    erewrite bind_ok.
    2: { erewrite try_caught by (erewrite bind_raise by exact Hp; reflexivity).
         apply first_run_spec. }
    cbv beta iota. unfold graph_changes, pickle_dump.
    erewrite bind_ok by reflexivity.
    erewrite bind_ok by
      (erewrite bind_ok by reflexivity; erewrite bind_ok by reflexivity;
       reflexivity).
    erewrite bind_raise.
    2: { unfold double_graph, new_Digraph.
         erewrite bind_ok by (erewrite bind_ok by reflexivity; reflexivity).
         erewrite bind_raise by apply Hloop. reflexivity. }
    subst w1. rewrite !add_trace_with_cache, !add_trace_app. reflexivity.
  - destruct Hdm as [[oa Hoa] [fa Hfa]].
    assert (Heq : fst (__eq__ dm dm (add_trace [EvGet q1; EvGet q2] w1)) = Ok true).
    { rewrite (eq_spec dm dm oa oa fa fa) by done. simpl.
      by rewrite bool_decide_eq_true_2. }
    destruct (gate_unchanged now args dm dm
                (add_trace [EvGet q1; EvGet q2] w1) eq_refl Heq)
      as (prints' & Hgate).
    exists prints'. rewrite Hrun2, Hgate, add_trace_app. done.
Qed.

(** ** The origin client *)

Lemma origin_bind_done {F A B} (m : Origin.IO F A) (f : A → Origin.IO F B) c a c' :
  m c = (Origin.Done a, c') → Origin.bind F m f c = f a c'.
Proof. intros Hm. unfold Origin.bind. by rewrite Hm. Qed.

Lemma origin_bind_raised {F A B} (m : Origin.IO F A) (f : A → Origin.IO F B) c e c' :
  m c = (Origin.Raised e, c') → Origin.bind F m f c = (Origin.Raised e, c').
Proof. intros Hm. unfold Origin.bind. by rewrite Hm. Qed.

(** X19. Deleting an origin cannot work: [parseargs] declares no
    [--origin-id], so with the action [delete], [main] fails on
    [args.origin_id] with [AttributeError] before it contacts the platform;
    the exception is logged as unhandled and raised again, and nothing else
    happens. *)
Theorem delete_always_fails (F : Type) (float : string → option F)
    (in_unit_interval : F → bool) (uuid_match : string → bool)
    (get_origins : list string + string)
    (origin_add : Origin.params F → option string)
    (args : Origin.Namespace) (c : Origin.console F) :
  Origin.action_ args = Origin.Delete →
  Origin.main F float in_unit_interval uuid_match get_origins origin_add args c =
    (Origin.Raised (Origin.AttributeError "origin_id"),
     {| Origin.stdin := Origin.stdin F c;
        Origin.trace :=
          Origin.trace F c ++
          [Origin.Unhandled F (Origin.AttributeError "origin_id")] |}).
Proof.
  intros Ha. unfold Origin.main, Origin.try_except_Exception. rewrite Ha.
  reflexivity.
Qed.

(** Every way [add_origin] can go once four lines can be read. *)
Lemma add_origin_spec (F : Type) (float : string → option F)
    (in_unit_interval : F → bool) (uuid_match : string → bool)
    (origin_add : Origin.params F → option string)
    (default name description trust organization : string)
    (rest : list string) (tr : list (Origin.event F)) :
  let t := if String.eqb trust "" then default else trust in
  let asked := tr ++ [Origin.Write F "Origin name: ";
                      Origin.Write F "Origin description: ";
                      Origin.Write F "Origin trust (float 0.0-1.0. Default=0.8): ";
                      Origin.Write F "Origin organization (UUID): "] in
  let stop msg :=
    (Origin.Raised (A := unit) (Origin.SystemExit 1),
     {| Origin.stdin := rest; Origin.trace := asked ++ [Origin.Error F msg] |}) in
  Origin.add_origin F float in_unit_interval uuid_match origin_add default
    {| Origin.stdin := name :: description :: trust :: organization :: rest;
       Origin.trace := tr |} =
    match float t with
    | None => stop ("Unable to convert " +:+ t +:+ " to float")
    | Some x =>
        if negb (in_unit_interval x) then stop "Trust must be between 0.0 and 1.0"
        else if negb (String.eqb organization "") && negb (uuid_match organization)
        then stop "Organization must be a valid UUID"
        else
          let p := {| Origin.p_name := name; Origin.p_description := description;
                      Origin.p_trust := x;
                      Origin.p_organization :=
                        if String.eqb organization "" then None
                        else Some organization |} in
          match origin_add p with
          | Some msg =>
              (Origin.Raised (Origin.ResponseError msg),
               {| Origin.stdin := rest;
                  Origin.trace := asked ++ [Origin.OriginAdd F p] |})
          | None =>
              (Origin.Done (),
               {| Origin.stdin := rest;
                  Origin.trace := asked ++ [Origin.OriginAdd F p;
                                            Origin.Print F "Origin added:";
                                            Origin.PrintAdded F p] |})
          end
    end.
Proof.
  intros t asked stop.
  unfold Origin.add_origin, Origin.bind, Origin.emit, Origin.input,
    Origin.fatal, Origin.raise, Origin.ret. simpl. fold t.
  subst stop asked. cbv beta.
  destruct (float t) as [x |]; simpl; [| by rewrite <- !app_assoc].
  destruct (in_unit_interval x); simpl; [| by rewrite <- !app_assoc].
  destruct (String.eqb organization ""); simpl.
  - destruct (origin_add _); simpl; rewrite <- !app_assoc; reflexivity.
  - destruct (uuid_match organization); simpl; [| by rewrite <- !app_assoc].
    destruct (origin_add _); simpl; rewrite <- !app_assoc; reflexivity.
Qed.

(** X20. [add_origin] hands the platform nothing it has not checked: an
    origin is submitted only with a trust that [float] accepted and that
    lies in the unit interval, and with either no organization or a
    non-empty one matching the UUID pattern; at most one origin is
    submitted. *)
Theorem add_origin_submits_checked (F : Type) (float : string → option F)
    (in_unit_interval : F → bool) (uuid_match : string → bool)
    (origin_add : Origin.params F → option string)
    (default : string) (c c' : Origin.console F) (r : Origin.outcome unit) :
  Origin.add_origin F float in_unit_interval uuid_match origin_add default c =
    (r, c') →
  ∃ es, Origin.trace F c' = Origin.trace F c ++ es ∧
        (length (filter (fun e => Origin.is_OriginAdd F e = true) es) ≤ 1)%nat ∧
        ∀ p, Origin.OriginAdd F p ∈ es →
             in_unit_interval (Origin.p_trust F p) = true ∧
             (∃ t, float t = Some (Origin.p_trust F p)) ∧
             match Origin.p_organization F p with
             | Some o => o ≠ "" ∧ uuid_match o = true
             | None => True
             end.
Proof.
  assert (Hnone : ∀ (es : list (Origin.event F)) p,
            Forall (fun e => Origin.is_OriginAdd F e = false) es →
            Origin.OriginAdd F p ∉ es).
  { intros es p Hall Hin. rewrite Forall_forall in Hall.
    by apply Hall in Hin. }
  destruct c as [lines tr].
  destruct lines as [| name [| description [| trust [| organization rest]]]].
  1-4: intros [= <- <-]; simpl; rewrite <- ?app_assoc; eexists;
    (split; [reflexivity |]); (split; [simpl; lia |]);
    intros p Hp; exfalso; revert Hp; apply Hnone; by repeat constructor.
  rewrite add_origin_spec. cbv zeta.
  set (t := if String.eqb trust "" then default else trust).
  destruct (float t) as [x |] eqn:Hx.
  2: { intros [= <- <-]. simpl. eexists. rewrite <- ?app_assoc.
       split; [reflexivity |]. split; [simpl; lia |].
       intros p Hp; exfalso; revert Hp; apply Hnone; by repeat constructor. }
  destruct (in_unit_interval x) eqn:Hu; simpl.
  2: { intros [= <- <-]. simpl. eexists. rewrite <- ?app_assoc.
       split; [reflexivity |]. split; [simpl; lia |].
       intros p Hp; exfalso; revert Hp; apply Hnone; by repeat constructor. }
  destruct (String.eqb organization "") eqn:Ho; simpl.
  - destruct (origin_add _); intros [= <- <-]; simpl; eexists;
      rewrite <- ?app_assoc; (split; [reflexivity |]); (split; [simpl; lia |]);
      intros p Hp; simpl in Hp;
      do 4 (apply elem_of_cons in Hp as [Hp | Hp]; [discriminate |]);
      apply elem_of_cons in Hp as [[= ->] | Hp]; simpl; eauto;
      exfalso; revert Hp; apply Hnone; by repeat constructor.
  - apply String.eqb_neq in Ho.
    destruct (uuid_match organization) eqn:Hm; simpl.
    2: { intros [= <- <-]. simpl. eexists. rewrite <- ?app_assoc.
         split; [reflexivity |]. split; [simpl; lia |].
         intros p Hp; exfalso; revert Hp; apply Hnone; by repeat constructor. }
    destruct (origin_add _); intros [= <- <-]; simpl; eexists;
      rewrite <- ?app_assoc; (split; [reflexivity |]); (split; [simpl; lia |]);
      intros p Hp; simpl in Hp;
      do 4 (apply elem_of_cons in Hp as [Hp | Hp]; [discriminate |]);
      apply elem_of_cons in Hp as [[= ->] | Hp]; simpl; eauto;
      exfalso; revert Hp; apply Hnone; by repeat constructor.
Qed.

(** X21. Answering the trust question with an empty line is the same as
    typing the default trust: the two runs of [add_origin] agree in their
    outcome, in what they log and submit, and in what they leave on standard
    input. *)
Theorem add_origin_empty_trust_is_default (F : Type) (float : string → option F)
    (in_unit_interval : F → bool) (uuid_match : string → bool)
    (origin_add : Origin.params F → option string)
    (default name description organization : string)
    (rest : list string) (tr : list (Origin.event F)) :
  Origin.add_origin F float in_unit_interval uuid_match origin_add default
    {| Origin.stdin := name :: description :: "" :: organization :: rest;
       Origin.trace := tr |} =
  Origin.add_origin F float in_unit_interval uuid_match origin_add default
    {| Origin.stdin := name :: description :: default :: organization :: rest;
       Origin.trace := tr |}.
Proof.
  rewrite !add_origin_spec. cbv zeta. simpl String.eqb.
  by destruct (String.eqb default "").
Qed.

(** X22. [add_origin] asks its four questions and reads its four answers
    before it checks any of them: with four lines on standard input it
    consumes exactly these four and writes the four prompts in order,
    whatever the answers are, and writes no further prompt; with fewer lines
    it ends in [EOFError] without logging or submitting anything. *)
Theorem add_origin_asks_first (F : Type) (float : string → option F)
    (in_unit_interval : F → bool) (uuid_match : string → bool)
    (origin_add : Origin.params F → option string)
    (default : string) (lines : list string) (tr : list (Origin.event F)) :
  let run := Origin.add_origin F float in_unit_interval uuid_match origin_add
               default {| Origin.stdin := lines; Origin.trace := tr |} in
  match lines with
  | _ :: _ :: _ :: _ :: rest =>
      ∃ es,
        snd run =
          {| Origin.stdin := rest;
             Origin.trace :=
               tr ++ [Origin.Write F "Origin name: ";
                      Origin.Write F "Origin description: ";
                      Origin.Write F "Origin trust (float 0.0-1.0. Default=0.8): ";
                      Origin.Write F "Origin organization (UUID): "] ++ es |} ∧
        Forall (fun e => Origin.is_Write F e = false) es
  | _ =>
      ∃ es,
        run = (Origin.Raised Origin.EOFError,
               {| Origin.stdin := []; Origin.trace := tr ++ es |}) ∧
        Forall (fun e => Origin.is_Write F e = true) es ∧
        length es = S (length lines)
  end.
Proof.
  destruct lines as [| name [| description [| trust [| organization rest]]]].
  - exists [Origin.Write F "Origin name: "].
    cbv zeta. split; [done |]. split; [by repeat constructor | done].
  - exists [Origin.Write F "Origin name: "; Origin.Write F "Origin description: "].
    cbv zeta. split; [| split; [by repeat constructor | done]].
    unfold Origin.add_origin, Origin.bind, Origin.emit, Origin.input,
      Origin.raise. simpl. by rewrite <- ?app_assoc.
  - exists [Origin.Write F "Origin name: "; Origin.Write F "Origin description: ";
            Origin.Write F "Origin trust (float 0.0-1.0. Default=0.8): "].
    cbv zeta. split; [| split; [by repeat constructor | done]].
    unfold Origin.add_origin, Origin.bind, Origin.emit, Origin.input,
      Origin.raise. simpl. by rewrite <- ?app_assoc.
  - exists [Origin.Write F "Origin name: "; Origin.Write F "Origin description: ";
            Origin.Write F "Origin trust (float 0.0-1.0. Default=0.8): ";
            Origin.Write F "Origin organization (UUID): "].
    cbv zeta. split; [| split; [by repeat constructor | done]].
    unfold Origin.add_origin, Origin.bind, Origin.emit, Origin.input,
      Origin.raise. simpl. by rewrite <- ?app_assoc.
  - cbv zeta. rewrite add_origin_spec. cbv zeta.
    destruct (float _) as [x |]; simpl.
    2: { rewrite <- !app_assoc. eexists. split; [reflexivity |].
         by repeat constructor. }
    destruct (in_unit_interval x); simpl.
    2: { rewrite <- !app_assoc. eexists. split; [reflexivity |].
         by repeat constructor. }
    destruct (String.eqb organization ""); simpl.
    + destruct (origin_add _); simpl; rewrite <- !app_assoc; eexists;
        (split; [reflexivity |]); by repeat constructor.
    + destruct (uuid_match organization); simpl.
      * destruct (origin_add _); simpl; rewrite <- !app_assoc; eexists;
          (split; [reflexivity |]); by repeat constructor.
      * rewrite <- !app_assoc. eexists. split; [reflexivity |].
        by repeat constructor.
Qed.

(** ** The further properties at concrete inputs *)

Lemma load_all_or_nothing_example :
  load example_served example_unloaded fresh_world =
    (Ok example_loaded,
     add_trace [EvGet (request_for example_unloaded "https://act.example/v1/objectType");
                EvGet (request_for example_unloaded "https://act.example/v1/factType")]
       fresh_world) ∧
  status example_loaded = Some 200 ∧
  json (example_served (request_for example_unloaded "https://act.example/v1/objectType"))
    = Some (_objects example_loaded).
Proof.
  assert (Hload : load example_served example_unloaded fresh_world =
            (Ok example_loaded,
             add_trace
               [EvGet (request_for example_unloaded "https://act.example/v1/objectType");
                EvGet (request_for example_unloaded "https://act.example/v1/factType")]
               fresh_world)) by reflexivity.
  split; [exact Hload |].
  destruct (load_all_or_nothing example_served example_unloaded example_loaded
              fresh_world _ Hload) as (_ & _ & Hpay & _).
  split; [reflexivity |]. by destruct (Hpay eq_refl).
Defined.

Lemma objects_completes_iff_example :
  let l := [object_type "host"; PDict [("id", PInt 7)]; object_type "ip"] in
  let self := fetched_model (catalog l) PNone in
  subscript (_objects self) "data" = Ok (PList l) ∧
  raised (objects self) = Some (KeyError "name") ∧
  yields (objects self) = [PStr "host"].
Proof.
  intros l self.
  assert (Hd : subscript (_objects self) "data" = Ok (PList l)) by reflexivity.
  split; [exact Hd |].
  destruct (proj2 (objects_completes_iff self l Hd)
              [object_type "host"] (PDict [("id", PInt 7)]) [object_type "ip"]
              (KeyError "name")) as (Hr & Hy & _); try reflexivity.
  - intros o ->%list_elem_of_singleton _. by eexists.
  - by split.
Defined.

Lemma views_of_documented_catalogs_example :
  let cat := [("resolvesTo", [("host", Some "ip", false)]);
              ("hasAttribute", [("host", None, false)])] in
  _objects example_model = catalog (map object_type ["host"; "ip"]) ∧
  _facts example_model = catalog (map fact_entry_of cat) ∧
  yields (objects example_model) = [PStr "host"; PStr "ip"] ∧
  yields (facts example_model) =
    [(PStr "resolvesTo", PStr "host", PStr "ip", PBool false);
     (PStr "hasAttribute", PStr "host", PNone, PBool false)].
Proof.
  intros cat.
  destruct (views_of_documented_catalogs example_model ["host"; "ip"] cat
              eq_refl eq_refl) as ((_ & _ & Ho) & (_ & _ & Hf)).
  by repeat split.
Defined.

Lemma eq_short_circuits_example :
  let b := fetched_model (catalog [object_type "host"]) example_broken_facts in
  let oa : gset hkey := list_to_set [KStr "host"; KStr "ip"] in
  let ob : gset hkey := list_to_set [KStr "host"] in
  produced_set py_hash (objects example_model) = Some oa ∧
  produced_set py_hash (objects b) = Some ob ∧
  oa ≠ ob ∧
  raised (facts b) = Some (KeyError "relevantObjectBindings") ∧
  __eq__ example_model b fresh_world = (Ok false, fresh_world).
Proof.
  intros b oa ob.
  assert (Hne : oa ≠ ob).
  { intros Heq. assert (Hin : KStr "ip" ∈ ob) by (rewrite <- Heq; set_solver).
    set_solver. }
  split; [reflexivity |]. split; [reflexivity |]. split; [exact Hne |].
  split; [reflexivity |].
  by rewrite (eq_short_circuits example_model b fresh_world oa ob eq_refl eq_refl Hne).
Defined.

Lemma eq_symmetric_transitive_example :
  materialises example_model ∧ materialises example_model_shuffled ∧
  fst (__eq__ example_model example_model_shuffled fresh_world) =
    fst (__eq__ example_model_shuffled example_model fresh_world).
Proof.
  assert (H1 : materialises example_model) by (split; eexists; reflexivity).
  assert (H2 : materialises example_model_shuffled) by (split; eexists; reflexivity).
  split; [exact H1 |]. split; [exact H2 |].
  exact (proj1 (eq_symmetric_transitive example_model example_model_shuffled
                  example_model fresh_world H1 H2 H1)).
Defined.

Lemma views_raise_KeyError_or_TypeError_example :
  let self := fetched_model (catalog [PDict [("id", PInt 7)]]) PNone in
  raised (objects self) = Some (KeyError "name") ∧
  (KeyError "name" = TypeError ∨ ∃ key, KeyError "name" = KeyError key).
Proof.
  intros self. split; [reflexivity |].
  apply (views_raise_KeyError_or_TypeError self). by left.
Defined.

Lemma run_again_stops_at_the_gate_example :
  let now := "2026-01-01 00:00:00" in
  let q1 := request_for example_unloaded "https://act.example/v1/objectType" in
  let q2 := request_for example_unloaded "https://act.example/v1/factType" in
  let w1 := snd (run example_urljoin example_served now example_args fresh_world) in
  (status_code (example_served q1) = 200 ∧
   json (example_served q1) = Some (_objects example_model) ∧
   status_code (example_served q2) = 200 ∧
   json (example_served q2) = Some (_facts example_model)) ∧
  materialises example_loaded ∧
  (∀ old_dm, cache_dat fresh_world = Some old_dm → materialises old_dm) ∧
  is_Some (cache_dat w1) ∧
  ∃ prints,
    run example_urljoin example_served now example_args w1 =
      (Ok (),
       add_trace
         ([EvGet q1; EvGet q2; EvOpen "cache.dat" "rb"; EvPickleLoad] ++
          map EvPrint prints) w1).
Proof.
  intros now q1 q2 w1.
  assert (Hm : materialises example_loaded) by (split; eexists; reflexivity).
  assert (Hold : ∀ old_dm, cache_dat fresh_world = Some old_dm → materialises old_dm)
    by (intros old_dm [=]).
  split; [by repeat split |]. split; [exact Hm |]. split; [exact Hold |].
  exact (run_again_stops_at_the_gate example_urljoin example_served now
           example_args fresh_world (_objects example_model) (_facts example_model)
           eq_refl eq_refl eq_refl eq_refl Hm Hold).
Defined.

Lemma run_failure_after_snapshot_example :
  let now := "2026-01-01 00:00:00" in
  let q1 := request_for example_unloaded "https://act.example/v1/objectType" in
  let q2 := request_for example_unloaded "https://act.example/v1/factType" in
  let dm := with_status
              (with_facts (with_objects example_unloaded (_objects example_model))
                 example_half_broken_facts) 200 in
  let w1 :=
    with_cache dm
      (add_trace
         [EvGet q1; EvGet q2; EvOpen "cache.dat" "rb"; EvPrint [PStr "First run"];
          EvPrint [PStr "2026-01-01 00:00:00 Graphing changes"];
          EvOpen "cache.dat" "wb"; EvPickleDump dm;
          EvDigraph "Double edge facts";
          EvPrint [PStr "Nonetype"; PNone]] fresh_world) in
  (status_code (example_served_half_broken q1) = 200 ∧
   json (example_served_half_broken q1) = Some (_objects example_model) ∧
   status_code (example_served_half_broken q2) = 200 ∧
   json (example_served_half_broken q2) = Some example_half_broken_facts) ∧
  cache_dat fresh_world = None ∧
  produced_set py_hash (objects dm) = Some (list_to_set [KStr "host"; KStr "ip"]) ∧
  raised (facts dm) = Some (KeyError "relevantObjectBindings") ∧
  yields (facts dm) = [(PStr "resolvesTo", PStr "host", PStr "ip", PBool false)] ∧
  Forall (fun t => double_takes t = true) (yields (facts dm)) ∧
  run example_urljoin example_served_half_broken now example_args fresh_world =
    (Raise (KeyError "relevantObjectBindings"), w1) ∧
  ∃ e' prints,
    run example_urljoin example_served_half_broken now example_args w1 =
      (Raise e',
       add_trace
         ([EvGet q1; EvGet q2; EvOpen "cache.dat" "rb"; EvPickleLoad] ++
          map EvPrint prints) w1).
Proof.
  intros now q1 q2 dm w1.
  assert (Htakes : Forall (fun t => double_takes t = true) (yields (facts dm)))
    by (repeat constructor).
  split; [by repeat split |]. split; [reflexivity |].
  split; [reflexivity |]. split; [reflexivity |]. split; [reflexivity |].
  split; [exact Htakes |].
  exact (run_failure_after_snapshot example_urljoin example_served_half_broken now
           example_args fresh_world (_objects example_model)
           example_half_broken_facts
           (KeyError "relevantObjectBindings") (list_to_set [KStr "host"; KStr "ip"])
           eq_refl eq_refl eq_refl eq_refl eq_refl eq_refl eq_refl Htakes).
Defined.

Lemma graphs_declare_before_use_example :
  ∃ dot',
    endpoints_declared (body (empty_graph "Double edge facts")) ∧
    labelled_by_name (body (empty_graph "Double edge facts")) ∧
    fst (for_each (facts example_model) double_body
           (empty_graph "Double edge facts") fresh_world) = Ok dot' ∧
    body dot' = [DotNode (PStr "host") (PStr "host") None;
                 DotNode (PStr "ip") (PStr "ip") None;
                 DotEdge (PStr "host") (PStr "ip") (Some (PStr "resolvesTo")) None] ∧
    endpoints_declared (body dot') ∧ labelled_by_name (body dot').
Proof.
  assert (Hd : endpoints_declared (body (empty_graph "Double edge facts"))).
  { intros pre t h l dir post Heq. by destruct pre. }
  assert (Hl : labelled_by_name (body (empty_graph "Double edge facts"))).
  { intros n l sh Hin. by apply elem_of_nil in Hin. }
  eexists. split; [exact Hd |]. split; [exact Hl |].
  split; [reflexivity |]. split; [reflexivity |].
  apply (graphs_declare_before_use example_model fresh_world
           (empty_graph "Double edge facts") _ Hd Hl).
  left. reflexivity.
Defined.

Lemma double_within_complete_example :
  ∃ g1 g2,
    sublist (body (empty_graph "Double edge facts"))
      (body (empty_graph "All Double edge facts")) ∧
    fst (for_each (facts example_model) double_body
           (empty_graph "Double edge facts") fresh_world) = Ok g1 ∧
    fst (for_each (facts example_model) complete_body
           (empty_graph "All Double edge facts") fresh_world) = Ok g2 ∧
    sublist (body g1) (body g2).
Proof.
  eexists _, _. split; [apply sublist_nil_l |].
  split; [reflexivity |]. split; [reflexivity |].
  apply (double_within_complete example_model fresh_world
           (empty_graph "Double edge facts") (empty_graph "All Double edge facts"));
    [apply sublist_nil_l | reflexivity | reflexivity].
Defined.

Lemma every_binding_is_one_edge_example :
  ∃ g1 g2,
    fst (for_each (facts example_model) single_body
           (empty_graph "Single edge facts") fresh_world) = Ok g1 ∧
    fst (for_each (facts example_model) complete_body
           (empty_graph "All Double edge facts") fresh_world) = Ok g2 ∧
    length (yields (facts example_model)) = 2%nat ∧
    (edges (body g1) + edges (body g2) = 2)%nat.
Proof.
  eexists _, _. split; [reflexivity |]. split; [reflexivity |].
  split; [reflexivity |].
  exact (every_binding_is_one_edge example_model fresh_world
           (empty_graph "Single edge facts") (empty_graph "All Double edge facts")
           _ _ eq_refl eq_refl).
Defined.

Lemma print_origins_spec (F : Type) (origins : list string) (c : Origin.console F) :
  Origin.print_origins F origins c =
    (Origin.Done (),
     {| Origin.stdin := Origin.stdin F c;
        Origin.trace := Origin.trace F c ++ map (Origin.PrintOrigin F) origins |}).
Proof.
  revert c. induction origins as [| o origins IH]; intros c; simpl.
  - unfold Origin.ret. rewrite app_nil_r. by destruct c.
  - unfold Origin.bind, Origin.emit. rewrite IH. simpl. by rewrite <- app_assoc.
Qed.

(** X24. Listing. With the action [list], [main] creates the client, asks
    the platform for the origins and prints each of them in the order
    given; when the platform answers with an error, the error is logged
    and nothing is printed. Either way [main] returns normally, reads
    nothing from standard input, and submits or deletes nothing. *)
Theorem main_lists_origins (F : Type) (float : string → option F)
    (in_unit_interval : F → bool) (uuid_match : string → bool)
    (get_origins : list string + string)
    (origin_add : Origin.params F → option string)
    (args : Origin.Namespace) (c : Origin.console F) :
  Origin.action_ args = Origin.List_ →
  Origin.main F float in_unit_interval uuid_match get_origins origin_add args c =
    (Origin.Done (),
     {| Origin.stdin := Origin.stdin F c;
        Origin.trace :=
          Origin.trace F c ++
          [Origin.Act F (Origin.act_baseurl args) (Origin.user_id args);
           Origin.GetOrigins F] ++
          match get_origins with
          | inl origins => map (Origin.PrintOrigin F) origins
          | inr msg =>
              [Origin.Error F
                 ("ResponseError while connecting to platform: " +:+ msg)]
          end |}).
Proof.
  intros Ha.
  unfold Origin.main, Origin.try_except_Exception, Origin.origin_handler,
    Origin.try_except_ResponseError. rewrite Ha.
  unfold Origin.bind, Origin.emit, Origin.ret, Origin.raise. simpl.
  destruct get_origins as [origins | msg]; simpl.
  - rewrite print_origins_spec. simpl. by rewrite <- !app_assoc.
  - by rewrite <- !app_assoc.
Qed.

(** [main] with the action [add], by the way [add_origin] ends. *)
Lemma main_add_spec (F : Type) (float : string → option F)
    (in_unit_interval : F → bool) (uuid_match : string → bool)
    (get_origins : list string + string)
    (origin_add : Origin.params F → option string)
    (args : Origin.Namespace) (c : Origin.console F) :
  Origin.action_ args = Origin.Add →
  Origin.main F float in_unit_interval uuid_match get_origins origin_add args c =
    match Origin.add_origin F float in_unit_interval uuid_match origin_add
            (Origin.default_trust args)
            {| Origin.stdin := Origin.stdin F c;
               Origin.trace :=
                 Origin.trace F c ++
                 [Origin.Act F (Origin.act_baseurl args) (Origin.user_id args)] |}
    with
    | (Origin.Done _, c1) => (Origin.Done (), c1)
    | (Origin.Raised (Origin.ResponseError msg), c1) =>
        (Origin.Done (),
         {| Origin.stdin := Origin.stdin F c1;
            Origin.trace :=
              Origin.trace F c1 ++
              [Origin.Error F
                 ("ResponseError while connecting to platform: " +:+ msg)] |})
    | (Origin.Raised e, c1) =>
        if Origin.is_Exception e
        then (Origin.Raised e,
              {| Origin.stdin := Origin.stdin F c1;
                 Origin.trace := Origin.trace F c1 ++ [Origin.Unhandled F e] |})
        else (Origin.Raised e, c1)
    end.
Proof.
  intros Ha.
  unfold Origin.main, Origin.try_except_Exception, Origin.origin_handler,
    Origin.try_except_ResponseError. rewrite Ha.
  unfold Origin.bind, Origin.emit, Origin.ret, Origin.raise. simpl.
  destruct (Origin.add_origin _ _ _ _ _ _ _) as [[[] | e] c1]; [done |].
  by destruct e.
Qed.

(** X23. How [main] ends. A platform error never leaves [main]: whenever
    the platform answers a request with [ResponseError], [origin_handler]
    logs it, as the last thing that happens, and [main] returns normally.
    Every other exception leaves [main]: an [Exception] is logged as
    unhandled, as the last thing [main] does, and raised again, while the
    [SystemExit] of [fatal] passes unreported. Nothing else is ever logged
    as unhandled. *)
Theorem main_exceptions (F : Type) (float : string → option F)
    (in_unit_interval : F → bool) (uuid_match : string → bool)
    (get_origins : list string + string)
    (origin_add : Origin.params F → option string)
    (args : Origin.Namespace) (c c' : Origin.console F)
    (r : Origin.outcome unit) :
  Origin.main F float in_unit_interval uuid_match get_origins origin_add args c =
    (r, c') →
  ∃ es,
    Origin.trace F c' = Origin.trace F c ++ es ∧
    match r with
    | Origin.Raised e =>
        (∀ msg, e ≠ Origin.ResponseError msg) ∧
        if Origin.is_Exception e
        then ∃ es', es = es' ++ [Origin.Unhandled F e] ∧
                    Forall (fun ev => Origin.is_Unhandled F ev = false) es'
        else Forall (fun ev => Origin.is_Unhandled F ev = false) es
    | Origin.Done _ => Forall (fun ev => Origin.is_Unhandled F ev = false) es
    end ∧
    (∀ msg,
       (get_origins = inr msg ∧ Origin.GetOrigins F ∈ es) ∨
       (∃ p, origin_add p = Some msg ∧ Origin.OriginAdd F p ∈ es) →
       r = Origin.Done () ∧
       ∃ es', es = es' ++
                [Origin.Error F
                   ("ResponseError while connecting to platform: " +:+ msg)]).
Proof.
  assert (Hnot : ∀ (es : list (Origin.event F)) ev,
            Forall (fun ev' => ev' ≠ ev) es → ev ∉ es).
  { intros es ev Hall Hin. rewrite Forall_forall in Hall.
    by apply (Hall ev Hin). }
  destruct (Origin.action_ args) eqn:Ha.
  - (* list *)
    unfold Origin.main, Origin.try_except_Exception, Origin.origin_handler,
      Origin.try_except_ResponseError. rewrite Ha.
    unfold Origin.bind, Origin.emit, Origin.ret, Origin.raise. simpl.
    destruct get_origins as [origins | msg0] eqn:Hg; simpl.
    + rewrite print_origins_spec. simpl. intros [= <- <-]. simpl.
      rewrite <- !app_assoc. eexists. split; [reflexivity |]. split.
      * repeat constructor. apply Forall_forall.
        by intros ev (o & -> & _)%list_elem_of_fmap.
      * intros msg [[[=] _] | (p & _ & Hin)]. exfalso. revert Hin.
        apply Hnot. repeat constructor; try done. apply Forall_forall.
        by intros ev (o & -> & _)%list_elem_of_fmap.
    + intros [= <- <-]. simpl. rewrite <- !app_assoc.
      eexists. split; [reflexivity |]. split; [by repeat constructor |].
      intros msg [[[= ->] _] | (p & _ & Hin)].
      * split; [done |].
        by exists [Origin.Act F (Origin.act_baseurl args) (Origin.user_id args);
                   Origin.GetOrigins F].
      * exfalso. revert Hin. apply Hnot. by repeat constructor.
  - (* add *)
    rewrite main_add_spec by done.
    destruct c as [lines tr]. simpl Origin.stdin. simpl Origin.trace.
    assert (Hearly : ∀ (c1 : Origin.console F) (ws : list (Origin.event F)),
              Forall (fun ev => Origin.is_Write F ev = true) ws →
              Origin.trace F c1 =
                tr ++ Origin.Act F (Origin.act_baseurl args) (Origin.user_id args)
                   :: ws →
              (Origin.Raised Origin.EOFError,
               {| Origin.stdin := Origin.stdin F c1;
                  Origin.trace := Origin.trace F c1 ++
                                  [Origin.Unhandled F Origin.EOFError] |}) = (r, c') →
              ∃ es,
                Origin.trace F c' = tr ++ es ∧
                match r with
                | Origin.Raised e =>
                    (∀ msg, e ≠ Origin.ResponseError msg) ∧
                    if Origin.is_Exception e
                    then ∃ es', es = es' ++ [Origin.Unhandled F e] ∧
                                Forall (fun ev => Origin.is_Unhandled F ev = false) es'
                    else Forall (fun ev => Origin.is_Unhandled F ev = false) es
                | Origin.Done _ =>
                    Forall (fun ev => Origin.is_Unhandled F ev = false) es
                end ∧
                (∀ msg,
                   (get_origins = inr msg ∧ Origin.GetOrigins F ∈ es) ∨
                   (∃ p, origin_add p = Some msg ∧ Origin.OriginAdd F p ∈ es) →
                   r = Origin.Done () ∧
                   ∃ es', es = es' ++
                            [Origin.Error F
                               ("ResponseError while connecting to platform: "
                                +:+ msg)])).
    { intros c1 ws Hws Htr [= <- <-]. simpl. rewrite Htr.
      exists (Origin.Act F (Origin.act_baseurl args) (Origin.user_id args)
              :: ws ++ [Origin.Unhandled F Origin.EOFError]).
      split; [by rewrite <- app_assoc |]. split.
      - split; [done |]. simpl.
        exists (Origin.Act F (Origin.act_baseurl args) (Origin.user_id args) :: ws).
        split; [done |]. constructor; [done |].
        eapply Forall_impl; [exact Hws |]. by intros [].
      - intros msg H. exfalso.
        assert (Hno : ∀ ev, Origin.is_Write F ev = false →
                  ev ≠ Origin.Act F (Origin.act_baseurl args) (Origin.user_id args) →
                  ev ≠ Origin.Unhandled F Origin.EOFError →
                  ev ∉ Origin.Act F (Origin.act_baseurl args) (Origin.user_id args)
                       :: ws ++ [Origin.Unhandled F Origin.EOFError]).
        { intros ev Hw Hact Hun [? | [Hin | ->%list_elem_of_singleton]%elem_of_app]%elem_of_cons;
            try done.
          rewrite Forall_forall in Hws. apply Hws in Hin. congruence. }
        destruct H as [[_ Hin] | (p & _ & Hin)]; revert Hin; by apply Hno. }
    destruct lines as [| name [| description [| trust [| organization rest]]]].
    + apply (Hearly _ [Origin.Write F "Origin name: "]);
        [by repeat constructor | by simpl; rewrite <- app_assoc].
    + apply (Hearly _ [Origin.Write F "Origin name: ";
                       Origin.Write F "Origin description: "]);
        [by repeat constructor | by simpl; rewrite <- !app_assoc].
    + apply (Hearly _ [Origin.Write F "Origin name: ";
                       Origin.Write F "Origin description: ";
                       Origin.Write F "Origin trust (float 0.0-1.0. Default=0.8): "]);
        [by repeat constructor | by simpl; rewrite <- !app_assoc].
    + apply (Hearly _ [Origin.Write F "Origin name: ";
                       Origin.Write F "Origin description: ";
                       Origin.Write F "Origin trust (float 0.0-1.0. Default=0.8): ";
                       Origin.Write F "Origin organization (UUID): "]);
        [by repeat constructor | by simpl; rewrite <- !app_assoc].
    + rewrite add_origin_spec. cbv zeta.
      set (t := if String.eqb trust "" then Origin.default_trust args else trust).
      assert (Hstop : ∀ m,
                (Origin.Raised (A := unit) (Origin.SystemExit 1),
                 {| Origin.stdin := rest;
                    Origin.trace :=
                      ((tr ++ [Origin.Act F (Origin.act_baseurl args)
                                 (Origin.user_id args)]) ++
                       [Origin.Write F "Origin name: ";
                        Origin.Write F "Origin description: ";
                        Origin.Write F "Origin trust (float 0.0-1.0. Default=0.8): ";
                        Origin.Write F "Origin organization (UUID): "]) ++
                      [Origin.Error F m] |}) = (r, c') →
                ∃ es,
                  Origin.trace F c' = tr ++ es ∧
                  match r with
                  | Origin.Raised e =>
                      (∀ msg, e ≠ Origin.ResponseError msg) ∧
                      if Origin.is_Exception e
                      then ∃ es', es = es' ++ [Origin.Unhandled F e] ∧
                                  Forall (fun ev => Origin.is_Unhandled F ev = false) es'
                      else Forall (fun ev => Origin.is_Unhandled F ev = false) es
                  | Origin.Done _ =>
                      Forall (fun ev => Origin.is_Unhandled F ev = false) es
                  end ∧
                  (∀ msg,
                     (get_origins = inr msg ∧ Origin.GetOrigins F ∈ es) ∨
                     (∃ p, origin_add p = Some msg ∧ Origin.OriginAdd F p ∈ es) →
                     r = Origin.Done () ∧
                     ∃ es', es = es' ++
                              [Origin.Error F
                                 ("ResponseError while connecting to platform: "
                                  +:+ msg)])).
      { intros m [= <- <-]. simpl. rewrite <- !app_assoc. simpl.
        eexists. split; [reflexivity |]. split; [by repeat constructor |].
        intros msg [[_ Hin] | (p & _ & Hin)]; exfalso; revert Hin;
          apply Hnot; by repeat constructor. }
      destruct (float t) as [x |]; simpl; [| apply Hstop].
      destruct (in_unit_interval x); simpl; [| apply Hstop].
      destruct (negb (String.eqb organization "") && negb (uuid_match organization));
        [apply Hstop |].
      match goal with |- context [origin_add ?p0] =>
        set (p := p0); destruct (origin_add p) as [msg0 |] eqn:Hadd end.
      * intros [= <- <-]. simpl. rewrite <- !app_assoc. simpl.
        eexists. split; [reflexivity |]. split; [by repeat constructor |].
        intros msg [[_ Hin] | (p' & Hp' & Hin)].
        -- exfalso. revert Hin. apply Hnot. by repeat constructor.
        -- do 5 (apply elem_of_cons in Hin as [[=] | Hin]).
           apply elem_of_cons in Hin as [[= ->] | Hin].
           ++ fold p in Hp'. rewrite Hadd in Hp'. injection Hp' as <-.
              split; [done |]. eexists (_ :: _ :: _ :: _ :: _ :: [_]). reflexivity.
           ++ exfalso. revert Hin. apply Hnot. by repeat constructor.
      * intros [= <- <-]. simpl. rewrite <- !app_assoc. simpl.
        eexists. split; [reflexivity |]. split; [by repeat constructor |].
        intros msg [[_ Hin] | (p' & Hp' & Hin)].
        -- exfalso. revert Hin. apply Hnot. by repeat constructor.
        -- do 5 (apply elem_of_cons in Hin as [[=] | Hin]).
           apply elem_of_cons in Hin as [[= ->] | Hin].
           ++ fold p in Hp'. congruence.
           ++ exfalso. revert Hin. apply Hnot. by repeat constructor.
  - (* delete *)
    unfold Origin.main, Origin.try_except_Exception. rewrite Ha.
    intros [= <- <-]. simpl.
    exists [Origin.Unhandled F (Origin.AttributeError "origin_id")].
    split; [done |]. split.
    + split; [done |]. exists []. by split.
    + intros msg [[_ Hin] | (p & _ & Hin)]; exfalso; revert Hin;
        apply Hnot; by repeat constructor.
Qed.

Lemma load_again_is_the_same_example :
  ∃ w1 qs,
    load example_served example_unloaded fresh_world = (Ok example_loaded, w1) ∧
    w1 = add_trace (map EvGet qs) fresh_world ∧
    load example_served example_loaded w1 =
      (Ok example_loaded, add_trace (map EvGet qs) w1).
Proof.
  assert (Hload : load example_served example_unloaded fresh_world =
            (Ok example_loaded, snd (load example_served example_unloaded fresh_world)))
    by reflexivity.
  destruct (load_again_is_the_same example_served example_unloaded example_loaded
              fresh_world _ (snd (load example_served example_unloaded fresh_world))
              Hload) as (qs & Hw & Hagain).
  by eexists _, qs.
Defined.

Lemma eq_cannot_tell_failed_from_empty_example :
  let failed := fetched_model PNone PNone in
  let empty := fetched_model (catalog []) (catalog []) in
  truthy (_objects failed) = false ∧ truthy (_facts failed) = false ∧
  run_to_end (objects empty) = Ok [] ∧ run_to_end (facts empty) = Ok [] ∧
  __eq__ failed empty fresh_world = (Ok true, fresh_world).
Proof.
  intros failed empty. repeat (split; [reflexivity |]).
  by rewrite (eq_cannot_tell_failed_from_empty failed empty fresh_world).
Defined.

Lemma run_graphs_in_order_example :
  let now := "2026-01-01 00:00:00" in
  let q1 := request_for example_unloaded "https://act.example/v1/objectType" in
  let q2 := request_for example_unloaded "https://act.example/v1/factType" in
  (status_code (example_served q1) = 200 ∧
   json (example_served q1) = Some (_objects example_model) ∧
   status_code (example_served q2) = 200 ∧
   json (example_served q2) = Some (_facts example_model)) ∧
  cache_dat fresh_world = None ∧
  raised (objects example_loaded) = None ∧ raised (facts example_loaded) = None ∧
  Forall (fun obj => is_str obj = true) (yields (objects example_loaded)) ∧
  Forall (fun t => single_takes t = true ∧ complete_takes t = true)
    (yields (facts example_loaded)) ∧
  ∃ uploads,
    Forall (fun e => kind_of e = KUpload) uploads ∧
    fst (run example_urljoin example_served now example_args fresh_world) = Ok () ∧
    cache_dat (snd (run example_urljoin example_served now example_args fresh_world))
      = Some example_loaded.
Proof.
  intros now q1 q2.
  assert (Hstr : Forall (fun obj => is_str obj = true)
                   (yields (objects example_loaded)))
    by (repeat constructor).
  assert (Htakes : Forall (fun t => single_takes t = true ∧ complete_takes t = true)
                     (yields (facts example_loaded)))
    by (repeat constructor).
  split; [by repeat split |]. repeat (split; [reflexivity |]).
  split; [exact Hstr |]. split; [exact Htakes |].
  destruct (run_graphs_in_order example_urljoin example_served now example_args
              fresh_world (_objects example_model) (_facts example_model)
              eq_refl eq_refl eq_refl eq_refl eq_refl eq_refl eq_refl Hstr Htakes)
    as (uploads & Hup & Hrun).
  exists uploads. split; [exact Hup |]. rewrite Hrun. by split.
Defined.

Lemma delete_always_fails_example :
  let args := Origin.mkNamespace "1" "https://act.example" Origin.Delete "0.8" in
  let c := Origin.mkConsole Z [] [] in
  Origin.action_ args = Origin.Delete ∧
  Origin.main Z example_float example_in_unit_interval example_uuid_match
    example_origins example_origin_add args c =
    (Origin.Raised (Origin.AttributeError "origin_id"),
     Origin.mkConsole Z [] [Origin.Unhandled Z (Origin.AttributeError "origin_id")]).
Proof.
  intros args c. split; [reflexivity |].
  exact (delete_always_fails Z example_float example_in_unit_interval
           example_uuid_match example_origins example_origin_add args c eq_refl).
Defined.

Lemma add_origin_submits_checked_example :
  let c := Origin.mkConsole Z ["scanner"; "network scanner"; ""; ""] [] in
  let p := Origin.mkParams Z "scanner" "network scanner" 800 None in
  ∃ c',
    Origin.add_origin Z example_float example_in_unit_interval example_uuid_match
      example_origin_add "0.8" c = (Origin.Done (), c') ∧
    Origin.OriginAdd Z p ∈ Origin.trace Z c' ∧
    example_in_unit_interval (Origin.p_trust Z p) = true.
Proof.
  intros c p.
  exists (snd (Origin.add_origin Z example_float example_in_unit_interval
                 example_uuid_match example_origin_add "0.8" c)).
  assert (Hrun : Origin.add_origin Z example_float example_in_unit_interval
                   example_uuid_match example_origin_add "0.8" c =
                 (Origin.Done (),
                  snd (Origin.add_origin Z example_float example_in_unit_interval
                         example_uuid_match example_origin_add "0.8" c)))
    by (vm_compute; reflexivity).
  split; [exact Hrun |].
  destruct (add_origin_submits_checked Z example_float example_in_unit_interval
              example_uuid_match example_origin_add "0.8" c _ _ Hrun)
    as (es & Hes & _ & Hvalid).
  assert (Hin : Origin.OriginAdd Z p ∈ es).
  { change (Origin.trace Z c) with (@nil (Origin.event Z)) in Hes.
    rewrite app_nil_l in Hes. rewrite <- Hes. vm_compute. set_solver. }
  split; [| by apply Hvalid].
  rewrite Hes. apply elem_of_app. by right.
Defined.

Lemma main_exceptions_example :
  let args := Origin.mkNamespace "1" "https://act.example" Origin.Add "2.0" in
  let short := Origin.mkConsole Z ["scanner"] [] in
  let full := Origin.mkConsole Z ["scanner"; "network scanner"; ""; ""] [] in
  let typed := Origin.mkConsole Z ["scanner"; "network scanner"; "0.8"; ""] [] in
  let p := Origin.mkParams Z "scanner" "network scanner" 800 None in
  let asked := [Origin.Act Z "https://act.example" "1";
                Origin.Write Z "Origin name: ";
                Origin.Write Z "Origin description: ";
                Origin.Write Z "Origin trust (float 0.0-1.0. Default=0.8): ";
                Origin.Write Z "Origin organization (UUID): "] in
  let unhandled := [Origin.Act Z "https://act.example" "1";
                    Origin.Write Z "Origin name: ";
                    Origin.Write Z "Origin description: ";
                    Origin.Unhandled Z Origin.EOFError] in
  let refused := asked ++ [Origin.Error Z "Trust must be between 0.0 and 1.0"] in
  let rejected :=
    asked ++ [Origin.OriginAdd Z p;
              Origin.Error Z
                "ResponseError while connecting to platform: 403 Forbidden"] in
  (Origin.main Z example_float example_in_unit_interval example_uuid_match
     example_origins example_origin_add args short =
     (Origin.Raised Origin.EOFError, Origin.mkConsole Z [] unhandled) ∧
   ∃ es', unhandled = es' ++ [Origin.Unhandled Z Origin.EOFError] ∧
          Forall (fun ev => Origin.is_Unhandled Z ev = false) es') ∧
  (example_float "2.0" = Some 2000 ∧
   Origin.main Z example_float example_in_unit_interval example_uuid_match
     example_origins example_origin_add args full =
     (Origin.Raised (Origin.SystemExit 1), Origin.mkConsole Z [] refused) ∧
   Forall (fun ev => Origin.is_Unhandled Z ev = false) refused) ∧
  (Origin.main Z example_float example_in_unit_interval example_uuid_match
     example_origins example_origin_rejected args typed =
     (Origin.Done (), Origin.mkConsole Z [] rejected) ∧
   ∃ es', rejected =
            es' ++ [Origin.Error Z
                      "ResponseError while connecting to platform: 403 Forbidden"]).
Proof.
  intros args short full typed p asked unhandled refused rejected.
  assert (H1 : Origin.main Z example_float example_in_unit_interval
                 example_uuid_match example_origins example_origin_add args short =
               (Origin.Raised Origin.EOFError, Origin.mkConsole Z [] unhandled))
    by (vm_compute; reflexivity).
  assert (H2 : Origin.main Z example_float example_in_unit_interval
                 example_uuid_match example_origins example_origin_add args full =
               (Origin.Raised (Origin.SystemExit 1), Origin.mkConsole Z [] refused))
    by (vm_compute; reflexivity).
  assert (H3 : Origin.main Z example_float example_in_unit_interval
                 example_uuid_match example_origins example_origin_rejected
                 args typed =
               (Origin.Done (), Origin.mkConsole Z [] rejected))
    by (vm_compute; reflexivity).
  split; [| split].
  - split; [exact H1 |].
    destruct (main_exceptions Z example_float example_in_unit_interval
                example_uuid_match example_origins example_origin_add
                args short _ _ H1) as (es & Htr & [_ Hlast] & _).
    simpl in Htr. subst es. exact Hlast.
  - split; [reflexivity |]. split; [exact H2 |].
    destruct (main_exceptions Z example_float example_in_unit_interval
                example_uuid_match example_origins example_origin_add
                args full _ _ H2) as (es & Htr & [_ Hnone] & _).
    simpl in Htr. subst es. exact Hnone.
  - split; [exact H3 |].
    destruct (main_exceptions Z example_float example_in_unit_interval
                example_uuid_match example_origins example_origin_rejected
                args typed _ _ H3) as (es & Htr & _ & Hplatform).
    simpl in Htr. subst es.
    apply (Hplatform "403 Forbidden"). right. exists p.
    split; [reflexivity |]. unfold rejected, asked. set_solver.
Defined.

Lemma main_lists_origins_example :
  let args := Origin.mkNamespace "1" "https://act.example" Origin.List_ "0.8" in
  let c := Origin.mkConsole Z [] [] in
  Origin.action_ args = Origin.List_ ∧
  Origin.main Z example_float example_in_unit_interval example_uuid_match
    example_origins example_origin_add args c =
    (Origin.Done (),
     Origin.mkConsole Z []
       [Origin.Act Z "https://act.example" "1"; Origin.GetOrigins Z;
        Origin.PrintOrigin Z "origin one"; Origin.PrintOrigin Z "origin two"]).
Proof.
  intros args c. split; [reflexivity |].
  exact (main_lists_origins Z example_float example_in_unit_interval
           example_uuid_match example_origins example_origin_add args c eq_refl).
Defined.

Lemma run_rejected_catalog_is_never_graphed_example :
  let now := "2026-01-01 00:00:00" in
  let q1 := request_for example_unloaded "https://act.example/v1/objectType" in
  let q2 := request_for example_unloaded "https://act.example/v1/factType" in
  let dm := with_status
              (with_facts
                 (with_objects example_unloaded (_objects example_null_source))
                 (_facts example_null_source)) 200 in
  let t := (PStr "resolvesTo", PNone, PStr "ip", PBool false) in
  let w1 :=
    with_cache dm
      (add_trace
         [EvGet q1; EvGet q2; EvOpen "cache.dat" "rb"; EvPrint [PStr "First run"];
          EvPrint [PStr "2026-01-01 00:00:00 Graphing changes"];
          EvOpen "cache.dat" "wb"; EvPickleDump dm;
          EvDigraph "Double edge facts"] fresh_world) in
  (status_code (example_served_null_source q1) = 200 ∧
   json (example_served_null_source q1) = Some (_objects example_null_source) ∧
   status_code (example_served_null_source q2) = 200 ∧
   json (example_served_null_source q2) = Some (_facts example_null_source)) ∧
  cache_dat fresh_world = None ∧
  materialises dm ∧
  t ∈ yields (facts dm) ∧ double_takes t = false ∧
  run example_urljoin example_served_null_source now example_args fresh_world =
    (Raise TypeError, w1) ∧
  run example_urljoin example_served_null_source now example_args w1 =
    (Ok (),
     add_trace [EvGet q1; EvGet q2; EvOpen "cache.dat" "rb"; EvPickleLoad] w1) ∧
  ∃ prints,
    let w1' :=
      with_cache dm
        (add_trace
           ([EvGet q1; EvGet q2; EvOpen "cache.dat" "rb"; EvPrint [PStr "First run"];
             EvPrint [PStr "2026-01-01 00:00:00 Graphing changes"];
             EvOpen "cache.dat" "wb"; EvPickleDump dm;
             EvDigraph "Double edge facts"] ++ map EvPrint prints) fresh_world) in
    run example_urljoin example_served_null_source now example_args fresh_world =
      (Raise TypeError, w1') ∧
    ∃ prints',
      run example_urljoin example_served_null_source now example_args w1' =
        (Ok (),
         add_trace
           ([EvGet q1; EvGet q2; EvOpen "cache.dat" "rb"; EvPickleLoad] ++
            map EvPrint prints') w1').
Proof.
  intros now q1 q2 dm t w1.
  assert (Hm : materialises dm) by (split; eexists; reflexivity).
  assert (Hin : t ∈ yields (facts dm)) by (by apply list_elem_of_singleton).
  split; [by repeat split |]. split; [reflexivity |]. split; [exact Hm |].
  split; [exact Hin |]. split; [reflexivity |].
  split; [vm_compute; reflexivity |]. split; [vm_compute; reflexivity |].
  exact (run_rejected_catalog_is_never_graphed example_urljoin
           example_served_null_source now example_args fresh_world
           (_objects example_null_source) (_facts example_null_source) t
           eq_refl eq_refl eq_refl eq_refl eq_refl Hm Hin eq_refl).
Defined.
